(** * Login risk detection and notification engine

    A shallow embedding of the geolocation resolver (GeoLocationService),
    the login anomaly detector (LoginAnomalyDetector), the security
    notification service (SecurityNotificationService), the
    alert-resolution route and the detection step of the login route of
    the mail system, with the properties of its specification stated
    and settled against the code, and further properties of the same
    code.

    Conventions.
    - A JavaScript number that holds a database integer (a risk score, a
      count, a row id, a time in milliseconds) is a [Z]; a coordinate, a
      distance or a duration in hours is an IEEE-754 binary64 [float].
    - [null] and [undefined] are [None].
    - A regular-expression literal is a value of [Regex.re]; [RegExp.test]
      is [Regex.test_full] (pattern anchored by ^ and $) or
      [Regex.test_prefix] (pattern anchored by ^ only).
    - A function that awaits the database or the network runs in the
      state-and-exception monad [M]; [try_catch] is try/catch.
    - A call of an async function that is not awaited is split into
      what it does before its first [await], which the caller sees, and
      the rest, which the event loop runs later. *)

From Stdlib Require Import ZArith List String Ascii Bool Lia.
From Stdlib Require Import PrimFloat Uint63.
From stdpp Require Import gmap strings.

Import ListNotations.
Local Open Scope string_scope.
Local Open Scope Z_scope.

(** ** Regular expressions, as far as the source uses them *)

Module Regex.

(** The constructs of the patterns in [isValidIP] and [isPrivateIP]:
    literal characters, character ranges, concatenation, alternation;
    [?], [{n}] and [{m,n}] are derived forms. *)
Inductive re : Type :=
| Void
| Eps
| Chr (c : ascii)
| Rng (lo hi : ascii)
| Cat (r1 r2 : re)
| Alt (r1 r2 : re).

(** [r?] *)
Definition Opt (r : re) : re := Alt r Eps.

(** [r{n}] *)
Fixpoint Rep (n : nat) (r : re) : re :=
  match n with
  | O => Eps
  | S n' => Cat r (Rep n' r)
  end.

(** [r{0,n}] *)
Fixpoint RepAtMost (n : nat) (r : re) : re :=
  match n with
  | O => Eps
  | S n' => Opt (Cat r (RepAtMost n' r))
  end.

(** [r{lo,hi}] *)
Definition RepBetween (lo hi : nat) (r : re) : re :=
  Cat (Rep lo r) (RepAtMost (hi - lo) r).

(** A literal run of characters. *)
Fixpoint Lit (s : string) : re :=
  match s with
  | EmptyString => Eps
  | String c s' => Cat (Chr c) (Lit s')
  end.

Definition in_range (lo hi c : ascii) : bool :=
  (N_of_ascii lo <=? N_of_ascii c)%N && (N_of_ascii c <=? N_of_ascii hi)%N.

Fixpoint nullable (r : re) : bool :=
  match r with
  | Void => false
  | Eps => true
  | Chr _ => false
  | Rng _ _ => false
  | Cat r1 r2 => nullable r1 && nullable r2
  | Alt r1 r2 => nullable r1 || nullable r2
  end.

(** Brzozowski derivative: the words [s] such that [c :: s] matches. *)
Fixpoint deriv (c : ascii) (r : re) : re :=
  match r with
  | Void => Void
  | Eps => Void
  | Chr c' => if Ascii.eqb c c' then Eps else Void
  | Rng lo hi => if in_range lo hi c then Eps else Void
  | Cat r1 r2 =>
      if nullable r1
      then Alt (Cat (deriv c r1) r2) (deriv c r2)
      else Cat (deriv c r1) r2
  | Alt r1 r2 => Alt (deriv c r1) (deriv c r2)
  end.

(** The whole input matches. *)
Fixpoint matches (r : re) (s : list ascii) : bool :=
  match s with
  | [] => nullable r
  | c :: s' => matches (deriv c r) s'
  end.

(** Some prefix of the input matches. *)
Fixpoint matches_prefix (r : re) (s : list ascii) : bool :=
  nullable r ||
  match s with
  | [] => false
  | c :: s' => matches_prefix (deriv c r) s'
  end.

(** [/^r$/.test(s)] *)
Definition test_full (r : re) (s : string) : bool :=
  matches r (list_ascii_of_string s).

(** [/^r/.test(s)] *)
Definition test_prefix (r : re) (s : string) : bool :=
  matches_prefix r (list_ascii_of_string s).

(** The language of a pattern, as a relation. *)
Inductive lang : re -> list ascii -> Prop :=
| L_eps : lang Eps []
| L_chr c : lang (Chr c) [c]
| L_rng lo hi c : in_range lo hi c = true -> lang (Rng lo hi) [c]
| L_cat r1 r2 s1 s2 : lang r1 s1 -> lang r2 s2 -> lang (Cat r1 r2) (s1 ++ s2)
| L_alt_l r1 r2 s : lang r1 s -> lang (Alt r1 r2) s
| L_alt_r r1 r2 s : lang r2 s -> lang (Alt r1 r2) s.

End Regex.

(** ** Effects: state, exceptions, try/catch *)

(** What a rejected promise or a thrown exception carries. *)
Inductive Error : Type :=
| QueryError (statement : string)
| UnknownProvider (name : string)
| RateLimitExceeded
| HttpError
| TypeError
| SyntaxError
| SendError.

Inductive Result (A : Type) : Type :=
| Ok (a : A)
| Throw (e : Error).
Arguments Ok {A} a.
Arguments Throw {A} e.

Definition M (S A : Type) : Type := S -> Result A * S.

Definition ret {S A : Type} (a : A) : M S A := fun s => (Ok a, s).

Definition bind {S A B : Type} (m : M S A) (k : A -> M S B) : M S B :=
  fun s =>
    match m s with
    | (Ok a, s') => k a s'
    | (Throw e, s') => (Throw e, s')
    end.

Definition throw {S A : Type} (e : Error) : M S A := fun s => (Throw e, s).

(** [try { m } catch (e) { h e }] *)
Definition try_catch {S A : Type} (m : M S A) (h : Error -> M S A) : M S A :=
  fun s =>
    match m s with
    | (Ok a, s') => (Ok a, s')
    | (Throw e, s') => h e s'
    end.

Definition gets {S A : Type} (f : S -> A) : M S A := fun s => (Ok (f s), s).

Definition modify {S : Type} (f : S -> S) : M S unit := fun s => (Ok tt, f s).

Declare Scope js_scope.
Delimit Scope js_scope with js.
Notation "'let*' x ':=' c1 'in' c2" := (bind c1 (fun x => c2))
  (at level 10, x name, c1 at level 200, c2 at level 200) : js_scope.

(** ** The JavaScript runtime and the libraries the services call *)

(** What [new UAParser(ua)] reports: [getDevice().type], the browser's
    and the operating system's name and version. *)
Record UAResult : Type := {
  ua_device_type : option string;
  ua_browser_name : option string;
  ua_browser_version : option string;
  ua_os_name : option string;
  ua_os_version : option string
}.

(** The parsed [alert_email_template] setting; a key the JSON lacks is
    [undefined]. *)
Record EmailTemplate : Type := {
  subject : option string;
  body : option string
}.

(** Library functions the code calls and this repository does not define.
    ECMAScript leaves [Math.sin], [Math.cos] and [Math.atan2]
    implementation-approximated. *)
Class Runtime : Type := {
  Math_sin : float -> float;
  Math_cos : float -> float;
  Math_atan2 : float -> float -> float;
  (** [parseFloat]; NaN when no number is read *)
  parseFloat : string -> float;
  (** [parseInt]; [None] is NaN *)
  parseInt : string -> option Z;
  (** [crypto.createHash('sha256').update(s).digest('hex')] *)
  sha256_hex : string -> string;
  UAParser : string -> UAResult;
  (** [new Date(now.toLocaleString("en-US", {timeZone})).getHours()] at
      the time [now]; an unknown zone is a RangeError *)
  hour_in_timezone : Z -> string -> Result Z;
  (** [JSON.parse] of the template setting; invalid JSON is a SyntaxError *)
  JSON_parse_template : string -> Result EmailTemplate;
  (** express-validator's sanitizer [trim()]: the text without the
      blanks around it *)
  validator_trim : string -> string;
  (** express-validator's [isLength({ max })]: whether the text has at
      most [max] characters *)
  validator_isLength_max : Z -> string -> bool
}.

(** [`${x}`] of a value that may be undefined. *)
Definition js_str (x : option string) : string :=
  match x with
  | Some s => s
  | None => "undefined"
  end.

(** A number is falsy when it is +0, -0 or NaN. *)
Definition falsy_number (v : float) : bool :=
  PrimFloat.eqb v 0%float || negb (PrimFloat.eqb v v).

(** [!x] for a value that is null, undefined or a number. *)
Definition js_not (x : option float) : bool :=
  match x with
  | None => true
  | Some v => falsy_number v
  end.

(** ToNumber of a value that is null or a number: null is +0. *)
Definition to_number (x : option float) : float :=
  match x with
  | None => 0%float
  | Some v => v
  end.

(** The number that holds an integer (exact below 2^53). *)
Definition float_of_Z (z : Z) : float :=
  match z with
  | Z0 => 0%float
  | Zpos _ => PrimFloat.of_uint63 (Uint63.of_Z z)
  | Zneg _ => PrimFloat.opp (PrimFloat.of_uint63 (Uint63.of_Z (- z)))
  end.

(** [Math.PI] *)
Definition Math_PI : float := 0x1.921fb54442d18p+1%float.

(** ** GeoLocationService *)

Module Geo.

Import Regex.
Local Open Scope js_scope.

(** The canonical location object. A row read from the cache table also
    carries [last_updated]; a fresh or default object does not. *)
Record LocationInfo : Type := {
  country : option string;
  region : option string;
  city : option string;
  latitude : option float;
  longitude : option float;
  timezone : option string;
  isp : option string;
  is_proxy : bool;
  is_vpn : bool;
  is_tor : bool;
  threat_level : option string;
  last_updated : option Z
}.

(** The body of an upstream response, with the fields either provider
    may send. *)
Record ApiData : Type := {
  d_status : option string;
  d_country : option string;
  d_regionName : option string;
  d_region : option string;
  d_city : option string;
  d_lat : option float;
  d_lon : option float;
  d_loc : option string;
  d_timezone : option string;
  d_isp : option string;
  d_org : option string;
  d_proxy : bool
}.

Record Provider : Type := {
  name : string;
  rateLimit : Z
}.

(** [this.providers] *)
Definition providers (provider : string) : option Provider :=
  if String.eqb provider "ipapi" then Some {| name := "ipapi"; rateLimit := 45 |}
  else if String.eqb provider "ipinfo" then Some {| name := "ipinfo"; rateLimit := 50000 |}
  else if String.eqb provider "maxmind" then Some {| name := "maxmind"; rateLimit := 1000 |}
  else None.

(** What the service does to its collaborators. *)
Inductive Event : Type :=
| CacheSelect (ip : string)
| CacheUpsert (ip : string)
| HttpGet (provider ip : string).

(** The service instance and the collaborators it reaches: the clock,
    the [ip_geolocation_cache] table (keyed by address), the upstream
    provider, and whether the database rejects a statement. *)
Record World : Type := {
  now : Z;
  currentProvider : string;
  ip_geolocation_cache : gmap string LocationInfo;
  rateLimitCounter : gmap Z Z;
  select_fails : bool;
  upsert_fails : bool;
  (** [axios.get]: [None] is a timeout, a network error or a non-2xx answer *)
  axios_get : string -> string -> option ApiData;
  trace : list Event
}.

Definition emit (e : Event) (w : World) : World :=
  {| now := now w; currentProvider := currentProvider w;
     ip_geolocation_cache := ip_geolocation_cache w;
     rateLimitCounter := rateLimitCounter w;
     select_fails := select_fails w; upsert_fails := upsert_fails w;
     axios_get := axios_get w; trace := (trace w ++ [e])%list |}.

Definition set_cache (c : gmap string LocationInfo) (w : World) : World :=
  {| now := now w; currentProvider := currentProvider w;
     ip_geolocation_cache := c;
     rateLimitCounter := rateLimitCounter w;
     select_fails := select_fails w; upsert_fails := upsert_fails w;
     axios_get := axios_get w; trace := trace w |}.

Definition set_rateLimitCounter (c : gmap Z Z) (w : World) : World :=
  {| now := now w; currentProvider := currentProvider w;
     ip_geolocation_cache := ip_geolocation_cache w;
     rateLimitCounter := c;
     select_fails := select_fails w; upsert_fails := upsert_fails w;
     axios_get := axios_get w; trace := trace w |}.

(** *** Address patterns *)

Definition digit : re := Rng "0"%char "9"%char.

(** [25[0-5]|2[0-4][0-9]|[01]?[0-9][0-9]?] *)
Definition octet : re :=
  Alt (Cat (Lit "25") (Rng "0"%char "5"%char))
      (Alt (Cat (Chr "2"%char) (Cat (Rng "0"%char "4"%char) digit))
           (Cat (Opt (Alt (Chr "0"%char) (Chr "1"%char)))
                (Cat digit (Opt digit)))).

(** [^(?:(?:octet)\.){3}(?:octet)$] *)
Definition ipv4Regex : re :=
  Cat (Rep 3 (Cat octet (Chr "."%char))) octet.

(** [[0-9a-fA-F]] *)
Definition hexdigit : re :=
  Alt (Rng "0"%char "9"%char)
      (Alt (Rng "a"%char "f"%char) (Rng "A"%char "F"%char)).

(** [^(?:[0-9a-fA-F]{1,4}:){7}[0-9a-fA-F]{1,4}$] *)
Definition ipv6Regex : re :=
  Cat (Rep 7 (Cat (RepBetween 1 4 hexdigit) (Chr ":"%char)))
      (RepBetween 1 4 hexdigit).

Definition isValidIP (ip : string) : bool :=
  test_full ipv4Regex ip || test_full ipv6Regex ip.

(** A pattern of [privateRanges]: anchored at both ends, or at the start. *)
Inductive Pattern : Type :=
| Whole (r : re)
| Prefix (r : re).

Definition test (p : Pattern) (s : string) : bool :=
  match p with
  | Whole r => test_full r s
  | Prefix r => test_prefix r s
  end.

Definition privateRanges : list Pattern :=
  [ Prefix (Lit "10.");
    Prefix (Cat (Lit "172.")
              (Cat (Alt (Cat (Chr "1"%char) (Rng "6"%char "9"%char))
                        (Alt (Cat (Chr "2"%char) (Rng "0"%char "9"%char))
                             (Cat (Chr "3"%char) (Rng "0"%char "1"%char))))
                   (Chr "."%char)));
    Prefix (Lit "192.168.");
    Prefix (Lit "127.");
    Prefix (Lit "169.254.");
    Whole (Lit "::1");
    Prefix (Lit "fc00:");
    Prefix (Lit "fe80:") ].

Definition isPrivateIP (ip : string) : bool :=
  existsb (fun range => test range ip) privateRanges.

Definition getDefaultLocationInfo : LocationInfo :=
  {| country := Some "Unknown"; region := Some "Unknown"; city := Some "Unknown";
     latitude := None; longitude := None; timezone := None;
     isp := Some "Unknown";
     is_proxy := false; is_vpn := false; is_tor := false;
     threat_level := Some "low"; last_updated := None |}.

(** *** Cache *)

(** 24 hours, in milliseconds *)
Definition maxAge : Z := 24 * 60 * 60 * 1000.

Definition isCacheValid (now : Z) (cachedData : LocationInfo) : bool :=
  match last_updated cachedData with
  | None => false
  | Some t => now - t <? maxAge
  end.

Definition getCachedLocation (ip : string) : M World (option LocationInfo) :=
  try_catch
    (let* _ := modify (emit (CacheSelect ip)) in
     let* w := gets id in
     if select_fails w then throw (QueryError "SELECT ip_geolocation_cache")
     else ret (ip_geolocation_cache w !! ip))
    (fun _ => ret None).

(** The row the upsert leaves: the location's columns and
    [last_updated = CURRENT_TIMESTAMP]. *)
Definition cache_row (now : Z) (l : LocationInfo) : LocationInfo :=
  {| country := country l; region := region l; city := city l;
     latitude := latitude l; longitude := longitude l;
     timezone := timezone l; isp := isp l;
     is_proxy := is_proxy l; is_vpn := is_vpn l; is_tor := is_tor l;
     threat_level := threat_level l; last_updated := Some now |}.

Definition saveCachedLocation (ip : string) (locationData : LocationInfo) : M World unit :=
  try_catch
    (let* _ := modify (emit (CacheUpsert ip)) in
     let* w := gets id in
     if upsert_fails w then throw (QueryError "INSERT ip_geolocation_cache")
     else modify (fun w => set_cache (<[ip := cache_row (now w) locationData]> (ip_geolocation_cache w)) w))
    (fun _ => ret tt).

(** *** Upstream *)

(** The counters left once those before the window are deleted. *)
Definition prune_counters (windowStart : Z) (counter : gmap Z Z) : gmap Z Z :=
  filter (fun e : Z * Z => windowStart <= e.1) counter.

(** The requests counted within the window. *)
Definition count_requests (windowStart : Z) (counter : gmap Z Z) : Z :=
  map_fold (fun timestamp count acc =>
              if windowStart <=? timestamp then acc + count else acc)
           0 counter.

Definition checkRateLimit : M World bool :=
  let* w := gets id in
  match providers (currentProvider w) with
  | None => ret false
  | Some provider =>
      let windowStart := now w - 60000 in
      let counter := prune_counters windowStart (rateLimitCounter w) in
      let currentRequests := count_requests windowStart counter in
      let* _ := modify (set_rateLimitCounter counter) in
      if rateLimit provider <=? currentRequests then ret false
      else
        let currentMinute := (now w / 60000) * 60000 in
        let* _ := modify (set_rateLimitCounter
                      (<[currentMinute := default 0 (counter !! currentMinute) + 1]> counter)) in
        ret true
  end.

(** [s.split(',')] *)
Fixpoint split_comma_aux (s : string) (cur : string) : list string :=
  match s with
  | EmptyString => [cur]
  | String c s' =>
      if Ascii.eqb c ","%char then cur :: split_comma_aux s' EmptyString
      else split_comma_aux s' (cur +:+ String c EmptyString)
  end.

Definition split_comma (s : string) : list string := split_comma_aux s EmptyString.

(** [parseFloat(x) || null] for an array element that may be missing *)
Definition parse_coordinate `{Runtime} (x : option string) : option float :=
  match x with
  | None => None
  | Some s => let v := parseFloat s in if falsy_number v then None else Some v
  end.

Definition normalizeResponse `{Runtime} (provider : string) (data : ApiData) : LocationInfo :=
  let normalized :=
    {| country := None; region := None; city := None;
       latitude := None; longitude := None; timezone := None; isp := None;
       is_proxy := false; is_vpn := false; is_tor := false;
       threat_level := Some "low"; last_updated := None |} in
  if String.eqb provider "ipapi" then
    match d_status data with
    | Some status =>
        if String.eqb status "success" then
          {| country := d_country data; region := d_regionName data; city := d_city data;
             latitude := d_lat data; longitude := d_lon data;
             timezone := d_timezone data; isp := d_isp data;
             is_proxy := d_proxy data; is_vpn := false; is_tor := false;
             threat_level := Some (if d_proxy data then "medium" else "low");
             last_updated := None |}
        else normalized
    | None => normalized
    end
  else if String.eqb provider "ipinfo" then
    let loc := match d_loc data with
               | Some l => if String.eqb l "" then [] else split_comma l
               | None => []
               end in
    {| country := d_country data; region := d_region data; city := d_city data;
       latitude := parse_coordinate (nth_error loc 0);
       longitude := parse_coordinate (nth_error loc 1);
       timezone := d_timezone data; isp := d_org data;
       is_proxy := false; is_vpn := false; is_tor := false;
       threat_level := Some "low"; last_updated := None |}
  else normalized.

Definition fetchFromAPI `{Runtime} (ip : string) : M World LocationInfo :=
  let* w := gets id in
  match providers (currentProvider w) with
  | None => throw (UnknownProvider (currentProvider w))
  | Some provider =>
      let* allowed := checkRateLimit in
      if negb allowed then throw RateLimitExceeded
      else
        let* _ := modify (emit (HttpGet (currentProvider w) ip)) in
        match axios_get w (currentProvider w) ip with
        | None => throw HttpError
        | Some data => ret (normalizeResponse (currentProvider w) data)
        end
  end.

(** *** resolve *)

Definition getLocationInfo `{Runtime} (ip : string) : M World LocationInfo :=
  try_catch
    (if negb (isValidIP ip) || isPrivateIP ip then ret getDefaultLocationInfo
     else
       let* cached := getCachedLocation ip in
       let* w := gets id in
       match cached with
       | Some entry =>
           if isCacheValid (now w) entry then ret entry
           else
             let* locationData := fetchFromAPI ip in
             let* _ := saveCachedLocation ip locationData in
             ret locationData
       | None =>
           let* locationData := fetchFromAPI ip in
           let* _ := saveCachedLocation ip locationData in
           ret locationData
       end)
    (fun _ => ret getDefaultLocationInfo).

(** *** Distance *)

Definition toRadians (degrees : float) : float :=
  PrimFloat.mul degrees (PrimFloat.div Math_PI 180%float).

Definition calculateDistance `{Runtime} (lat1 lon1 lat2 lon2 : option float) : option float :=
  if js_not lat1 || js_not lon1 || js_not lat2 || js_not lon2 then None
  else
    let lat1 := to_number lat1 in
    let lon1 := to_number lon1 in
    let lat2 := to_number lat2 in
    let lon2 := to_number lon2 in
    let R := 6371%float in
    let dLat := toRadians (PrimFloat.sub lat2 lat1) in
    let dLon := toRadians (PrimFloat.sub lon2 lon1) in
    let a :=
      PrimFloat.add
        (PrimFloat.mul (Math_sin (PrimFloat.div dLat 2%float))
                       (Math_sin (PrimFloat.div dLat 2%float)))
        (PrimFloat.mul
           (PrimFloat.mul
              (PrimFloat.mul (Math_cos (toRadians lat1)) (Math_cos (toRadians lat2)))
              (Math_sin (PrimFloat.div dLon 2%float)))
           (Math_sin (PrimFloat.div dLon 2%float))) in
    let c := PrimFloat.mul 2%float
               (Math_atan2 (PrimFloat.sqrt a) (PrimFloat.sqrt (PrimFloat.sub 1%float a))) in
    Some (PrimFloat.mul R c).

End Geo.

(** ** Exceptions without state, for the code that only reads *)

Definition rbind {A B : Type} (r : Result A) (k : A -> Result B) : Result B :=
  match r with
  | Ok a => k a
  | Throw e => Throw e
  end.

(** [try { return r } catch { return fallback }] *)
Definition or_else {A : Type} (r : Result A) (fallback : A) : A :=
  match r with
  | Ok a => a
  | Throw _ => fallback
  end.

Notation "'let?' x ':=' c1 'in' c2" := (rbind c1 (fun x => c2))
  (at level 10, x name, c1 at level 200, c2 at level 200) : js_scope.

(** Stable insertion sort, largest key first ([ORDER BY key DESC]). *)
Fixpoint insert_desc {A : Type} (key : A -> Z) (x : A) (l : list A) : list A :=
  match l with
  | [] => [x]
  | y :: l' => if key y <? key x then x :: l else y :: insert_desc key x l'
  end.

Definition sort_desc {A : Type} (key : A -> Z) (l : list A) : list A :=
  fold_right (insert_desc key) [] l.

(** ** LoginAnomalyDetector *)

Module Detector.

Import Geo.
Local Open Scope js_scope.

(** The parsed [conditions] JSON of a rule; a key the JSON lacks is
    [undefined]. *)
Record Conditions : Type := {
  max_distance_km : option float;
  time_window_hours : option float;
  time_window_minutes : option Z;
  max_attempts : option Z;
  normal_hours : option (list Z)
}.

(** A value of [this.riskRules]. *)
Record Rule : Type := {
  rule_type : string;
  rule_description : string;
  rule_riskScore : Z;
  conditions : Conditions
}.

Record DeviceInfo : Type := {
  device_type : string;
  browser : string;
  os : string
}.

Record LoginData : Type := {
  ip_address : string;
  user_agent : string;
  session_token_hash : string
}.

(** What a triggered check reports besides its score: the values its
    [reason] text and its [details] object are built from. *)
Inductive Reason : Type :=
| GeographicAnomaly (distance timeDiff : float)
    (previousCity previousCountry currentCity currentCountry : option string)
| IpReputation (suspiciousFactors : list string) (threatLevel : option string)
| LoginFrequency (attemptCount : Z) (timeWindow : option Z) (ipAddress : string)
| NewDevice (deviceFingerprint : string) (device : DeviceInfo)
| TimeAnomaly (currentHour : Z) (expectedHours : list Z) (zone : option string)
| ConcurrentSessions (sessionCount : Z) (maxSessions : option Z).

(** The [type] field of a triggered check. *)
Definition check_type (r : Reason) : string :=
  match r with
  | GeographicAnomaly _ _ _ _ _ _ => "geographic_anomaly"
  | IpReputation _ _ => "ip_reputation"
  | LoginFrequency _ _ _ => "login_frequency"
  | NewDevice _ _ => "new_device"
  | TimeAnomaly _ _ _ => "time_anomaly"
  | ConcurrentSessions _ _ => "concurrent_sessions"
  end.

(** What a check returns. *)
Record CheckResult : Type := {
  isAnomalous : bool;
  riskScore : Z;
  reason : option Reason
}.

(** [{ isAnomalous: false, riskScore: 0 }] *)
Definition notAnomalous : CheckResult :=
  {| isAnomalous := false; riskScore := 0; reason := None |}.

Definition anomalous (score : Z) (r : Reason) : CheckResult :=
  {| isAnomalous := true; riskScore := score; reason := Some r |}.

(** A row of [user_login_logs]. The table definition is not among the
    sources: as in the data model of the specification, a row is created
    active, at the time of the login. *)
Record LoginLog : Type := {
  log_user_id : Z;
  log_session_token_hash : string;
  log_ip_address : string;
  log_user_agent : string;
  log_location : LocationInfo;
  log_device : DeviceInfo;
  log_risk_score : Z;
  log_is_suspicious : bool;
  log_suspicious_reasons : option (list (option Reason));
  log_login_time : Z;
  log_is_active : bool
}.

(** A row of [user_trusted_devices], with the columns the detector
    reads and [addTrustedDevice] writes. [td_location] holds the city
    and the country the text [`${city}, ${country}`] is made of.
    The table definition is not among the sources: [td_last_used] is
    [None] as long as no statement has set the column, whatever the
    table then has there. *)
Record TrustedDevice : Type := {
  td_user_id : Z;
  td_device_fingerprint : string;
  td_device_name : string;
  td_device_type : string;
  td_browser : string;
  td_os : string;
  td_ip_address : string;
  td_location : option string * option string;
  td_last_used : option Z
}.

(** The statements the detector sends to the database. *)
Inductive Query : Type :=
| SelectRecentLogins
| CountAttempts
| SelectKnownDevice
| CountDevices
| SelectLoginPattern
| SelectMaxSessions
| CountActiveSessions
| InsertLoginLog.

Record World : Type := {
  geo : Geo.World;
  riskRules : gmap string Rule;
  user_login_logs : list LoginLog;
  user_trusted_devices : list TrustedDevice;
  security_settings : gmap string string;
  (** whether the database rejects a statement *)
  query_fails : Query -> bool
}.

Definition set_geo (g : Geo.World) (w : World) : World :=
  {| geo := g; riskRules := riskRules w; user_login_logs := user_login_logs w;
     user_trusted_devices := user_trusted_devices w;
     security_settings := security_settings w; query_fails := query_fails w |}.

Definition set_user_login_logs (l : list LoginLog) (w : World) : World :=
  {| geo := geo w; riskRules := riskRules w; user_login_logs := l;
     user_trusted_devices := user_trusted_devices w;
     security_settings := security_settings w; query_fails := query_fails w |}.

(** [await query(...)] of a statement that reads. *)
Definition query {A : Type} (w : World) (q : Query) (rows : A) : Result A :=
  if query_fails w q then Throw (QueryError "query") else Ok rows.

Definition hours (h : Z) : Z := h * 3600000.
Definition minutes (m : Z) : Z := m * 60000.
Definition days (d : Z) : Z := d * 86400000.

(** [x > y], where [x] may be null and [y] undefined (then NaN) *)
Definition js_gt (x : option float) (y : option float) : bool :=
  match y with
  | None => false
  | Some y => PrimFloat.ltb y (to_number x)
  end.

(** [x < y], where [y] may be undefined *)
Definition js_lt (x : float) (y : option float) : bool :=
  match y with
  | None => false
  | Some y => PrimFloat.ltb x y
  end.

(** [x >= y] on integers, where [y] may be undefined or NaN *)
Definition js_ge (x : Z) (y : option Z) : bool :=
  match y with
  | None => false
  | Some y => y <=? x
  end.

(** *** 1. Geographic anomaly *)

Definition recentLogins (w : World) (userId : Z) : list LoginLog :=
  take 5
    (sort_desc log_login_time
       (filter (fun l => log_user_id l = userId
                         /\ latitude (log_location l) <> None
                         /\ longitude (log_location l) <> None
                         /\ now (geo w) - hours 24 <= log_login_time l)
               (user_login_logs w))).

(** The loop over the recent logins: the first one far enough and recent
    enough decides. *)
Fixpoint first_far_login `{Runtime} (w : World) (rule : Rule)
    (currentLocation : LocationInfo) (logins : list LoginLog) : Result CheckResult :=
  match logins with
  | [] => Ok notAnomalous
  | recentLogin :: rest =>
      let distance :=
        calculateDistance (latitude currentLocation) (longitude currentLocation)
                          (latitude (log_location recentLogin))
                          (longitude (log_location recentLogin)) in
      let timeDiff :=
        PrimFloat.div
          (PrimFloat.div (float_of_Z (now (geo w) - log_login_time recentLogin)) 1000%float)
          3600%float in
      if js_gt distance (max_distance_km (conditions rule))
         && js_lt timeDiff (time_window_hours (conditions rule))
      then
        match distance with
        | None => Throw TypeError
        | Some d =>
            Ok (anomalous (rule_riskScore rule)
                  (GeographicAnomaly d timeDiff
                     (city (log_location recentLogin)) (country (log_location recentLogin))
                     (city currentLocation) (country currentLocation)))
        end
      else first_far_login w rule currentLocation rest
  end.

Definition checkGeographicAnomaly `{Runtime} (w : World) (userId : Z)
    (currentLocation : LocationInfo) : CheckResult :=
  or_else
    (if js_not (latitude currentLocation) || js_not (longitude currentLocation)
     then Ok notAnomalous
     else
       let? logins := query w SelectRecentLogins (recentLogins w userId) in
       match logins with
       | [] => Ok notAnomalous
       | _ :: _ =>
           match riskRules w !! "异常地理位置" with
           | None => Ok notAnomalous
           | Some rule => first_far_login w rule currentLocation logins
           end
       end)
    notAnomalous.

(** *** 2. IP reputation *)

(** One step of the accumulation: push the factor, add its score. *)
Definition add_factor (applies : bool) (label : string) (score : Z)
    (acc : list string * Z) : list string * Z :=
  if applies then ((acc.1 ++ [label])%list, acc.2 + score) else acc.

Definition threat_is (l : LocationInfo) (level : string) : bool :=
  match threat_level l with
  | Some t => String.eqb t level
  | None => false
  end.

Definition ip_factors (locationInfo : LocationInfo) : list string * Z :=
  let acc := ([], 0) in
  let acc := add_factor (is_proxy locationInfo) "代理服务器" 20 acc in
  let acc := add_factor (is_vpn locationInfo) "VPN" 15 acc in
  let acc := add_factor (is_tor locationInfo) "Tor网络" 30 acc in
  if threat_is locationInfo "high" then add_factor true "高威胁IP" 25 acc
  else if threat_is locationInfo "medium" then add_factor true "中等威胁IP" 15 acc
  else acc.

Definition checkIPReputation (w : World) (locationInfo : LocationInfo) : CheckResult :=
  match riskRules w !! "可疑IP地址" with
  | None => notAnomalous
  | Some rule =>
      let '(suspiciousFactors, score) := ip_factors locationInfo in
      if 0 <? Z.of_nat (length suspiciousFactors) then
        anomalous (Z.min score (rule_riskScore rule))
                  (IpReputation suspiciousFactors (threat_level locationInfo))
      else notAnomalous
  end.

(** *** 3. Login frequency *)

(** The count of the attempts from the address within the window; a
    NULL interval selects no row. *)
Definition attempt_count (w : World) (ipAddress : string) (timeWindow : option Z) : Z :=
  match timeWindow with
  | None => 0
  | Some m =>
      Z.of_nat (length (filter (fun l => log_ip_address l = ipAddress
                                         /\ now (geo w) - minutes m <= log_login_time l)
                               (user_login_logs w)))
  end.

Definition checkLoginFrequency (w : World) (userId : Z) (ipAddress : string) : CheckResult :=
  or_else
    (match riskRules w !! "频繁登录尝试" with
     | None => Ok notAnomalous
     | Some rule =>
         let timeWindow := time_window_minutes (conditions rule) in
         let maxAttempts := max_attempts (conditions rule) in
         let? attemptCount := query w CountAttempts (attempt_count w ipAddress timeWindow) in
         if js_ge attemptCount maxAttempts then
           Ok (anomalous (rule_riskScore rule)
                 (LoginFrequency attemptCount timeWindow ipAddress))
         else Ok notAnomalous
     end)
    notAnomalous.

(** *** 4. New device *)

Definition generateDeviceFingerprint `{Runtime} (deviceInfo : DeviceInfo) (ipAddress : string) : string :=
  sha256_hex (device_type deviceInfo +:+ "-" +:+ browser deviceInfo +:+ "-"
              +:+ os deviceInfo +:+ "-" +:+ ipAddress).

(** The rows of [user_trusted_devices] of a user with a fingerprint. *)
Definition known_devices (w : World) (userId : Z) (fingerprint : string) : list TrustedDevice :=
  filter (fun d => td_user_id d = userId /\ td_device_fingerprint d = fingerprint)
         (user_trusted_devices w).

(** The count of the rows of [user_trusted_devices] of a user. *)
Definition device_count (w : World) (userId : Z) : Z :=
  Z.of_nat (length (filter (fun d => td_user_id d = userId) (user_trusted_devices w))).

Definition checkDeviceAnomaly `{Runtime} (w : World) (userId : Z)
    (deviceInfo : DeviceInfo) (ipAddress : string) : CheckResult :=
  or_else
    (match riskRules w !! "新设备登录" with
     | None => Ok notAnomalous
     | Some rule =>
         let deviceFingerprint := generateDeviceFingerprint deviceInfo ipAddress in
         let? knownDevice := query w SelectKnownDevice (known_devices w userId deviceFingerprint) in
         match knownDevice with
         | [] =>
             let? userDevices := query w CountDevices (device_count w userId) in
             let isFirstDevice := userDevices =? 0 in
             if negb isFirstDevice then
               Ok (anomalous (rule_riskScore rule) (NewDevice deviceFingerprint deviceInfo))
             else Ok notAnomalous
         | _ :: _ => Ok notAnomalous
         end
     end)
    notAnomalous.

(** *** 5. Time of day *)

(** [HOUR(login_time)], the database session running in UTC. *)
Definition HOUR (t : Z) : Z := (t / 3600000) mod 24.

(** The rows of the pattern query: per hour of the day, the number of
    logins of the user in the last 30 days, hours with at least 3 kept,
    most frequent first. *)
Definition login_pattern (w : World) (userId : Z) : list (Z * Z) :=
  sort_desc snd
    (filter (fun p : Z * Z => 3 <= p.2)
       (map (fun h =>
               (h, Z.of_nat (length (filter (fun l => log_user_id l = userId
                                                  /\ now (geo w) - days 30 <= log_login_time l
                                                  /\ HOUR (log_login_time l) = h)
                                            (user_login_logs w)))))
            (seqZ 0 24))).

Definition getUserLoginPattern (w : World) (userId : Z) : list (Z * Z) :=
  or_else (query w SelectLoginPattern (login_pattern w userId)) [].

Definition getCurrentHourInTimezone `{Runtime} (w : World) (zone : option string) : option Z :=
  match zone with
  | None => None
  | Some z =>
      if String.eqb z "" then None
      else or_else (let? h := hour_in_timezone (now (geo w)) z in Ok (Some h)) None
  end.

(** [hs.includes(h)] *)
Definition includes (hs : list Z) (h : Z) : bool := existsb (Z.eqb h) hs.

Definition checkTimeAnomaly `{Runtime} (w : World) (userId : Z) (zone : option string) : CheckResult :=
  or_else
    (match riskRules w !! "异常时间登录" with
     | None => Ok notAnomalous
     | Some rule =>
         let userLoginPattern := getUserLoginPattern w userId in
         match getCurrentHourInTimezone w zone with
         | None => Ok notAnomalous
         | Some currentHour =>
             let? normalHours :=
               match normal_hours (conditions rule) with
               | Some hs => Ok hs
               | None => Throw TypeError
               end in
             let isNormalTime := includes normalHours currentHour in
             match userLoginPattern with
             | _ :: _ =>
                 let userNormalHours := map fst userLoginPattern in
                 let isUserNormalTime := includes userNormalHours currentHour in
                 if negb isUserNormalTime then
                   Ok (anomalous (rule_riskScore rule)
                         (TimeAnomaly currentHour userNormalHours zone))
                 else Ok notAnomalous
             | [] =>
                 if negb isNormalTime then
                   Ok (anomalous (rule_riskScore rule)
                         (TimeAnomaly currentHour normalHours zone))
                 else Ok notAnomalous
             end
         end
     end)
    notAnomalous.

(** *** 6. Concurrent sessions *)

Definition active_session_count (w : World) (userId : Z) : Z :=
  Z.of_nat (length (filter (fun l => log_user_id l = userId /\ log_is_active l = true)
                           (user_login_logs w))).

Definition checkConcurrentSessions `{Runtime} (w : World) (userId : Z) : CheckResult :=
  or_else
    (let? settings := query w SelectMaxSessions (security_settings w !! "max_concurrent_sessions") in
     let maxSessions :=
       match settings with
       | Some setting_value => parseInt setting_value
       | None => Some 5
       end in
     let? sessionCount := query w CountActiveSessions (active_session_count w userId) in
     if js_ge sessionCount maxSessions then
       Ok (anomalous 25 (ConcurrentSessions sessionCount maxSessions))
     else Ok notAnomalous)
    notAnomalous.

(** *** The login record *)

(** The object handed to [recordLoginLog]: the login data, the location
    and the device spread into one, with the verdict. *)
Record LogData : Type := {
  ld_login : LoginData;
  ld_location : LocationInfo;
  ld_device : DeviceInfo;
  risk_score : Z;
  is_suspicious : bool;
  suspicious_reasons : option (list (option Reason))
}.

Definition login_row (now : Z) (userId : Z) (logData : LogData) : LoginLog :=
  {| log_user_id := userId;
     log_session_token_hash := session_token_hash (ld_login logData);
     log_ip_address := ip_address (ld_login logData);
     log_user_agent := user_agent (ld_login logData);
     log_location := ld_location logData;
     log_device := ld_device logData;
     log_risk_score := risk_score logData;
     log_is_suspicious := is_suspicious logData;
     log_suspicious_reasons := suspicious_reasons logData;
     log_login_time := now;
     log_is_active := true |}.

Definition recordLoginLog (userId : Z) (logData : LogData) : M World unit :=
  try_catch
    (let* w := gets id in
     if query_fails w InsertLoginLog then throw (QueryError "INSERT user_login_logs")
     else modify (set_user_login_logs
                    (user_login_logs w ++ [login_row (now (geo w)) userId logData])%list))
    (fun error => throw error).

(** *** detect *)

Definition getDeviceType (device_type : option string) : string :=
  match device_type with
  | Some t =>
      if String.eqb t "mobile" then "mobile"
      else if String.eqb t "tablet" then "tablet"
      else "desktop"
  | None => "desktop"
  end.

(** The device object built from the parsed agent string. *)
Definition device_of_agent `{Runtime} (user_agent : string) : DeviceInfo :=
  let uaParser := UAParser user_agent in
  {| device_type := getDeviceType (ua_device_type uaParser);
     browser := js_str (ua_browser_name uaParser) +:+ " " +:+ js_str (ua_browser_version uaParser);
     os := js_str (ua_os_name uaParser) +:+ " " +:+ js_str (ua_os_version uaParser) |}.

(** The three accumulators of [detectAnomalies]. *)
Record Tally : Type := {
  acc_totalRiskScore : Z;
  acc_anomalies : list CheckResult;
  acc_suspiciousReasons : list (option Reason)
}.

(** [if (a.isAnomalous) { total += a.riskScore; anomalies.push(a);
    suspiciousReasons.push(a.reason) }] *)
Definition tally (acc : Tally) (a : CheckResult) : Tally :=
  if isAnomalous a then
    {| acc_totalRiskScore := acc_totalRiskScore acc + riskScore a;
       acc_anomalies := (acc_anomalies acc ++ [a])%list;
       acc_suspiciousReasons := (acc_suspiciousReasons acc ++ [reason a])%list |}
  else acc.

Record RiskAssessment : Type := {
  totalRiskScore : Z;
  isSuspicious : bool;
  anomalies : list CheckResult;
  suspiciousReasons : list (option Reason);
  locationInfo : LocationInfo;
  deviceInfo : DeviceInfo
}.

(** The detector awaits the geolocation service. *)
Definition lift_geo {A : Type} (m : M Geo.World A) : M World A :=
  fun w => let '(r, g) := m (geo w) in (r, set_geo g w).

(** The six checks of a login, in the order the detector runs them. *)
Definition run_checks `{Runtime} (w : World) (userId : Z) (loginData : LoginData)
    (locationInfo : LocationInfo) (deviceInfo : DeviceInfo) : list CheckResult :=
  [ checkGeographicAnomaly w userId locationInfo;
    checkIPReputation w locationInfo;
    checkLoginFrequency w userId (ip_address loginData);
    checkDeviceAnomaly w userId deviceInfo (ip_address loginData);
    checkTimeAnomaly w userId (timezone locationInfo);
    checkConcurrentSessions w userId ].

Definition detectAnomalies `{Runtime} (userId : Z) (loginData : LoginData) : M World RiskAssessment :=
  try_catch
    (let acc := {| acc_totalRiskScore := 0; acc_anomalies := []; acc_suspiciousReasons := [] |} in
     let* locationInfo := lift_geo (getLocationInfo (ip_address loginData)) in
     let deviceInfo := device_of_agent (user_agent loginData) in
     let* w := gets id in
     let geoAnomaly := checkGeographicAnomaly w userId locationInfo in
     let acc := tally acc geoAnomaly in
     let ipReputationAnomaly := checkIPReputation w locationInfo in
     let acc := tally acc ipReputationAnomaly in
     let frequencyAnomaly := checkLoginFrequency w userId (ip_address loginData) in
     let acc := tally acc frequencyAnomaly in
     let deviceAnomaly := checkDeviceAnomaly w userId deviceInfo (ip_address loginData) in
     let acc := tally acc deviceAnomaly in
     let timeAnomaly := checkTimeAnomaly w userId (timezone locationInfo) in
     let acc := tally acc timeAnomaly in
     let concurrentAnomaly := checkConcurrentSessions w userId in
     let acc := tally acc concurrentAnomaly in
     let* _ := recordLoginLog userId
                 {| ld_login := loginData; ld_location := locationInfo; ld_device := deviceInfo;
                    risk_score := acc_totalRiskScore acc;
                    is_suspicious := 50 <=? acc_totalRiskScore acc;
                    suspicious_reasons :=
                      if 0 <? Z.of_nat (length (acc_suspiciousReasons acc))
                      then Some (acc_suspiciousReasons acc) else None |} in
     ret {| totalRiskScore := acc_totalRiskScore acc;
            isSuspicious := 50 <=? acc_totalRiskScore acc;
            anomalies := acc_anomalies acc;
            suspiciousReasons := acc_suspiciousReasons acc;
            locationInfo := locationInfo;
            deviceInfo := deviceInfo |})
    (fun error => throw error).

(** The contribution of a check to the total. *)
Definition contribution (a : CheckResult) : Z :=
  if isAnomalous a then riskScore a else 0.

Definition sum_scores (l : list Z) : Z := fold_right Z.add 0 l.

End Detector.

(** ** SecurityNotificationService *)

Module Notify.

Local Open Scope js_scope.

(** The argument of [createSecurityAlert]; [data] is the JSON text
    stored in [alert_data]. *)
Record AlertData : Type := {
  userId : Z;
  alertType : string;
  severity : string;
  title : string;
  description : string;
  data : string
}.

(** An entry of [this.alertQueue]: [{ alertId, ...alertData }]. *)
Record QueuedAlert : Type := {
  alertId : Z;
  alert : AlertData
}.

(** A row of [security_alerts]. The table definition is not among the
    sources: as in the data model of the specification, a row is created
    open, with no resolver, time or notes. *)
Record AlertRow : Type := {
  row_alert : AlertData;
  is_resolved : bool;
  resolved_by : option Z;
  resolved_at : option Z;
  resolution_notes : option string;
  created_at : Z
}.

(** A row of [users]. *)
Record User : Type := {
  user_id : Z;
  username : string;
  email : string;
  is_admin : bool;
  is_active : bool;
  user_created_at : Z
}.

(** The values the placeholders of the template stand for. *)
Record Variables : Type := {
  v_alert_type : string;
  v_username : string;
  v_user_email : string;
  v_severity : string;
  v_title : string;
  v_description : string;
  v_timestamp : Z;
  v_alert_data : string
}.

(** What [prepareEmailContent] returns, before rendering: the subject is
    [subject_template] with the [variables] substituted, the HTML and
    the text bodies are the fixed layouts filled from the alert, the
    user and the variables. *)
Record EmailContent : Type := {
  subject_template : string;
  variables : Variables;
  content_alert : QueuedAlert;
  content_user : option User
}.

(** The statements the service and the resolve route send to the database. *)
Inductive Query : Type :=
| InsertAlert
| SelectAlertAdministrators
| SelectAdministrators
| SelectUser
| SelectTemplate
| UpdateResolved
| SelectAlert.

Inductive Event : Type :=
| SendMail (to : string) (content : EmailContent)
| Sleep (ms : Z).

Record World : Type := {
  now : Z;
  (** [false]: [this.emailTransporter] is null *)
  emailTransporter : bool;
  alertQueue : list QueuedAlert;
  isProcessing : bool;
  (** the alert a worker that has been started and not yet resumed holds
      ([const alert] of its loop) *)
  inFlight : option QueuedAlert;
  security_alerts : gmap Z AlertRow;
  security_settings : gmap string string;
  users : list User;
  (** whether the database rejects a statement *)
  query_fails : Query -> bool;
  (** whether the mail relay rejects a message to a recipient *)
  sendMail_rejects : string -> bool;
  trace : list Event
}.

Definition set_now (t : Z) (w : World) : World :=
  {| now := t; emailTransporter := emailTransporter w;
     alertQueue := alertQueue w; isProcessing := isProcessing w;
     inFlight := inFlight w;
     security_alerts := security_alerts w; security_settings := security_settings w;
     users := users w; query_fails := query_fails w;
     sendMail_rejects := sendMail_rejects w; trace := trace w |}.

Definition set_emailTransporter (t : bool) (w : World) : World :=
  {| now := now w; emailTransporter := t;
     alertQueue := alertQueue w; isProcessing := isProcessing w;
     inFlight := inFlight w;
     security_alerts := security_alerts w; security_settings := security_settings w;
     users := users w; query_fails := query_fails w;
     sendMail_rejects := sendMail_rejects w; trace := trace w |}.

Definition set_alertQueue (q : list QueuedAlert) (w : World) : World :=
  {| now := now w; emailTransporter := emailTransporter w;
     alertQueue := q; isProcessing := isProcessing w;
     inFlight := inFlight w;
     security_alerts := security_alerts w; security_settings := security_settings w;
     users := users w; query_fails := query_fails w;
     sendMail_rejects := sendMail_rejects w; trace := trace w |}.

Definition set_isProcessing (b : bool) (w : World) : World :=
  {| now := now w; emailTransporter := emailTransporter w;
     alertQueue := alertQueue w; isProcessing := b;
     inFlight := inFlight w;
     security_alerts := security_alerts w; security_settings := security_settings w;
     users := users w; query_fails := query_fails w;
     sendMail_rejects := sendMail_rejects w; trace := trace w |}.

Definition set_inFlight (a : option QueuedAlert) (w : World) : World :=
  {| now := now w; emailTransporter := emailTransporter w;
     alertQueue := alertQueue w; isProcessing := isProcessing w;
     inFlight := a;
     security_alerts := security_alerts w; security_settings := security_settings w;
     users := users w; query_fails := query_fails w;
     sendMail_rejects := sendMail_rejects w; trace := trace w |}.

Definition set_security_alerts (a : gmap Z AlertRow) (w : World) : World :=
  {| now := now w; emailTransporter := emailTransporter w;
     alertQueue := alertQueue w; isProcessing := isProcessing w;
     inFlight := inFlight w;
     security_alerts := a; security_settings := security_settings w;
     users := users w; query_fails := query_fails w;
     sendMail_rejects := sendMail_rejects w; trace := trace w |}.

Definition emit (e : Event) (w : World) : World :=
  {| now := now w; emailTransporter := emailTransporter w;
     alertQueue := alertQueue w; isProcessing := isProcessing w;
     inFlight := inFlight w;
     security_alerts := security_alerts w; security_settings := security_settings w;
     users := users w; query_fails := query_fails w;
     sendMail_rejects := sendMail_rejects w; trace := (trace w ++ [e])%list |}.

(** [await query(...)] *)
Definition query {A : Type} (q : Query) (rows : World -> A) : M World A :=
  fun w => if query_fails w q then (Throw (QueryError "query"), w) else (Ok (rows w), w).

(** [nodemailer.createTransporter(...)] either returns a transporter or
    throws; on an exception the transporter stays null. *)
Definition initializeEmailTransporter (createTransporter : Result unit) : M World unit :=
  try_catch
    (match createTransporter with
     | Ok _ => modify (set_emailTransporter true)
     | Throw e => throw e
     end)
    (fun _ => ret tt).

(** What the module [nodemailer] exports: the factory of transporters
    is [createTransport]; there is no [createTransporter]. *)
Definition nodemailer : list string :=
  [ "createTransport"; "createTestAccount"; "getTestMessageUrl" ].

(** [module.member(...)]: a member the module does not export is
    undefined, and calling it is a TypeError; otherwise the call runs
    and has its outcome. *)
Definition call_member (module : list string) (member : string)
    (outcome : Result unit) : Result unit :=
  if existsb (String.eqb member) module then outcome else Throw TypeError.

(** The constructor; [createTransport] is the outcome a call of the
    factory of the library would have. *)
Definition constructor (createTransport : Result unit) : M World unit :=
  let* _ := modify (set_emailTransporter false) in
  let* _ := initializeEmailTransporter
              (call_member nodemailer "createTransporter" createTransport) in
  let* _ := modify (set_alertQueue []) in
  modify (set_isProcessing false).

(** The members an object literal inherits from [Object.prototype];
    each is a function or an object, so truthy. *)
Definition Object_prototype : list string :=
  [ "constructor"; "hasOwnProperty"; "isPrototypeOf"; "propertyIsEnumerable";
    "toLocaleString"; "toString"; "valueOf"; "__proto__";
    "__defineGetter__"; "__defineSetter__"; "__lookupGetter__"; "__lookupSetter__" ].

(** The truth value of [severityThresholds[severity] || false]: the
    object literal has four keys of its own, and the lookup of any other
    key goes on to the prototype. *)
Definition severityThresholds (severity : string) : bool :=
  if String.eqb severity "low" then false
  else if String.eqb severity "medium" then true
  else if String.eqb severity "high" then true
  else if String.eqb severity "critical" then true
  else existsb (String.eqb severity) Object_prototype.

Definition shouldSendNotification (alertType severity : string) : M World bool :=
  try_catch
    (let* settings := query SelectAlertAdministrators
                        (fun w => security_settings w !! "alert_administrators") in
     match settings with
     | None => ret false
     | Some setting_value =>
         if negb (String.eqb setting_value "true") then ret false
         else ret (severityThresholds severity)
     end)
    (fun _ => ret false).

Definition getAdministrators : M World (list User) :=
  try_catch
    (query SelectAdministrators
           (fun w => filter (fun u => is_admin u = true /\ is_active u = true) (users w)))
    (fun _ => ret []).

Definition getUserInfo (userId : Z) : M World (option User) :=
  try_catch
    (let* rows := query SelectUser (fun w => filter (fun u => user_id u = userId) (users w)) in
     ret (head rows))
    (fun _ => ret None).

Definition defaultTemplate : EmailTemplate :=
  {| subject := Some "安全警报：{alert_type}";
     body := Some "检测到用户 {username} 的异常登录行为" |}.

Definition getEmailTemplate `{Runtime} : M World EmailTemplate :=
  try_catch
    (let* templates := query SelectTemplate
                         (fun w => security_settings w !! "alert_email_template") in
     match templates with
     | Some setting_value =>
         match JSON_parse_template setting_value with
         | Ok template => ret template
         | Throw e => throw e
         end
     | None => ret defaultTemplate
     end)
    (fun _ => ret defaultTemplate).

Definition getAlertTypeDisplayName (alertType : string) : string :=
  if String.eqb alertType "login_anomaly" then "登录异常"
  else if String.eqb alertType "multiple_locations" then "多地登录"
  else if String.eqb alertType "suspicious_ip" then "可疑IP地址"
  else if String.eqb alertType "brute_force" then "暴力破解尝试"
  else if String.eqb alertType "new_device" then "新设备登录"
  else if String.eqb alertType "time_anomaly" then "异常时间登录"
  else if String.eqb alertType "concurrent_sessions" then "并发会话异常"
  else if String.eqb alertType "geographic_anomaly" then "地理位置异常"
  else if String.eqb alertType "ip_reputation" then "IP信誉异常"
  else if String.eqb alertType "login_frequency" then "登录频率异常"
  else alertType.

(** [x || 'Unknown'] for a string that may be missing or empty *)
Definition or_unknown (x : option string) : string :=
  match x with
  | Some s => if String.eqb s "" then "Unknown" else s
  | None => "Unknown"
  end.

(** [template.subject.replace] and [template.body.replace] are
    TypeErrors when the template lacks the key. *)
Definition prepareEmailContent (now : Z) (template : EmailTemplate)
    (a : QueuedAlert) (userInfo : option User) : Result EmailContent :=
  let variables :=
    {| v_alert_type := getAlertTypeDisplayName (alertType (alert a));
       v_username := or_unknown (username <$> userInfo);
       v_user_email := or_unknown (email <$> userInfo);
       v_severity := severity (alert a);
       v_title := title (alert a);
       v_description := description (alert a);
       v_timestamp := now;
       v_alert_data := data (alert a) |} in
  match subject template, body template with
  | Some subject, Some _ =>
      Ok {| subject_template := subject; variables := variables;
            content_alert := a; content_user := userInfo |}
  | _, _ => Throw TypeError
  end.

(** [await this.emailTransporter.sendMail(...)] *)
Definition sendMail (to : string) (content : EmailContent) : M World unit :=
  let* _ := modify (emit (SendMail to content)) in
  let* w := gets id in
  if sendMail_rejects w to then throw SendError else ret tt.

(** The loop over the administrators: each send in its own try/catch. *)
Fixpoint send_to_each (administrators : list User) (emailContent : EmailContent) : M World unit :=
  match administrators with
  | [] => ret tt
  | admin :: rest =>
      let* _ := try_catch (sendMail (email admin) emailContent) (fun _ => ret tt) in
      send_to_each rest emailContent
  end.

Definition sendEmailNotifications `{Runtime} (administrators : list User)
    (a : QueuedAlert) (userInfo : option User) : M World unit :=
  let* w := gets id in
  if negb (emailTransporter w) then ret tt
  else
    try_catch
      (let* template := getEmailTemplate in
       match prepareEmailContent (now w) template a userInfo with
       | Throw e => throw e
       | Ok emailContent => send_to_each administrators emailContent
       end)
      (fun _ => ret tt).

Definition sendNotifications `{Runtime} (a : QueuedAlert) : M World unit :=
  try_catch
    (let* administrators := getAdministrators in
     match administrators with
     | [] => ret tt
     | _ :: _ =>
         let* userInfo := getUserInfo (userId (alert a)) in
         sendEmailNotifications administrators a userInfo
     end)
    (fun _ => ret tt).

(** [await new Promise(resolve => setTimeout(resolve, ms))] *)
Definition sleep (ms : Z) : M World unit := modify (emit (Sleep ms)).

(** The [while (this.alertQueue.length > 0)] loop; [fuel] bounds the
    number of iterations. *)
Fixpoint drain `{Runtime} (fuel : nat) : M World unit :=
  match fuel with
  | O => ret tt
  | S fuel' =>
      let* w := gets id in
      match alertQueue w with
      | [] => ret tt
      | a :: rest =>
          let* _ := modify (set_alertQueue rest) in
          let* _ := sendNotifications a in
          let* _ := sleep 1000 in
          drain fuel'
      end
  end.

(** The worker awaited to its end. Nothing enqueues while it runs, so
    the length of the queue is fuel enough. *)
Definition processNotificationQueue `{Runtime} : M World unit :=
  let* w := gets id in
  if isProcessing w || (Z.of_nat (length (alertQueue w)) =? 0) then ret tt
  else
    let* _ := modify (set_isProcessing true) in
    let* _ := try_catch (drain (length (alertQueue w))) (fun _ => ret tt) in
    modify (set_isProcessing false).

(** The call [this.processNotificationQueue()] that is not awaited:
    what the worker does before its first [await] (the read of the
    administrators inside [sendNotifications]). It returns with the
    worker busy and holding the first alert of the queue. *)
Definition start_worker : M World unit :=
  let* w := gets id in
  if isProcessing w || (Z.of_nat (length (alertQueue w)) =? 0) then ret tt
  else
    let* _ := modify (set_isProcessing true) in
    match alertQueue w with
    | [] => ret tt
    | a :: rest => modify (fun w => set_inFlight (Some a) (set_alertQueue rest w))
    end.

(** The rest of a started worker, which the event loop runs once the
    caller has returned: the notification of the alert it holds, the
    pause, the remaining turns of the loop, and [finally]. An alert
    enqueued meanwhile is seen as enqueued before or after. *)
Definition resume_worker `{Runtime} : M World unit :=
  let* w := gets id in
  match inFlight w with
  | None => ret tt
  | Some a =>
      let* _ := modify (set_inFlight None) in
      let* _ := try_catch
                  (let* _ := sendNotifications a in
                   let* _ := sleep 1000 in
                   drain (length (alertQueue w)))
                  (fun _ => ret tt) in
      modify (set_isProcessing false)
  end.

Definition new_alert_row (now : Z) (alertData : AlertData) : AlertRow :=
  {| row_alert := alertData; is_resolved := false; resolved_by := None;
     resolved_at := None; resolution_notes := None; created_at := now |}.

(** The call of [processNotificationQueue] is not awaited: the worker
    is started, and the alert id is returned while it waits. *)
Definition createSecurityAlert `{Runtime} (alertData : AlertData) : M World Z :=
  try_catch
    (let* alertId := query InsertAlert (fun w => fresh (dom (security_alerts w))) in
     let* _ := modify (fun w => set_security_alerts
                                  (<[alertId := new_alert_row (now w) alertData]> (security_alerts w)) w) in
     let* shouldNotify := shouldSendNotification (alertType alertData) (severity alertData) in
     let* _ := if shouldNotify then
                 let* _ := modify (fun w => set_alertQueue
                                     (alertQueue w ++ [{| alertId := alertId; alert := alertData |}])%list w) in
                 start_worker
               else ret tt in
     ret alertId)
    (fun error => throw error).

Definition resolved_row (now : Z) (resolvedBy : Z) (resolutionNotes : option string)
    (row : AlertRow) : AlertRow :=
  {| row_alert := row_alert row; is_resolved := true; resolved_by := Some resolvedBy;
     resolved_at := Some now; resolution_notes := resolutionNotes;
     created_at := created_at row |}.

(** [UPDATE security_alerts SET is_resolved = TRUE, resolved_by = ?,
    resolved_at = NOW(), resolution_notes = ? WHERE id = ?] *)
Definition resolveAlert (alertId resolvedBy : Z) (resolutionNotes : option string) : M World unit :=
  try_catch
    (let* _ := query UpdateResolved (fun _ => tt) in
     modify (fun w => set_security_alerts
                        (alter (resolved_row (now w) resolvedBy resolutionNotes) alertId
                               (security_alerts w)) w))
    (fun error => throw error).

End Notify.

(** ** The route PATCH /alerts/:id/resolve *)

Module SecurityRoutes.

Import Notify.
Local Open Scope js_scope.

(** The status code of the response. *)
Inductive Response : Type :=
| Json (status : Z).

(** [body('resolution_notes').optional().trim().isLength({ max: 1000 })]:
    a field that is absent is left alone; one that is present is
    replaced by its trimmed text, which is then measured. The result is
    the field as the handler reads it, or [None] when the validation
    has an error. *)
Definition sanitize_notes `{Runtime} (resolution_notes : option string)
    : option (option string) :=
  match resolution_notes with
  | None => Some None
  | Some text =>
      let trimmed := validator_trim text in
      if validator_isLength_max 1000 trimmed then Some (Some trimmed) else None
  end.

(** The handler, after [authenticateToken] and [requireAdmin] let the
    request of the administrator [resolvedBy] through. [idValidation]
    wants an id of at least 1, the body validation notes of at most 1000
    characters once trimmed; [handleValidationErrors] answers 400 to
    what they reject. *)
Definition resolve_route `{Runtime} (alertId : Z) (resolution_notes : option string)
    (resolvedBy : Z) : M World Response :=
  if negb (1 <=? alertId) then ret (Json 400)
  else
    match sanitize_notes resolution_notes with
    | None => ret (Json 400)
    | Some resolution_notes =>
        try_catch
          (let* alerts := query SelectAlert (fun w => security_alerts w !! alertId) in
           match alerts with
           | None => ret (Json 404)
           | Some row =>
               if is_resolved row then ret (Json 400)
               else
                 let* _ := resolveAlert alertId resolvedBy resolution_notes in
                 ret (Json 200)
           end)
          (fun _ => ret (Json 500))
    end.

End SecurityRoutes.

(** ** The operations on the alert table *)

Module AlertOps.

Import Notify SecurityRoutes.

(** What the services and the route do to [security_alerts], the
    started worker going on, and the passing of time. *)
Inductive Op : Type :=
| CreateAlert (alertData : AlertData)
| ResolveService (alertId resolvedBy : Z) (resolutionNotes : option string)
| ResolveRoute (alertId : Z) (resolution_notes : option string) (resolvedBy : Z)
| WorkerResumes
| Tick (t : Z).

Definition step `{Runtime} (w : World) (op : Op) : World :=
  match op with
  | CreateAlert alertData => (createSecurityAlert alertData w).2
  | ResolveService alertId resolvedBy notes => (resolveAlert alertId resolvedBy notes w).2
  | ResolveRoute alertId notes resolvedBy => (resolve_route alertId notes resolvedBy w).2
  | WorkerResumes => (resume_worker w).2
  | Tick t => set_now t w
  end.

Definition steps `{Runtime} (w : World) (ops : list Op) : World :=
  fold_left step ops w.

End AlertOps.

(** ** GeoLocationService: cleanup and threat report *)

Module GeoMaintenance.
Import Geo.
Local Open Scope js_scope.

(** 30 days, in milliseconds *)
Definition retention : Z := 30 * 24 * 60 * 60 * 1000.

(** [last_updated < DATE_SUB(NOW(), INTERVAL 30 DAY)]; a comparison
    with NULL selects no row. *)
Definition expired (now : Z) (entry : LocationInfo) : bool :=
  match last_updated entry with
  | Some t => t <? now - retention
  | None => false
  end.

(** [cleanupCache]; [delete_fails] is whether the database rejects the
    DELETE. The number of rows deleted is only logged. *)
Definition cleanupCache (delete_fails : bool) : M World unit :=
  try_catch
    (if delete_fails then throw (QueryError "DELETE ip_geolocation_cache")
     else modify (fun w =>
            set_cache (filter (fun e : string * LocationInfo => expired (now w) e.2 = false)
                              (ip_geolocation_cache w)) w))
    (fun _ => ret tt).

(** What [getThreatIntelligence] returns: the location with its threat
    level replaced, and [threat_sources]; the default location of the
    catch branch has no [threat_sources]. *)
Record ThreatInfo : Type := {
  ti_location : LocationInfo;
  threat_sources : option (list string)
}.

Definition with_threat_level (level : string) (l : LocationInfo) : LocationInfo :=
  {| country := country l; region := region l; city := city l;
     latitude := latitude l; longitude := longitude l;
     timezone := timezone l; isp := isp l;
     is_proxy := is_proxy l; is_vpn := is_vpn l; is_tor := is_tor l;
     threat_level := Some level; last_updated := last_updated l |}.

Definition getThreatIntelligence `{Runtime} (ip : string) : M World ThreatInfo :=
  try_catch
    (let* location := getLocationInfo ip in
     let threatLevel :=
       if is_proxy location || is_vpn location || is_tor location then "medium" else "low" in
     ret {| ti_location := with_threat_level threatLevel location;
            threat_sources := Some [] |})
    (fun _ => ret {| ti_location := getDefaultLocationInfo; threat_sources := None |}).

End GeoMaintenance.

(** ** LoginAnomalyDetector: loading the rules, trusting a device *)

Module DetectorAdmin.
Import Geo Detector.
Local Open Scope js_scope.

(** A row of [login_risk_rules], as [loadRiskRules] reads it. *)
Record RuleRow : Type := {
  rule_name : string;
  row_rule_type : string;
  row_description : string;
  row_risk_score : Z;
  row_conditions : string;
  is_enabled : bool
}.

Definition set_riskRules (r : gmap string Rule) (w : World) : World :=
  {| geo := geo w; riskRules := r; user_login_logs := user_login_logs w;
     user_trusted_devices := user_trusted_devices w;
     security_settings := security_settings w; query_fails := query_fails w |}.

Definition set_user_trusted_devices (d : list TrustedDevice) (w : World) : World :=
  {| geo := geo w; riskRules := riskRules w; user_login_logs := user_login_logs w;
     user_trusted_devices := d;
     security_settings := security_settings w; query_fails := query_fails w |}.

Section Load.

(** [JSON.parse] of the conditions of a rule; invalid JSON is a
    SyntaxError. *)
Variable JSON_parse : string -> Result Conditions.

(** The value [this.riskRules.set] stores for a row. *)
Definition rule_of (rule : RuleRow) : Result Rule :=
  match JSON_parse (row_conditions rule) with
  | Ok c => Ok {| rule_type := row_rule_type rule;
                  rule_description := row_description rule;
                  rule_riskScore := row_risk_score rule;
                  conditions := c |}
  | Throw e => Throw e
  end.

(** The loop over the rows. *)
Fixpoint set_each (rules : list RuleRow) : M World unit :=
  match rules with
  | [] => ret tt
  | rule :: rest =>
      match rule_of rule with
      | Throw e => throw e
      | Ok r =>
          let* _ := modify (fun w => set_riskRules (<[rule_name rule := r]> (riskRules w)) w) in
          set_each rest
      end
  end.

(** [loadRiskRules]; [login_risk_rules] is the table, its rows in the
    order the database returns them, [select_fails] whether the
    database rejects the SELECT. *)
Definition loadRiskRules (select_fails : bool) (login_risk_rules : list RuleRow) : M World unit :=
  try_catch
    (if select_fails then throw (QueryError "SELECT login_risk_rules")
     else set_each (List.filter is_enabled login_risk_rules))
    (fun _ => ret tt).

(** The rows up to the first whose conditions do not parse. *)
Fixpoint well_formed_prefix (rules : list RuleRow) : list (string * Rule) :=
  match rules with
  | [] => []
  | rule :: rest =>
      match rule_of rule with
      | Ok r => (rule_name rule, r) :: well_formed_prefix rest
      | Throw _ => []
      end
  end.

End Load.

(** [this.riskRules.set(name, rule)] *)
Definition bind_rule (m : gmap string Rule) (b : string * Rule) : gmap string Rule :=
  <[b.1 := b.2]> m.

(** The last binding of a name. *)
Fixpoint last_binding (name : string) (bindings : list (string * Rule)) : option Rule :=
  match bindings with
  | [] => None
  | (n, r) :: rest =>
      match last_binding name rest with
      | Some r' => Some r'
      | None => if String.eqb n name then Some r else None
      end
  end.

(** The row of [INSERT INTO user_trusted_devices (user_id,
    device_fingerprint, device_name, device_type, browser, os,
    ip_address, location) VALUES (...)]; [last_used] is not among the
    columns. *)
Definition inserted_device (userId : Z) (deviceFingerprint : string)
    (deviceInfo : DeviceInfo) (ipAddress : string) (locationInfo : LocationInfo)
    : TrustedDevice :=
  {| td_user_id := userId; td_device_fingerprint := deviceFingerprint;
     td_device_name := browser deviceInfo +:+ " on " +:+ os deviceInfo;
     td_device_type := device_type deviceInfo;
     td_browser := browser deviceInfo; td_os := os deviceInfo;
     td_ip_address := ipAddress;
     td_location := (city locationInfo, country locationInfo);
     td_last_used := None |}.

(** [ON DUPLICATE KEY UPDATE last_used = CURRENT_TIMESTAMP, ip_address =
    VALUES(ip_address), location = VALUES(location)] on the row there is. *)
Definition updated_device (now : Z) (ipAddress : string) (locationInfo : LocationInfo)
    (d : TrustedDevice) : TrustedDevice :=
  {| td_user_id := td_user_id d; td_device_fingerprint := td_device_fingerprint d;
     td_device_name := td_device_name d; td_device_type := td_device_type d;
     td_browser := td_browser d; td_os := td_os d;
     td_ip_address := ipAddress;
     td_location := (city locationInfo, country locationInfo);
     td_last_used := Some now |}.

(** What ON DUPLICATE KEY UPDATE does to a row of the table: the row of
    the key is updated, any other is as it was. *)
Definition update_on_key (userId : Z) (deviceFingerprint : string) (now : Z)
    (ipAddress : string) (locationInfo : LocationInfo) (d : TrustedDevice) : TrustedDevice :=
  if bool_decide (td_user_id d = userId /\ td_device_fingerprint d = deviceFingerprint)
  then updated_device now ipAddress locationInfo d else d.

(** [addTrustedDevice]. The table definition is not among the sources:
    the key of ON DUPLICATE KEY is taken to be the user and the
    fingerprint, the pair the detector looks a device up by. A device
    that is not in the table gets a row; for one that is, the statement
    updates [last_used], [ip_address] and [location] of the row there
    is and inserts nothing. [insert_fails] is whether the database
    rejects the statement. *)
Definition addTrustedDevice `{Runtime} (insert_fails : bool) (userId : Z)
    (deviceInfo : DeviceInfo) (ipAddress : string) (locationInfo : LocationInfo) : M World unit :=
  try_catch
    (let deviceFingerprint := generateDeviceFingerprint deviceInfo ipAddress in
     if insert_fails then throw (QueryError "INSERT user_trusted_devices")
     else
       modify (fun w =>
         match known_devices w userId deviceFingerprint with
         | [] => set_user_trusted_devices
                   (user_trusted_devices w ++
                    [inserted_device userId deviceFingerprint deviceInfo ipAddress
                       locationInfo])%list w
         | _ :: _ =>
             set_user_trusted_devices
               (map (update_on_key userId deviceFingerprint (now (geo w)) ipAddress
                       locationInfo)
                    (user_trusted_devices w)) w
         end))
    (fun _ => ret tt).

End DetectorAdmin.

(** ** SecurityNotificationService: the alert of a login *)

Module LoginAlert.
Import Detector Notify.
Local Open Scope js_scope.

(** The severity [createLoginAnomalyAlert] gives a total. *)
Definition login_severity (totalRiskScore : Z) : string :=
  if 80 <=? totalRiskScore then "critical"
  else if 60 <=? totalRiskScore then "high"
  else if 40 <=? totalRiskScore then "medium"
  else "low".

Definition newline : string := String (ascii_of_nat 10) EmptyString.

Section Render.

Context `{rt : Runtime}.

(** The texts the alert is built from: [`${totalRiskScore}`], the
    reasons joined by line breaks, and [JSON.stringify] of the data
    object with its time stamp. *)
Variable show_number : Z -> string.
Variable join_reasons : list (option Reason) -> string.
Variable stringify : RiskAssessment -> Z -> string.

Definition createLoginAnomalyAlert (userId : Z) (anomalyData : RiskAssessment) : M World Z :=
  let severity := login_severity (totalRiskScore anomalyData) in
  let title := "检测到用户登录异常 (风险分数: " +:+ show_number (totalRiskScore anomalyData) +:+ ")" in
  let description :=
    "用户登录行为存在以下异常:" +:+ newline +:+ join_reasons (suspiciousReasons anomalyData) in
  let* w := gets id in
  createSecurityAlert
    {| userId := userId; alertType := "login_anomaly"; severity := severity;
       title := title; description := description;
       data := stringify anomalyData (now w) |}.

End Render.

End LoginAlert.

(** ** The route POST /login: the detection *)

Module LoginRoute.
Import Detector DetectorAdmin LoginAlert.
Local Open Scope js_scope.

(** The two services the handler of POST /login calls between the
    password check and the response, and its two variables
    [anomalyResult] and [shouldBlock]. *)
Record Session : Type := {
  detector : Detector.World;
  notifier : Notify.World;
  anomalyResult : option RiskAssessment;
  shouldBlock : bool
}.

Definition lift_detector {A : Type} (m : M Detector.World A) : M Session A :=
  fun s => let '(r, d) := m (detector s) in
           (r, {| detector := d; notifier := notifier s;
                  anomalyResult := anomalyResult s; shouldBlock := shouldBlock s |}).

Definition lift_notifier {A : Type} (m : M Notify.World A) : M Session A :=
  fun s => let '(r, n) := m (notifier s) in
           (r, {| detector := detector s; notifier := n;
                  anomalyResult := anomalyResult s; shouldBlock := shouldBlock s |}).

Definition set_anomalyResult (r : option RiskAssessment) (s : Session) : Session :=
  {| detector := detector s; notifier := notifier s;
     anomalyResult := r; shouldBlock := shouldBlock s |}.

Definition set_shouldBlock (b : bool) (s : Session) : Session :=
  {| detector := detector s; notifier := notifier s;
     anomalyResult := anomalyResult s; shouldBlock := b |}.

(** What the handler goes on to: the answer 403, or the session and the
    response of a login. *)
Inductive Decision : Type :=
| Blocked
| Continue.

Section Route.

Context `{rt : Runtime}.

Variable show_number : Z -> string.
Variable join_reasons : list (option Reason) -> string.
Variable stringify : RiskAssessment -> Z -> string.

(** Whether the database rejects the read of [auto_block_high_risk],
    and the statement of [addTrustedDevice]. *)
Variable settings_fails : bool.
Variable trust_fails : bool.

(** The rows of the read of [auto_block_high_risk]. *)
Definition autoBlockSettings : M Session (option string) :=
  fun s => if settings_fails then (Throw (QueryError "SELECT security_settings"), s)
           else (Ok (security_settings (detector s) !! "auto_block_high_risk"), s).

(** The [try] block of the detection and its [catch], which logs. *)
Definition detection (userId : Z) (loginData : LoginData) : M Session unit :=
  try_catch
    (let* r := lift_detector (detectAnomalies userId loginData) in
     let* _ := modify (set_anomalyResult (Some r)) in
     let* settings := autoBlockSettings in
     let autoBlock := match settings with
                      | Some setting_value => String.eqb setting_value "true"
                      | None => false
                      end in
     let* _ := if autoBlock && (80 <=? totalRiskScore r)
               then modify (set_shouldBlock true) else ret tt in
     let* _ := if isSuspicious r
               then let* _ := lift_notifier
                                (createLoginAnomalyAlert show_number join_reasons stringify
                                   userId r) in
                    ret tt
               else ret tt in
     if totalRiskScore r <? 30
     then lift_detector (addTrustedDevice trust_fails userId (deviceInfo r)
                           (ip_address loginData) (locationInfo r))
     else ret tt)
    (fun _ => ret tt).

(** From the declaration of the two variables to [if (shouldBlock)]. *)
Definition login_decision (userId : Z) (loginData : LoginData) : M Session Decision :=
  let* _ := modify (fun s => set_shouldBlock false (set_anomalyResult None s)) in
  let* _ := detection userId loginData in
  let* s := gets id in
  ret (if shouldBlock s then Blocked else Continue).

End Route.

End LoginRoute.

(** ** A runtime to evaluate scenarios with *)

Module Sample.

Definition poly_sin (x : float) : float :=
  let x2 := PrimFloat.mul x x in
  PrimFloat.mul x
    (PrimFloat.sub 1%float
       (PrimFloat.mul (PrimFloat.div x2 6%float)
          (PrimFloat.sub 1%float (PrimFloat.div x2 20%float)))).

Definition poly_cos (x : float) : float :=
  let x2 := PrimFloat.mul x x in
  PrimFloat.sub 1%float
    (PrimFloat.mul (PrimFloat.div x2 2%float)
       (PrimFloat.sub 1%float (PrimFloat.div x2 12%float))).

Definition approx_atan (t : float) : float :=
  PrimFloat.div t (PrimFloat.add 1%float (PrimFloat.mul 0.25%float (PrimFloat.mul t t))).

Definition approx_atan2 (y x : float) : float :=
  if PrimFloat.leb (PrimFloat.abs y) (PrimFloat.abs x) then
    if PrimFloat.eqb x 0%float then 0%float
    else if PrimFloat.ltb x 0%float then
      if PrimFloat.leb 0%float y
      then PrimFloat.add (approx_atan (PrimFloat.div y x)) Math_PI
      else PrimFloat.sub (approx_atan (PrimFloat.div y x)) Math_PI
    else approx_atan (PrimFloat.div y x)
  else
    let half_pi := PrimFloat.div Math_PI 2%float in
    if PrimFloat.ltb 0%float y
    then PrimFloat.sub half_pi (approx_atan (PrimFloat.div x y))
    else PrimFloat.sub (PrimFloat.opp half_pi) (approx_atan (PrimFloat.div x y)).

Definition digit_value (c : ascii) : option Z :=
  let n := Z.of_N (N_of_ascii c) in
  if (48 <=? n) && (n <=? 57) then Some (n - 48) else None.

(** The decimal digits a string starts with. *)
Fixpoint leading_digits (s : string) (acc : option Z) : option Z :=
  match s with
  | EmptyString => acc
  | String c s' =>
      match digit_value c with
      | Some d => leading_digits s' (Some (10 * default 0 acc + d))
      | None => acc
      end
  end.

Definition decimal_parseInt (s : string) : option Z :=
  match s with
  | String "-"%char s' => Z.opp <$> leading_digits s' None
  | _ => leading_digits s None
  end.

(** Integers only: enough for the examples. *)
Definition decimal_parseFloat (s : string) : float :=
  match decimal_parseInt s with
  | Some z => float_of_Z z
  | None => PrimFloat.nan
  end.

(** Every agent string is read as one desktop browser. *)
Definition fixed_agent (ua : string) : UAResult :=
  {| ua_device_type := None;
     ua_browser_name := Some "Chrome"; ua_browser_version := Some "120.0";
     ua_os_name := Some "Linux"; ua_os_version := None |}.

(** UTC is the one zone known. *)
Definition utc_hour (now : Z) (zone : string) : Result Z :=
  if String.eqb zone "UTC" then Ok ((now / 3600000) mod 24) else Throw TypeError.

(** The empty object is the one JSON text read. *)
Definition parse_empty_object (s : string) : Result EmailTemplate :=
  if String.eqb s "{}" then Ok {| subject := None; body := None |} else Throw SyntaxError.

(** The text without the spaces around it. *)
Fixpoint drop_spaces (s : string) : string :=
  match s with
  | String " "%char s' => drop_spaces s'
  | _ => s
  end.

Fixpoint drop_trailing_spaces (s : string) : string :=
  match s with
  | EmptyString => EmptyString
  | String c s' =>
      match drop_trailing_spaces s' with
      | EmptyString => if Ascii.eqb c " "%char then EmptyString else String c EmptyString
      | rest => String c rest
      end
  end.

Definition trim_spaces (s : string) : string := drop_trailing_spaces (drop_spaces s).

(** A character is a byte: enough for the examples. *)
Definition at_most (max : Z) (s : string) : bool := Z.of_nat (String.length s) <=? max.

(** Stands in for the digest: the text itself, tagged. *)
Definition tagged_digest (s : string) : string := "sha256:" +:+ s.

#[export] Instance runtime : Runtime :=
  {| Math_sin := poly_sin;
     Math_cos := poly_cos;
     Math_atan2 := approx_atan2;
     parseFloat := decimal_parseFloat;
     parseInt := decimal_parseInt;
     sha256_hex := tagged_digest;
     UAParser := fixed_agent;
     hour_in_timezone := utc_hour;
     JSON_parse_template := parse_empty_object;
     validator_trim := trim_spaces;
     validator_isLength_max := at_most |}.

End Sample.

(** ** The vocabulary of the properties *)

(** A static analysis of patterns: may a word of the pattern hold a
    character twice in a row? *)
Module RegexAnalysis.

Import Regex.

Section Doubles.

Variable c : ascii.

(** The word holds [c] twice in a row. *)
Fixpoint has_double (s : list ascii) : bool :=
  match s with
  | [] => false
  | x :: t =>
      match t with
      | [] => false
      | y :: _ => (Ascii.eqb x c && Ascii.eqb y c) || has_double t
      end
  end.

Definition starts_with (s : list ascii) : bool :=
  match s with
  | [] => false
  | x :: _ => Ascii.eqb x c
  end.

Fixpoint ends_with (s : list ascii) : bool :=
  match s with
  | [] => false
  | x :: t =>
      match t with
      | [] => Ascii.eqb x c
      | _ :: _ => ends_with t
      end
  end.

(** Over-approximations for the words of a pattern. *)
Fixpoint may_start (r : re) : bool :=
  match r with
  | Void => false
  | Eps => false
  | Chr c' => Ascii.eqb c' c
  | Rng lo hi => in_range lo hi c
  | Cat r1 r2 => may_start r1 || (nullable r1 && may_start r2)
  | Alt r1 r2 => may_start r1 || may_start r2
  end.

Fixpoint may_end (r : re) : bool :=
  match r with
  | Void => false
  | Eps => false
  | Chr c' => Ascii.eqb c' c
  | Rng lo hi => in_range lo hi c
  | Cat r1 r2 => may_end r2 || (nullable r2 && may_end r1)
  | Alt r1 r2 => may_end r1 || may_end r2
  end.

Fixpoint may_double (r : re) : bool :=
  match r with
  | Void => false
  | Eps => false
  | Chr _ => false
  | Rng _ _ => false
  | Cat r1 r2 => may_double r1 || may_double r2 || (may_end r1 && may_start r2)
  | Alt r1 r2 => may_double r1 || may_double r2
  end.

End Doubles.

End RegexAnalysis.

Module GeoSpec.

Import Geo.

(** The entry was written less than 24 hours before [now]. *)
Definition younger_than_24h (now : Z) (entry : LocationInfo) : Prop :=
  exists t, last_updated entry = Some t /\ now - t < maxAge.

(** The entry was written at least 24 hours before [now] (an entry
    without a time of writing counts as such). *)
Definition at_least_24h_old (now : Z) (entry : LocationInfo) : Prop :=
  forall t, last_updated entry = Some t -> maxAge <= now - t.

(** Every address the cache table holds passes the address checks. *)
Definition cache_wf (w : World) : Prop :=
  forall ip entry,
    ip_geolocation_cache w !! ip = Some entry ->
    isValidIP ip = true /\ isPrivateIP ip = false.

(** The events a call adds to the trace. *)
Definition is_upstream_call (e : Event) : bool :=
  match e with
  | HttpGet _ _ => true
  | _ => false
  end.

Definition upstream_calls (evs : list Event) : nat :=
  length (List.filter is_upstream_call evs).

(** The beginnings of the private, loopback and link-local addresses
    the patterns of [privateRanges] spell out. *)
Definition private_prefixes : list string :=
  [ "10."; "172.16."; "172.17."; "172.18."; "172.19."; "172.20."; "172.21.";
    "172.22."; "172.23."; "172.24."; "172.25."; "172.26."; "172.27.";
    "172.28."; "172.29."; "172.30."; "172.31."; "192.168."; "127.";
    "169.254."; "fc00:"; "fe80:" ].

End GeoSpec.

Module DetectorSpec.

Import Geo Detector.

(** The fingerprints of the trusted devices of a user. *)
Definition trusted_fingerprints (w : World) (userId : Z) : list string :=
  map td_device_fingerprint
    (filter (fun d => td_user_id d = userId) (user_trusted_devices w)).

(** The check's factors, as the rule table of the specification lists
    them. *)
Definition any_factor (l : LocationInfo) : Prop :=
  is_proxy l = true \/ is_vpn l = true \/ is_tor l = true
  \/ threat_level l = Some "high" \/ threat_level l = Some "medium".

Definition factor_sum (l : LocationInfo) : Z :=
  (if is_proxy l then 20 else 0)
  + (if is_vpn l then 15 else 0)
  + (if is_tor l then 30 else 0)
  + (if bool_decide (threat_level l = Some "high") then 25
     else if bool_decide (threat_level l = Some "medium") then 15 else 0).

Section WithRuntime.

Context `{rt : Runtime}.

(** The threshold of the specification (`is_suspicious` = total >= 50,
    externally configurable): the value of the security setting
    [high_risk_threshold] the administration console edits, 50 when the
    setting is absent or not a number. *)
Definition configured_threshold (w : World) : Z :=
  match security_settings w !! "high_risk_threshold" with
  | Some v => default 50 (parseInt v)
  | None => 50
  end.

(** The world the checks run in: the one the geolocation lookup leaves. *)
Definition after_geo (w : World) (loginData : LoginData) : World :=
  (lift_geo (getLocationInfo (ip_address loginData)) w).2.

(** The total is the sum over the six checks of what each contributes,
    the anomalies are the checks that triggered, in order, and the total
    is the sum of their scores. *)
Definition scores_add_up (w1 : World) (userId : Z) (loginData : LoginData) (r : RiskAssessment) : Prop :=
  let checks := run_checks w1 userId loginData (locationInfo r) (deviceInfo r) in
  anomalies r = List.filter isAnomalous checks
  /\ totalRiskScore r = sum_scores (map contribution checks)
  /\ totalRiskScore r = sum_scores (map riskScore (anomalies r)).

End WithRuntime.

End DetectorSpec.

Module NotifySpec.

Import Notify.

(** The world with more events on its trace. *)
Definition extend (evs : list Event) (w : World) : World :=
  {| now := now w; emailTransporter := emailTransporter w;
     alertQueue := alertQueue w; isProcessing := isProcessing w;
     inFlight := inFlight w;
     security_alerts := security_alerts w; security_settings := security_settings w;
     users := users w; query_fails := query_fails w;
     sendMail_rejects := sendMail_rejects w; trace := (trace w ++ evs)%list |}.

(** The active administrators. *)
Definition administrators (w : World) : list User :=
  filter (fun u => is_admin u = true /\ is_active u = true) (users w).

(** The user row [getUserInfo] returns. *)
Definition user_info (w : World) (userId : Z) : option User :=
  if query_fails w SelectUser then None
  else head (filter (fun u => user_id u = userId) (users w)).

(** The recipients of the send calls of a trace, in order. *)
Definition recipients (evs : list Event) : list string :=
  omap (fun e => match e with SendMail to _ => Some to | Sleep _ => None end) evs.

(** The time the pauses of a trace add up to, in milliseconds: a lower
    bound of the time the trace takes. *)
Definition elapsed (evs : list Event) : Z :=
  fold_right (fun e acc => match e with
                           | Sleep ms => ms + acc
                           | SendMail _ _ => acc
                           end) 0 evs.

Section WithRuntime.

Context `{rt : Runtime}.

(** The template [getEmailTemplate] returns. *)
Definition current_template (w : World) : EmailTemplate :=
  if query_fails w SelectTemplate then defaultTemplate
  else match security_settings w !! "alert_email_template" with
       | Some setting_value => or_else (JSON_parse_template setting_value) defaultTemplate
       | None => defaultTemplate
       end.

(** The template in force has a subject and a body. *)
Definition usable_template (w : World) : Prop :=
  is_Some (subject (current_template w)) /\ is_Some (body (current_template w)).

(** The message an alert is delivered as. *)
Definition email_for (w : World) (a : QueuedAlert) : EmailContent :=
  or_else (prepareEmailContent (now w) (current_template w) a (user_info w (userId (alert a))))
          {| subject_template := ""; 
             variables := {| v_alert_type := ""; v_username := ""; v_user_email := "";
                             v_severity := ""; v_title := ""; v_description := "";
                             v_timestamp := 0; v_alert_data := "" |};
             content_alert := a; content_user := None |}.

(** The send calls of one alert: one per administrator, in the order of
    the administrators. *)
Definition sends (w : World) (a : QueuedAlert) : list Event :=
  map (fun admin => SendMail (email admin) (email_for w a)) (administrators w).

(** The deliveries of a queue: alert after alert, each followed by the
    pause of one second. *)
Definition deliveries (w : World) (queue : list QueuedAlert) : list Event :=
  concat (map (fun a => sends w a ++ [Sleep 1000])%list queue).

End WithRuntime.

End NotifySpec.

Module AlertSpec.

Import Notify AlertOps.

(** The alert is in the table, resolved. *)
Definition resolved_in (w : World) (alertId : Z) : Prop :=
  exists row, security_alerts w !! alertId = Some row /\ is_resolved row = true.

(** The operations a client reaches: the service's [resolveAlert] is
    called by the route only. *)
Definition exposed (op : Op) : Prop :=
  match op with
  | ResolveService _ _ _ => False
  | _ => True
  end.

(** The request passes the validators of the route: the id is at least
    1, and the notes, when there are any, have at most 1000 characters
    once trimmed. *)
Definition valid_request `{Runtime} (alertId : Z) (resolution_notes : option string) : Prop :=
  1 <= alertId
  /\ forall text, resolution_notes = Some text ->
                  validator_isLength_max 1000 (validator_trim text) = true.

(** The notes the route stores: those of the request, trimmed. *)
Definition stored_notes `{Runtime} (resolution_notes : option string) : option string :=
  match resolution_notes with
  | Some text => Some (validator_trim text)
  | None => None
  end.

End AlertSpec.

(** ** Scenarios *)

Module Scenario.

Import Geo.

(** What the provider answers for any address. *)
Definition upstream_answer : ApiData :=
  {| d_status := Some "success"; d_country := Some "Germany";
     d_regionName := Some "Berlin"; d_region := None; d_city := Some "Berlin";
     d_lat := Some 52.5%float; d_lon := Some 13.5%float; d_loc := None;
     d_timezone := Some "UTC"; d_isp := Some "Example Net"; d_org := None;
     d_proxy := false |}.

(** A service that has resolved nothing yet. *)
Definition cold_geo : World :=
  {| now := 1700000000000; currentProvider := "ipapi";
     ip_geolocation_cache := ∅; rateLimitCounter := ∅;
     select_fails := false; upsert_fails := false;
     axios_get := fun _ _ => Some upstream_answer; trace := [] |}.

(** An entry written one hour before the clock of [cold_geo]. *)
Definition cached_entry : LocationInfo :=
  {| country := Some "United States"; region := Some "California";
     city := Some "Mountain View";
     latitude := Some 37.5%float; longitude := Some (-122)%float;
     timezone := Some "UTC"; isp := Some "Example DNS";
     is_proxy := false; is_vpn := false; is_tor := false;
     threat_level := Some "low"; last_updated := Some (1700000000000 - 3600000) |}.

Definition warm_geo : World :=
  set_cache {[ "8.8.8.8" := cached_entry ]} cold_geo.

End Scenario.

(** A login from a private address, 5 sessions of the same user from
    that address in the last minutes, and the frequency rule. *)
Module DetectorScenario.

Import Geo Detector.

Definition login : LoginData :=
  {| ip_address := "10.0.0.8"; user_agent := "Mozilla/5.0"; session_token_hash := "5f4dcc3b" |}.

Definition desktop : DeviceInfo :=
  {| device_type := "desktop"; browser := "Chrome 120.0"; os := "Linux undefined" |}.

Definition session (minutes_ago : Z) : LoginLog :=
  {| log_user_id := 7; log_session_token_hash := "5f4dcc3b";
     log_ip_address := "10.0.0.8"; log_user_agent := "Mozilla/5.0";
     log_location := getDefaultLocationInfo; log_device := desktop;
     log_risk_score := 0; log_is_suspicious := false; log_suspicious_reasons := None;
     log_login_time := 1700000000000 - minutes minutes_ago; log_is_active := true |}.

Definition frequency_rule (score : Z) : Rule :=
  {| rule_type := "frequency"; rule_description := "frequent attempts";
     rule_riskScore := score;
     conditions := {| max_distance_km := None; time_window_hours := None;
                      time_window_minutes := Some 30; max_attempts := Some 5;
                      normal_hours := None |} |}.

Definition busy_world (frequency_score : Z) (insert_fails : bool) : World :=
  {| geo := Scenario.cold_geo;
     riskRules := {[ "频繁登录尝试" := frequency_rule frequency_score ]};
     user_login_logs := map session [1; 2; 3; 4; 5];
     user_trusted_devices := [];
     security_settings := {[ "high_risk_threshold" := "70" ]};
     query_fails := fun q => match q with
                             | InsertLoginLog => insert_fails
                             | _ => false
                             end |}.

(** The rules for the device and the address checks, and one trusted
    device of user 7. *)
Definition device_rule : Rule :=
  {| rule_type := "device"; rule_description := "new device";
     rule_riskScore := 15;
     conditions := {| max_distance_km := None; time_window_hours := None;
                      time_window_minutes := None; max_attempts := None;
                      normal_hours := None |} |}.

Definition reputation_rule : Rule :=
  {| rule_type := "ip_reputation"; rule_description := "suspicious address";
     rule_riskScore := 30;
     conditions := {| max_distance_km := None; time_window_hours := None;
                      time_window_minutes := None; max_attempts := None;
                      normal_hours := None |} |}.

Definition guarded_world : World :=
  {| geo := Scenario.cold_geo;
     riskRules := {[ "新设备登录" := device_rule; "可疑IP地址" := reputation_rule ]};
     user_login_logs := [];
     user_trusted_devices :=
       [ {| td_user_id := 7; td_device_fingerprint := "sha256:known";
            td_device_name := "Firefox 121.0 on Windows 10"; td_device_type := "desktop";
            td_browser := "Firefox 121.0"; td_os := "Windows 10";
            td_ip_address := "198.51.100.4"; td_location := (Some "Lyon", Some "France");
            td_last_used := None |} ];
     security_settings := ∅;
     query_fails := fun _ => false |}.

(** A Tor exit node the provider rates as a high threat. *)
Definition tor_exit : LocationInfo :=
  {| country := Some "Unknown"; region := None; city := None;
     latitude := None; longitude := None; timezone := None; isp := None;
     is_proxy := false; is_vpn := false; is_tor := true;
     threat_level := Some "high"; last_updated := None |}.

End DetectorScenario.

(** Three administrators, a user, two alerts waiting. The relay rejects
    the second administrator. *)
Module NotifyScenario.

Import Notify.

Definition admin (id : Z) (name : string) : User :=
  {| user_id := id; username := name; email := name +:+ "@example.com";
     is_admin := true; is_active := true; user_created_at := 1600000000000 |}.

Definition dave : User :=
  {| user_id := 7; username := "dave"; email := "dave@example.com";
     is_admin := false; is_active := true; user_created_at := 1600000000000 |}.

Definition intrusion : AlertData :=
  {| userId := 7; alertType := "login_anomaly"; severity := "high";
     title := "Suspicious login"; description := "Login from a new country";
     data := "{}" |}.

Definition office (transporter : bool) : World :=
  {| now := 1700000000000; emailTransporter := transporter;
     alertQueue := [ {| alertId := 1; alert := intrusion |};
                     {| alertId := 2; alert := intrusion |} ];
     isProcessing := false;
     inFlight := None;
     security_alerts := {[ 1 := new_alert_row 1699999999000 intrusion;
                           2 := new_alert_row 1699999999500 intrusion ]};
     security_settings := {[ "alert_administrators" := "true" ]};
     users := [ admin 1 "alice"; admin 2 "bob"; admin 3 "carol"; dave ];
     query_fails := fun _ => false;
     sendMail_rejects := fun to => String.eqb to "bob@example.com";
     trace := [] |}.

End NotifyScenario.

(** ** More vocabulary: the request budget, addresses, verdicts *)

Module GeoBudget.
Import Geo GeoSpec.

(** The start of the window of one minute. *)
Definition windowStart (w : World) : Z := now w - 60000.

(** The requests the limiter counts at the time of [w]. *)
Definition requests_in_window (w : World) : Z :=
  count_requests (windowStart w) (rateLimitCounter w).

(** The limit of the provider in use; no provider, no budget. *)
Definition request_limit (w : World) : Z :=
  match providers (currentProvider w) with
  | Some provider => rateLimit provider
  | None => 0
  end.

(** The lookup has to ask upstream: no usable cache row. *)
Definition cache_miss (w : World) (ip : string) : Prop :=
  select_fails w = true
  \/ match ip_geolocation_cache w !! ip with
     | Some entry => isCacheValid (now w) entry = false
     | None => True
     end.

(** One step of the count of [checkRateLimit]. *)
Definition step_count (ws : Z) (timestamp count acc : Z) : Z :=
  if ws <=? timestamp then acc + count else acc.

(** The clock moves on. *)
Definition advance (dt : Z) (w : World) : World :=
  {| now := now w + dt; currentProvider := currentProvider w;
     ip_geolocation_cache := ip_geolocation_cache w;
     rateLimitCounter := rateLimitCounter w;
     select_fails := select_fails w; upsert_fails := upsert_fails w;
     axios_get := axios_get w; trace := trace w |}.

End GeoBudget.

Module GeoSpec2.
Import Geo GeoSpec.

(** What the service itself ever writes: no VPN or Tor flag, and a
    threat level that follows the proxy flag. *)
Definition plain (l : LocationInfo) : Prop :=
  is_vpn l = false /\ is_tor l = false
  /\ threat_level l = Some (if is_proxy l then "medium" else "low").

Definition cache_plain (w : World) : Prop :=
  forall ip entry, ip_geolocation_cache w !! ip = Some entry -> plain entry.

End GeoSpec2.

Module AddressSpec.
Import Regex Geo.

(** The decimal digit of a number below 10. *)
Definition digit_char (n : Z) : ascii := ascii_of_N (48 + Z.to_N n).

(** The decimal numeral of a byte, without leading zeros. *)
Definition decimal (n : Z) : string :=
  if n <? 10 then String (digit_char n) ""
  else if n <? 100 then String (digit_char (n / 10)) (String (digit_char (n mod 10)) "")
  else String (digit_char (n / 100))
         (String (digit_char (n / 10 mod 10)) (String (digit_char (n mod 10)) "")).

(** The dotted quad of four bytes. *)
Definition dotted (a b c d : Z) : string :=
  decimal a +:+ "." +:+ decimal b +:+ "." +:+ decimal c +:+ "." +:+ decimal d.

Definition is_byte (n : Z) : Prop := 0 <= n < 256.

(** The blocks the patterns of [privateRanges] spell out for IPv4:
    10/8, 172.16/12, 192.168/16, 127/8 and 169.254/16. *)
Definition private_v4 (a b : Z) : bool :=
  (a =? 10) || ((a =? 172) && (16 <=? b) && (b <=? 31))
  || ((a =? 192) && (b =? 168)) || (a =? 127) || ((a =? 169) && (b =? 254)).

(** The pattern left after reading a word. *)
Definition derivs (r : re) (s : list ascii) : re :=
  fold_left (fun r c => deriv c r) s r.

(** A pattern no word matches, by its shape. *)
Fixpoint dead (r : re) : bool :=
  match r with
  | Void => true
  | Eps | Chr _ | Rng _ _ => false
  | Cat r1 r2 => dead r1 || dead r2
  | Alt r1 r2 => dead r1 && dead r2
  end.

(** What the beginning of an input settles about a pattern of
    [privateRanges]: it matches already, or can no longer match. *)
Definition settled (p : Pattern) (start : list ascii) : option bool :=
  match p with
  | Prefix r =>
      if matches_prefix r start then Some true
      else if dead (derivs r start) then Some false else None
  | Whole r => if dead (derivs r start) then Some false else None
  end.

(** The same for a list of patterns tried in turn: settled when each
    pattern is. *)
Fixpoint settled_some (ps : list Pattern) (start : list ascii) : option bool :=
  match ps with
  | [] => Some false
  | p :: ps' =>
      match settled p start, settled_some ps' start with
      | Some b, Some b' => Some (b || b')
      | _, _ => None
      end
  end.

(** The first two bytes of a dotted quad, with their dots. *)
Definition network (a b : Z) : string := decimal a +:+ "." +:+ decimal b +:+ ".".

Definition bytes : list Z := seqZ 0 256.

(** What the tables of the proofs check, byte by byte. *)
Definition octet_ok (n : Z) : bool :=
  matches octet (list_ascii_of_string (decimal n)).

Definition network_ok (a b : Z) : bool :=
  match settled_some privateRanges (list_ascii_of_string (network a b)) with
  | Some v => Bool.eqb v (private_v4 a b)
  | None => false
  end.

End AddressSpec.

Module VerdictSpec.
Import Geo Detector.

(** The most a rule can add to a total: its score, when it is loaded
    and positive. *)
Definition rule_cap (w : World) (rule_name : string) : Z :=
  match riskRules w !! rule_name with
  | Some rule => Z.max 0 (rule_riskScore rule)
  | None => 0
  end.

(** The names of the five rules the checks read. *)
Definition rule_names : list string :=
  [ "异常地理位置"; "可疑IP地址"; "频繁登录尝试"; "新设备登录"; "异常时间登录" ].

(** A check did not trigger, or triggered with the given score. *)
Definition scores (a : CheckResult) (score : Z) : Prop :=
  a = notAnomalous \/ (isAnomalous a = true /\ riskScore a = score).

End VerdictSpec.

Module ChecksSpec.
Import Geo Detector.

(** The logins of a user in the last 30 days at an hour of the day. *)
Definition logins_at_hour (w : World) (userId : Z) (h : Z) : Z :=
  Z.of_nat (length (filter (fun l => log_user_id l = userId
                                     /\ now (geo w) - days 30 <= log_login_time l
                                     /\ HOUR (log_login_time l) = h)
                           (user_login_logs w))).

(** An hour at which the user logged in at least 3 times in the last
    30 days. *)
Definition habitual (w : World) (userId : Z) (h : Z) : Prop :=
  0 <= h < 24 /\ 3 <= logins_at_hour w userId h.

(** The hours between an earlier login and now, as the check computes
    them. *)
Definition hours_since (w : World) (login : LoginLog) : float :=
  PrimFloat.div
    (PrimFloat.div (float_of_Z (now (geo w) - log_login_time login)) 1000%float)
    3600%float.

(** The limit of the session check: the setting, 5 without one. *)
Definition session_limit `{Runtime} (w : World) : option Z :=
  match security_settings w !! "max_concurrent_sessions" with
  | Some setting_value => parseInt setting_value
  | None => Some 5
  end.

End ChecksSpec.

Module NotifySpec2.
Import Notify NotifySpec.

(** The administrators are to be notified: the setting can be read and
    is the text "true". *)
Definition notifications_enabled (w : World) : bool :=
  negb (query_fails w SelectAlertAdministrators)
  && bool_decide (security_settings w !! "alert_administrators" = Some "true").

(** The severities that are notified. *)
Definition notified_severities : list string := [ "medium"; "high"; "critical" ].

End NotifySpec2.

(** ** More scenarios *)

Module BudgetScenario.
Import Geo Scenario.

(** The 45 requests of the minute are spent. *)
Definition spent_geo : World :=
  set_rateLimitCounter {[ 1700000000000 / 60000 * 60000 := 45 ]} cold_geo.

(** The provider does not answer. *)
Definition silent_geo : World :=
  {| now := 1700000000000; currentProvider := "ipapi";
     ip_geolocation_cache := ∅; rateLimitCounter := ∅;
     select_fails := false; upsert_fails := false;
     axios_get := fun _ _ => None; trace := [] |}.

(** A row some other writer left in the cache: no flag, rated high. *)
Definition rated_high : LocationInfo :=
  {| country := Some "Unknown"; region := None; city := None;
     latitude := None; longitude := None; timezone := None; isp := None;
     is_proxy := false; is_vpn := false; is_tor := false;
     threat_level := Some "high"; last_updated := Some (1700000000000 - 3600000) |}.

Definition rated_geo : World := set_cache {[ "8.8.4.4" := rated_high ]} cold_geo.

(** An entry written 40 days before the clock of [warm_geo], beside
    the one written an hour before. *)
Definition old_entry : LocationInfo := cache_row (1700000000000 - 40 * 86400000) cached_entry.

Definition mixed_geo : World :=
  set_cache (<[ "1.1.1.1" := old_entry ]> {[ "8.8.8.8" := cached_entry ]}) cold_geo.

End BudgetScenario.

Module VerdictScenario.
Import Geo Detector DetectorScenario.

(** The detector before any rule is loaded, the user with 5 sessions. *)
Definition bare_world : World :=
  {| geo := Scenario.cold_geo;
     riskRules := ∅;
     user_login_logs := map session [1; 2; 3; 4; 5];
     user_trusted_devices := [];
     security_settings := ∅;
     query_fails := fun _ => false |}.

End VerdictScenario.

Module ChecksScenario.
Import Geo Detector DetectorScenario.

(** The rule of the time check, with the hours of an office. *)
Definition hours_rule : Rule :=
  {| rule_type := "time"; rule_description := "unusual hour";
     rule_riskScore := 10;
     conditions := {| max_distance_km := None; time_window_hours := None;
                      time_window_minutes := None; max_attempts := None;
                      normal_hours := Some [9; 10; 11; 12; 13; 14; 15; 16; 17] |} |}.

(** The clock of the scenarios reads 22:13 UTC; the user has no login
    on record. *)
Definition night_world : World :=
  {| geo := Scenario.cold_geo;
     riskRules := {[ "异常时间登录" := hours_rule ]};
     user_login_logs := [];
     user_trusted_devices := [];
     security_settings := ∅;
     query_fails := fun _ => false |}.

End ChecksScenario.

Module AdminScenario.
Import Geo Detector DetectorScenario DetectorAdmin.

(** The empty object is the one JSON text read. *)
Definition parse_conditions (s : string) : Result Conditions :=
  if String.eqb s "{}" then
    Ok {| max_distance_km := None; time_window_hours := None;
          time_window_minutes := None; max_attempts := None; normal_hours := None |}
  else Throw SyntaxError.

Definition row (name conditions : string) (score : Z) : RuleRow :=
  {| rule_name := name; row_rule_type := "rule"; row_description := name;
     row_risk_score := score; row_conditions := conditions; is_enabled := true |}.

(** Three enabled rules; the conditions of the second are cut short. *)
Definition rule_table : list RuleRow :=
  [ row "新设备登录" "{}" 15; row "频繁登录尝试" "{" 25; row "可疑IP地址" "{}" 30 ].

End AdminScenario.

Module MailScenario.
Import Notify NotifyScenario.

(** The office of the notification scenario with nothing waiting, and
    the same with notifications switched off. *)
Definition quiet_office (transporter : bool) : World :=
  set_alertQueue [] (office transporter).

(** The service as its constructor leaves it, in the office;
    [createTransport] is what the factory of the library would do. *)
Definition constructed_office (createTransport : Result unit) : World :=
  (constructor createTransport (office true)).2.

(** An assessment with a total of 85 and no detail. *)
Definition grave : Detector.RiskAssessment :=
  {| Detector.totalRiskScore := 85; Detector.isSuspicious := true;
     Detector.anomalies := []; Detector.suspiciousReasons := [];
     Detector.locationInfo := Geo.getDefaultLocationInfo;
     Detector.deviceInfo := DetectorScenario.desktop |}.

End MailScenario.

Module RouteScenario.
Import Detector DetectorScenario NotifyScenario MailScenario LoginRoute.

(** A session of the handler over the detector with the frequency rule
    and the office with nothing waiting. *)
Definition at_the_door (frequency_score : Z) (insert_fails : bool) : Session :=
  {| detector := busy_world frequency_score insert_fails;
     notifier := quiet_office false;
     anomalyResult := None; shouldBlock := false |}.

Definition no_text {A : Type} (x : A) : string := "".

End RouteScenario.

(** * Properties *)

(** ** The matcher decides the language of a pattern *)

Module RegexFacts.

Import Regex RegexAnalysis.

Ltac invert H := inversion H; subst; clear H.

Ltac split_app :=
  match goal with
  | H : (?a ++ ?b)%list = [] |- _ => apply app_eq_nil in H as [-> ->]
  | H : [] = (?a ++ ?b)%list |- _ => symmetry in H; apply app_eq_nil in H as [-> ->]
  end.

Lemma nullable_lang (r : re) : nullable r = true <-> lang r [].
Proof.
  induction r; simpl; split; intros Hn;
    try discriminate; try (inversion Hn; fail).
  - constructor.
  - reflexivity.
  - apply andb_true_iff in Hn as [H1 H2].
    change (@nil ascii) with (@nil ascii ++ [])%list.
    constructor; [apply IHr1 | apply IHr2]; assumption.
  - invert Hn. split_app.
    apply andb_true_iff; split; [apply IHr1 | apply IHr2]; assumption.
  - apply orb_true_iff in Hn as [H|H];
      [apply L_alt_l, IHr1 | apply L_alt_r, IHr2]; assumption.
  - apply orb_true_iff.
    invert Hn; [left; apply IHr1 | right; apply IHr2]; assumption.
Qed.

(** A word of a concatenation that starts with [c]: the first part is
    empty, or starts with [c]. *)
Lemma lang_cat_cons (r1 r2 : re) (c : ascii) (s : list ascii) :
  lang (Cat r1 r2) (c :: s) ->
  (lang r1 [] /\ lang r2 (c :: s))
  \/ exists s1 s2, s = (s1 ++ s2)%list /\ lang r1 (c :: s1) /\ lang r2 s2.
Proof.
  intros H. inversion H; subst.
  match goal with
  | Heq : (?s1 ++ ?s2)%list = c :: s |- _ =>
      destruct s1 as [|x s1]; simpl in Heq;
      [ left; subst; auto | right; injection Heq as -> <-; eauto ]
  end.
Qed.

Lemma deriv_lang (c : ascii) (r : re) (s : list ascii) :
  lang (deriv c r) s <-> lang r (c :: s).
Proof.
  revert s. induction r; intros s; simpl.
  - split; intros H; inversion H.
  - split; intros H; inversion H.
  - destruct (Ascii.eqb c c0) eqn:E; split; intros H.
    + apply Ascii.eqb_eq in E as ->. invert H. constructor.
    + invert H. constructor.
    + inversion H.
    + invert H. rewrite Ascii.eqb_refl in E. discriminate.
  - destruct (in_range lo hi c) eqn:E; split; intros H.
    + invert H. constructor. exact E.
    + invert H. constructor.
    + inversion H.
    + invert H. congruence.
  - destruct (nullable r1) eqn:E; split; intros H.
    + invert H.
      * match goal with H : lang (Cat _ _) _ |- _ => invert H end.
        match goal with |- lang _ (c :: (?a ++ ?b)%list) =>
          change (c :: (a ++ b)%list) with ((c :: a) ++ b)%list end.
        constructor; [apply IHr1|]; assumption.
      * change (c :: s) with ([] ++ c :: s)%list.
        constructor; [apply nullable_lang; exact E | apply IHr2; assumption].
    + apply lang_cat_cons in H as [[Ha Hb] | (s1 & s2 & -> & Ha & Hb)].
      * apply L_alt_r, IHr2. exact Hb.
      * apply L_alt_l. constructor; [apply IHr1|]; assumption.
    + invert H.
      match goal with |- lang _ (c :: (?a ++ ?b)%list) =>
        change (c :: (a ++ b)%list) with ((c :: a) ++ b)%list end.
      constructor; [apply IHr1|]; assumption.
    + apply lang_cat_cons in H as [[Ha Hb] | (s1 & s2 & -> & Ha & Hb)].
      * apply nullable_lang in Ha. congruence.
      * constructor; [apply IHr1|]; assumption.
  - split; intros H; invert H.
    + apply L_alt_l, IHr1. assumption.
    + apply L_alt_r, IHr2. assumption.
    + apply L_alt_l, IHr1. assumption.
    + apply L_alt_r, IHr2. assumption.
Qed.

Lemma matches_lang (r : re) (s : list ascii) :
  matches r s = true <-> lang r s.
Proof.
  revert r. induction s as [|c s IH]; intros r; simpl.
  - apply nullable_lang.
  - rewrite IH. apply deriv_lang.
Qed.

Lemma matches_prefix_lang (r : re) (s : list ascii) :
  matches_prefix r s = true <-> exists p q, s = (p ++ q)%list /\ lang r p.
Proof.
  revert r. induction s as [|c s IH]; intros r; simpl.
  - rewrite orb_false_r, nullable_lang. split.
    + intros H. exists [], []. auto.
    + intros (p & q & Heq & H). symmetry in Heq.
      apply app_eq_nil in Heq as [-> _]. exact H.
  - rewrite orb_true_iff, nullable_lang, IH. split.
    + intros [H | (p & q & -> & H)].
      * exists [], (c :: s). auto.
      * exists (c :: p), q. split; [reflexivity | apply deriv_lang; exact H].
    + intros (p & q & Heq & H). destruct p as [|x p]; simpl in Heq.
      * left. exact H.
      * injection Heq as <- ->. right. exists p, q.
        split; [reflexivity | apply deriv_lang; exact H].
Qed.

(** *** A static analysis: may a word of the pattern hold a character
    twice in a row? *)

Section Doubles.

Variable c : ascii.

Lemma starts_with_app (s1 s2 : list ascii) :
  starts_with c (s1 ++ s2) = true ->
  starts_with c s1 = true \/ (s1 = [] /\ starts_with c s2 = true).
Proof. destruct s1; simpl; auto. Qed.

Lemma ends_with_app (s1 s2 : list ascii) :
  ends_with c (s1 ++ s2) = true ->
  ends_with c s2 = true \/ (s2 = [] /\ ends_with c s1 = true).
Proof.
  induction s1 as [|x s1 IH]; simpl; intros H; [auto|].
  destruct s1 as [|y s1]; simpl in *.
  - destruct s2; auto.
  - apply IH in H. exact H.
Qed.

Lemma has_double_app (s1 s2 : list ascii) :
  has_double c (s1 ++ s2) = true ->
  has_double c s1 = true \/ has_double c s2 = true
  \/ (ends_with c s1 = true /\ starts_with c s2 = true).
Proof.
  induction s1 as [|x s1 IH]; intros H; [simpl in H; auto|].
  destruct s1 as [|y s1].
  - destruct s2 as [|z s2]; [simpl in H; discriminate|].
    change (has_double c (x :: z :: s2) = true) in H. simpl in H.
    apply orb_true_iff in H as [H|H].
    + apply andb_true_iff in H as [Hx Hz]. right. right. simpl. auto.
    + right. left. exact H.
  - change (has_double c (x :: y :: (s1 ++ s2)%list) = true) in H.
    cbn [has_double] in H. apply orb_true_iff in H as [H|H].
    + left. cbn [has_double]. rewrite H. reflexivity.
    + apply IH in H as [H|[H|[H1 H2]]].
      * left. cbn [has_double]. cbn [has_double] in H. rewrite H. apply orb_true_r.
      * right. left. exact H.
      * right. right. split; [|exact H2]. exact H1.
Qed.

Lemma in_range_single (lo hi x : ascii) :
  in_range lo hi x = true -> Ascii.eqb x c = true -> in_range lo hi c = true.
Proof. intros H E. apply Ascii.eqb_eq in E as <-. exact H. Qed.

Lemma lang_may_start (r : re) (s : list ascii) :
  lang r s -> starts_with c s = true -> may_start c r = true.
Proof.
  induction 1; simpl; intros Hs; try discriminate; try assumption.
  - eapply in_range_single; eassumption.
  - apply starts_with_app in Hs as [Hs | [-> Hs]].
    + rewrite IHlang1 by assumption. reflexivity.
    + apply nullable_lang in H. rewrite H, IHlang2 by assumption. apply orb_true_r.
  - rewrite IHlang by assumption. reflexivity.
  - rewrite IHlang by assumption. apply orb_true_r.
Qed.

Lemma lang_may_end (r : re) (s : list ascii) :
  lang r s -> ends_with c s = true -> may_end c r = true.
Proof.
  induction 1; simpl; intros Hs; try discriminate; try assumption.
  - eapply in_range_single; eassumption.
  - apply ends_with_app in Hs as [Hs | [-> Hs]].
    + rewrite IHlang2 by assumption. reflexivity.
    + apply nullable_lang in H0. rewrite H0, IHlang1 by assumption. apply orb_true_r.
  - rewrite IHlang by assumption. reflexivity.
  - rewrite IHlang by assumption. apply orb_true_r.
Qed.

Lemma lang_may_double (r : re) (s : list ascii) :
  lang r s -> has_double c s = true -> may_double c r = true.
Proof.
  induction 1; simpl; intros Hs; try discriminate.
  - apply has_double_app in Hs as [Hs|[Hs|[H1 H2]]].
    + rewrite IHlang1 by assumption. reflexivity.
    + rewrite IHlang2 by assumption. rewrite orb_true_r. reflexivity.
    + rewrite (lang_may_end _ _ H H1), (lang_may_start _ _ H0 H2). apply orb_true_r.
  - rewrite IHlang by assumption. reflexivity.
  - rewrite IHlang by assumption. apply orb_true_r.
Qed.

(** A word written with [c] twice in a row has the double. *)
Lemma has_double_intro (p q : list ascii) :
  has_double c (p ++ c :: c :: q) = true.
Proof.
  induction p as [|x p IH].
  - simpl. rewrite Ascii.eqb_refl. reflexivity.
  - change ((x :: p) ++ c :: c :: q)%list with (x :: (p ++ c :: c :: q))%list.
    destruct (p ++ c :: c :: q)%list as [|y t] eqn:E.
    + destruct p; discriminate.
    + cbn [has_double]. cbn [has_double] in IH. rewrite IH. apply orb_true_r.
Qed.

End Doubles.

Lemma list_ascii_of_string_app (a b : string) :
  list_ascii_of_string (a +:+ b) = (list_ascii_of_string a ++ list_ascii_of_string b)%list.
Proof. induction a as [|x a IH]; simpl; [reflexivity | rewrite IH; reflexivity]. Qed.

End RegexFacts.

(** ** The geolocation resolver *)

Module GeoFacts.

Import Regex RegexAnalysis RegexFacts Geo GeoSpec.

Lemma isCacheValid_younger (now : Z) (entry : LocationInfo) :
  isCacheValid now entry = true <-> younger_than_24h now entry.
Proof.
  unfold isCacheValid, younger_than_24h. destruct (last_updated entry) as [t|].
  - rewrite Z.ltb_lt. split.
    + intros H. exists t. auto.
    + intros (t' & [= <-] & H). exact H.
  - split; [discriminate | intros (t & [=] & _)].
Qed.

(** No word of the address patterns holds two colons in a row. *)
Lemma isValidIP_double_colon (ip p q : string) :
  ip = p +:+ "::" +:+ q -> isValidIP ip = false.
Proof.
  intros ->. unfold isValidIP, test_full.
  rewrite !list_ascii_of_string_app. simpl.
  pose proof (has_double_intro ":"%char (list_ascii_of_string p) (list_ascii_of_string q)) as Hd.
  apply orb_false_iff. split.
  - destruct (matches ipv4Regex _) eqn:E; [|reflexivity].
    apply matches_lang in E.
    apply (lang_may_double ":"%char) in E; [|exact Hd]. vm_compute in E. discriminate.
  - destruct (matches ipv6Regex _) eqn:E; [|reflexivity].
    apply matches_lang in E.
    apply (lang_may_double ":"%char) in E; [|exact Hd]. vm_compute in E. discriminate.
Qed.

Lemma matches_prefix_app (r : re) (p s : list ascii) :
  matches r p = true -> matches_prefix r (p ++ s) = true.
Proof.
  intros H. apply matches_prefix_lang. exists p, s. split; [reflexivity|].
  apply matches_lang. exact H.
Qed.

Lemma isPrivateIP_prefix (p rest : string) :
  existsb (fun range => match range with
                        | Prefix r => matches r (list_ascii_of_string p)
                        | Whole _ => false
                        end) privateRanges = true ->
  isPrivateIP (p +:+ rest) = true.
Proof.
  unfold isPrivateIP. rewrite !existsb_exists.
  intros (range & Hin & Hm). exists range. split; [exact Hin|].
  destruct range as [r|r]; [discriminate|].
  unfold test, test_prefix. rewrite list_ascii_of_string_app.
  apply matches_prefix_app. exact Hm.
Qed.

Lemma private_prefixes_recognised :
  Forall (fun p => forall rest, isPrivateIP (p +:+ rest) = true) private_prefixes.
Proof.
  unfold private_prefixes.
  repeat (apply Forall_cons; split;
          [intros rest; apply isPrivateIP_prefix; vm_compute; reflexivity|]).
  apply Forall_nil_2.
Qed.

(** Case analysis along the control flow of a monadic body. *)
Ltac simple_scrutinee x :=
  lazymatch x with
  | context [match _ with _ => _ end] => fail
  | context [if _ then _ else _] => fail
  | _ => idtac
  end.

Ltac crunch_step :=
  match goal with
  | H : ?x = _ |- context [match ?x with _ => _ end] => rewrite H
  | H : ?x = _ |- context [if ?x then _ else _] => rewrite H
  | |- context [if ?b then _ else _] => simple_scrutinee b; destruct b eqn:?
  | |- context [match ?x with _ => _ end] => simple_scrutinee x; destruct x eqn:?
  end.

Ltac crunch :=
  repeat (cbn -[providers maxAge isCacheValid isValidIP isPrivateIP normalizeResponse
                cache_row prune_counters count_requests
                Z.mul Z.div Z.sub Z.add Z.leb] in *;
          crunch_step).

Ltac unfold_resolve :=
  unfold getLocationInfo, try_catch, getCachedLocation, fetchFromAPI, saveCachedLocation,
    checkRateLimit, try_catch, bind, gets, modify, ret, throw.

Section Resolve.

Context `{rt : Runtime}.

(** An address the checks reject gets the default, and nothing is
    looked up, fetched or written. *)
Lemma getLocationInfo_rejected (ip : string) (w : World) :
  isValidIP ip = false \/ isPrivateIP ip = true ->
  getLocationInfo ip w = (Ok getDefaultLocationInfo, w).
Proof.
  intros H. unfold getLocationInfo, try_catch.
  assert (negb (isValidIP ip) || isPrivateIP ip = true) as ->.
  { destruct H as [-> | ->]; [reflexivity | apply orb_true_r]. }
  reflexivity.
Qed.

(** An address that begins like a private, loopback or link-local one
    gets the default, and nothing is looked up or fetched. *)
Lemma private_address_gets_default (p rest : string) (w : World) :
  In p private_prefixes ->
  getLocationInfo (p +:+ rest) w = (Ok getDefaultLocationInfo, w).
Proof.
  intros Hin. apply getLocationInfo_rejected. right.
  pose proof private_prefixes_recognised as H.
  rewrite Forall_forall in H. apply H. apply list_elem_of_In. exact Hin.
Qed.

(** resolve never throws. *)
Lemma getLocationInfo_never_throws (ip : string) (w : World) :
  exists l w', getLocationInfo ip w = (Ok l, w').
Proof.
  unfold getLocationInfo, try_catch.
  match goal with |- context [match ?m w with _ => _ end] => destruct (m w) as [[l|e] w'] end.
  - eauto.
  - unfold ret. eauto.
Qed.

(** Whatever makes the body throw (an unknown provider, an exhausted
    request budget, a failed request), the answer is the default: any
    other answer is a cache entry or the normalised upstream response. *)
Lemma getLocationInfo_answers (ip : string) (w : World) (l : LocationInfo) (w' : World) :
  getLocationInfo ip w = (Ok l, w') ->
  l = getDefaultLocationInfo
  \/ (exists entry, ip_geolocation_cache w !! ip = Some entry /\ l = entry)
  \/ (exists data, axios_get w (currentProvider w) ip = Some data
                   /\ l = normalizeResponse (currentProvider w) data).
Proof.
  unfold_resolve. crunch; intros Heq; inversion Heq; subst; eauto.
Qed.

(** The cache table changes only by an upsert for an address that
    passed the checks. *)
Lemma getLocationInfo_cache (ip : string) (w : World) :
  ip_geolocation_cache (getLocationInfo ip w).2 = ip_geolocation_cache w
  \/ (isValidIP ip = true /\ isPrivateIP ip = false /\
      exists l, ip_geolocation_cache (getLocationInfo ip w).2
                = <[ip := l]> (ip_geolocation_cache w)).
Proof.
  unfold_resolve.
  destruct (isValidIP ip) eqn:Hv; [|left; reflexivity].
  destruct (isPrivateIP ip) eqn:Hp; [left; reflexivity|].
  crunch; eauto.
Qed.

Lemma empty_cache_wf (w : World) :
  ip_geolocation_cache w = ∅ -> cache_wf w.
Proof. intros He ip entry. rewrite He, lookup_empty. discriminate. Qed.

Lemma getLocationInfo_cache_wf (ip : string) (w : World) :
  cache_wf w -> cache_wf (getLocationInfo ip w).2.
Proof.
  intros Hwf. unfold cache_wf.
  destruct (getLocationInfo_cache ip w) as [-> | (Hv & Hp & l & ->)]; [exact Hwf|].
  intros ip' entry. rewrite lookup_insert. case_decide as Hd.
  - subst. auto.
  - apply Hwf.
Qed.

Lemma upstream_calls_cache_lookup (evs : list Event) (ip : string) :
  upstream_calls (evs ++ [CacheSelect ip]) = upstream_calls evs.
Proof.
  unfold upstream_calls. rewrite List.filter_app. simpl. rewrite app_nil_r. reflexivity.
Qed.

Lemma cache_hit (ip : string) (w : World) (entry : LocationInfo) :
  isValidIP ip = true -> isPrivateIP ip = false ->
  select_fails w = false ->
  ip_geolocation_cache w !! ip = Some entry ->
  isCacheValid (now w) entry = true ->
  getLocationInfo ip w = (Ok entry, emit (CacheSelect ip) w).
Proof.
  intros Hv Hp Hs Hc Hvalid. unfold_resolve.
  rewrite Hv, Hp. cbn. rewrite Hs. cbn. rewrite Hc, Hvalid. reflexivity.
Qed.

(** C7. When the cache read returns an entry written less than 24 hours
    ago, resolve returns that entry unchanged and the only thing it does
    is the cache read: no upstream call. An upstream call means that the
    table holds no entry for the address or one at least 24 hours old.
    (The cache table holds only addresses that passed the checks, as
    [getLocationInfo_cache_wf] keeps it.) *)
Theorem cached_entry_is_returned (w : World) (ip : string) :
  cache_wf w -> select_fails w = false ->
  (forall entry,
      ip_geolocation_cache w !! ip = Some entry ->
      younger_than_24h (now w) entry ->
      getLocationInfo ip w = (Ok entry, emit (CacheSelect ip) w)
      /\ upstream_calls (trace (getLocationInfo ip w).2) = upstream_calls (trace w))
  /\ (upstream_calls (trace (getLocationInfo ip w).2) <> upstream_calls (trace w) ->
      ip_geolocation_cache w !! ip = None
      \/ exists entry, ip_geolocation_cache w !! ip = Some entry
                       /\ at_least_24h_old (now w) entry).
Proof.
  intros Hwf Hs.
  assert (forall entry,
             ip_geolocation_cache w !! ip = Some entry ->
             isCacheValid (now w) entry = true ->
             getLocationInfo ip w = (Ok entry, emit (CacheSelect ip) w)) as Hhit.
  { intros entry Hc Hvalid. destruct (Hwf ip entry Hc) as [Hv Hp].
    apply cache_hit; assumption. }
  split.
  - intros entry Hc Hy. apply isCacheValid_younger in Hy.
    rewrite (Hhit entry Hc Hy). split; [reflexivity|].
    cbn. apply upstream_calls_cache_lookup.
  - intros Hcalls. destruct (ip_geolocation_cache w !! ip) as [entry|] eqn:Hc; [|left; reflexivity].
    right. exists entry. split; [reflexivity|].
    destruct (isCacheValid (now w) entry) eqn:Hvalid.
    + exfalso. apply Hcalls. rewrite (Hhit entry eq_refl Hvalid).
      cbn. apply upstream_calls_cache_lookup.
    + intros t Ht. unfold isCacheValid in Hvalid. rewrite Ht in Hvalid.
      apply Z.ltb_ge in Hvalid. exact Hvalid.
Qed.

(** C10. An address written with "::" matches neither pattern of
    [isValidIP] (the IPv6 pattern wants eight groups, each followed by
    one colon), so resolve answers the default and does nothing else: no
    cache lookup, no upstream call, the world is as it was. *)
Theorem compressed_ipv6_gets_default (ip p q : string) (w : World) :
  ip = p +:+ "::" +:+ q ->
  isValidIP ip = false
  /\ getLocationInfo ip w = (Ok getDefaultLocationInfo, w)
  /\ trace (getLocationInfo ip w).2 = trace w.
Proof.
  intros Hip. pose proof (isValidIP_double_colon ip p q Hip) as Hv.
  pose proof (getLocationInfo_rejected ip w (or_introl Hv)) as Hr.
  rewrite Hr. auto.
Qed.

End Resolve.

Import Scenario.

Lemma warm_geo_wf : cache_wf warm_geo.
Proof.
  intros ip entry H. cbn in H.
  apply lookup_singleton_Some in H as [<- _]. split; vm_compute; reflexivity.
Qed.

Lemma cached_entry_young : younger_than_24h (now warm_geo) cached_entry.
Proof. exists (1700000000000 - 3600000). split; [reflexivity | vm_compute; reflexivity]. Qed.

Lemma cached_entry_is_returned_witness :
  getLocationInfo (H := Sample.runtime) "8.8.8.8" warm_geo
  = (Ok cached_entry, emit (CacheSelect "8.8.8.8") warm_geo).
Proof.
  exact (proj1 (proj1 (@cached_entry_is_returned Sample.runtime warm_geo "8.8.8.8"
                         warm_geo_wf eq_refl)
                 cached_entry eq_refl cached_entry_young)).
Defined.

Lemma compressed_ipv6_gets_default_witness :
  isValidIP "2001:db8::1" = false
  /\ getLocationInfo (H := Sample.runtime) "2001:db8::1" cold_geo
     = (Ok getDefaultLocationInfo, cold_geo)
  /\ trace (getLocationInfo (H := Sample.runtime) "2001:db8::1" cold_geo).2 = trace cold_geo.
Proof.
  exact (@compressed_ipv6_gets_default Sample.runtime "2001:db8::1" "2001:db8" "1" cold_geo eq_refl).
Defined.

(** C3. A unique-local address in fc00::/7 that does not start with the
    text "fc00:": the validity pattern accepts it, no pattern of
    [privateRanges] matches it, and resolve reads the cache, calls the
    upstream provider and returns its answer instead of the default. *)
Theorem unique_local_address_reaches_upstream :
  isValidIP "fd00:0:0:0:0:0:0:1" = true
  /\ isPrivateIP "fd00:0:0:0:0:0:0:1" = false
  /\ (getLocationInfo (H := Sample.runtime) "fd00:0:0:0:0:0:0:1" cold_geo).1
     = Ok (normalizeResponse (H := Sample.runtime) "ipapi" upstream_answer)
  /\ trace (getLocationInfo (H := Sample.runtime) "fd00:0:0:0:0:0:0:1" cold_geo).2
     = [ CacheSelect "fd00:0:0:0:0:0:0:1";
         HttpGet "ipapi" "fd00:0:0:0:0:0:0:1";
         CacheUpsert "fd00:0:0:0:0:0:0:1" ]
  /\ country (normalizeResponse (H := Sample.runtime) "ipapi" upstream_answer) = Some "Germany".
Proof. repeat split; vm_compute; reflexivity. Qed.

End GeoFacts.

(** ** The anomaly detector *)

Module DetectorFacts.

Import Geo Detector GeoSpec GeoFacts DetectorSpec.

Lemma tally_fold (checks : list CheckResult) (acc : Tally) :
  acc_totalRiskScore (fold_left tally checks acc)
  = acc_totalRiskScore acc + sum_scores (map contribution checks)
  /\ acc_anomalies (fold_left tally checks acc)
     = (acc_anomalies acc ++ List.filter isAnomalous checks)%list
  /\ acc_suspiciousReasons (fold_left tally checks acc)
     = (acc_suspiciousReasons acc ++ map reason (List.filter isAnomalous checks))%list.
Proof.
  revert acc. induction checks as [|a checks IH]; intros acc; simpl.
  - rewrite !app_nil_r. repeat split; lia.
  - destruct (IH (tally acc a)) as (-> & -> & ->).
    unfold tally, contribution. destruct (isAnomalous a); simpl.
    + rewrite <- !app_assoc. simpl. repeat split; lia.
    + repeat split; lia.
Qed.

Lemma sum_scores_anomalies (checks : list CheckResult) :
  sum_scores (map contribution checks)
  = sum_scores (map riskScore (List.filter isAnomalous checks)).
Proof.
  induction checks as [|a checks IH]; simpl; [reflexivity|].
  unfold contribution at 1. destruct (isAnomalous a); simpl; lia.
Qed.

Lemma known_devices_nil (w : World) (userId : Z) (fingerprint : string) :
  known_devices w userId fingerprint = []
  <-> fingerprint ∉ trusted_fingerprints w userId.
Proof.
  unfold known_devices, trusted_fingerprints.
  induction (user_trusted_devices w) as [|d ds IH]; [cbn; split; [intros _; apply not_elem_of_nil | reflexivity]|].
  rewrite !filter_cons.
  destruct (decide (td_user_id d = userId)) as [Hu|Hu];
    destruct (decide (td_device_fingerprint d = fingerprint)) as [Hf|Hf];
    repeat case_decide; try tauto; cbn [map].
  - split; [discriminate|]. intros Hn. exfalso. apply Hn.
    rewrite Hf. apply list_elem_of_here.
  - rewrite not_elem_of_cons, IH. split; [intros Hn; split; [congruence | exact Hn] | tauto].
Qed.

Lemma device_count_nonneg (w : World) (userId : Z) : 0 <= device_count w userId.
Proof. unfold device_count. lia. Qed.

Lemma threat_is_decide (l : LocationInfo) (level : string) :
  threat_is l level = bool_decide (threat_level l = Some level).
Proof.
  unfold threat_is. destruct (threat_level l) as [t|].
  - destruct (String.eqb t level) eqn:E.
    + apply String.eqb_eq in E as ->. rewrite bool_decide_eq_true_2; reflexivity.
    + apply String.eqb_neq in E. rewrite bool_decide_eq_false_2; [reflexivity|congruence].
  - rewrite bool_decide_eq_false_2; [reflexivity | discriminate].
Qed.

Section Detect.

Context `{rt : Runtime}.

(** detect in closed form: the checks, their sum, and the insert that
    decides between an answer and an exception. *)
Lemma detect_shape (userId : Z) (loginData : LoginData) (w : World) :
  exists l,
    (getLocationInfo (ip_address loginData) (geo w)).1 = Ok l /\
    let d := device_of_agent (user_agent loginData) in
    let w1 := after_geo w loginData in
    let checks := run_checks w1 userId loginData l d in
    let total := sum_scores (map contribution checks) in
    detectAnomalies userId loginData w =
      if query_fails w InsertLoginLog
      then (Throw (QueryError "INSERT user_login_logs"), w1)
      else (Ok {| totalRiskScore := total; isSuspicious := 50 <=? total;
                  anomalies := List.filter isAnomalous checks;
                  suspiciousReasons := map reason (List.filter isAnomalous checks);
                  locationInfo := l; deviceInfo := d |},
            set_user_login_logs
              (user_login_logs w1 ++
               [login_row (now (geo w1)) userId
                  {| ld_login := loginData; ld_location := l; ld_device := d;
                     risk_score := total; is_suspicious := 50 <=? total;
                     suspicious_reasons :=
                       if 0 <? Z.of_nat (length (map reason (List.filter isAnomalous checks)))
                       then Some (map reason (List.filter isAnomalous checks)) else None |}])%list
              w1).
Proof.
  unfold after_geo, detectAnomalies, try_catch, bind, lift_geo.
  destruct (getLocationInfo_never_throws (ip_address loginData) (geo w)) as (l & g & Hg).
  rewrite Hg. cbn [snd fst].
  exists l. split; [reflexivity|]. cbv zeta.
  unfold gets, recordLoginLog, try_catch, bind, gets, throw, modify, ret. cbn [id].
  set (checks := run_checks (set_geo g w) userId loginData l (device_of_agent (user_agent loginData))).
  change (tally (tally (tally (tally (tally (tally ?acc _) _) _) _) _) _)
    with (fold_left tally checks acc).
  destruct (tally_fold checks {| acc_totalRiskScore := 0; acc_anomalies := []; acc_suspiciousReasons := [] |})
    as (Ht & Ha & Hr).
  cbn [acc_totalRiskScore acc_anomalies acc_suspiciousReasons app] in Ht, Ha, Hr.
  rewrite Z.add_0_l in Ht. rewrite Ht, Ha, Hr.
  change (query_fails (set_geo g w) InsertLoginLog) with (query_fails w InsertLoginLog).
  destruct (query_fails w InsertLoginLog); reflexivity.
Qed.

(** C1. Whenever detect returns an assessment, its total is the exact
    sum of the contributions of the checks that triggered (the address
    check being capped inside the check), and is_suspicious is true
    exactly when the total is at least 50, a constant of the code: 49
    gives false, 50 gives true. detect returns an assessment whenever
    the login record is written. *)
Theorem detect_total_and_threshold (userId : Z) (loginData : LoginData) (w : World) :
  (forall r w', detectAnomalies userId loginData w = (Ok r, w') ->
     (getLocationInfo (ip_address loginData) (geo w)).1 = Ok (locationInfo r)
     /\ deviceInfo r = device_of_agent (user_agent loginData)
     /\ scores_add_up (after_geo w loginData) userId loginData r
     /\ isSuspicious r = (50 <=? totalRiskScore r)
     /\ (totalRiskScore r = 49 -> isSuspicious r = false)
     /\ (totalRiskScore r = 50 -> isSuspicious r = true))
  /\ (query_fails w InsertLoginLog = false ->
      exists r w', detectAnomalies userId loginData w = (Ok r, w')).
Proof.
  destruct (detect_shape userId loginData w) as (l & Hl & Hd). cbv zeta in Hd.
  split.
  - intros r w' Hr. rewrite Hd in Hr.
    destruct (query_fails w InsertLoginLog); [discriminate|].
    injection Hr as <- <-. unfold scores_add_up.
    cbn [totalRiskScore isSuspicious anomalies locationInfo deviceInfo].
    split; [exact Hl|]. split; [reflexivity|].
    split.
    { split; [reflexivity | split; [reflexivity|]].
      exact (sum_scores_anomalies
               (run_checks (after_geo w loginData) userId loginData l
                  (device_of_agent (user_agent loginData)))). }
    split; [reflexivity|].
    split; intros ->; reflexivity.
  - intros Hq. rewrite Hd, Hq. eauto.
Qed.

(** C2. When the insert of the login record fails, detect does not
    return the assessment: it rethrows the error of the insert to its
    caller, and no record is written. *)
Theorem detect_propagates_insert_failure (userId : Z) (loginData : LoginData) (w : World) :
  query_fails w InsertLoginLog = true ->
  exists w', detectAnomalies userId loginData w
             = (Throw (QueryError "INSERT user_login_logs"), w')
             /\ user_login_logs w' = user_login_logs w.
Proof.
  intros Hq. destruct (detect_shape userId loginData w) as (l & _ & Hd). cbv zeta in Hd.
  rewrite Hd, Hq. eexists. split; [reflexivity|].
  unfold after_geo, lift_geo. destruct (getLocationInfo _ _). reflexivity.
Qed.

(** C8. With the rule loaded and the two reads answered, new_device
    triggers exactly when the fingerprint is not among the user's
    trusted devices and the user has at least one trusted device. A user
    with no trusted device never triggers it, whatever the fingerprint,
    the rule or the database do. *)
Theorem new_device_check (w : World) (userId : Z) (deviceInfo : DeviceInfo) (ipAddress : string) :
  (forall rule,
      riskRules w !! "新设备登录" = Some rule ->
      query_fails w SelectKnownDevice = false ->
      query_fails w CountDevices = false ->
      (isAnomalous (checkDeviceAnomaly w userId deviceInfo ipAddress) = true
       <-> (generateDeviceFingerprint deviceInfo ipAddress ∉ trusted_fingerprints w userId)
           /\ 1 <= device_count w userId))
  /\ (device_count w userId = 0 ->
      isAnomalous (checkDeviceAnomaly w userId deviceInfo ipAddress) = false).
Proof.
  split.
  - intros rule Hrule Hq1 Hq2. unfold checkDeviceAnomaly, query.
    rewrite Hrule, Hq1. cbn [rbind].
    rewrite <- known_devices_nil.
    destruct (known_devices w userId _) as [|d ds]; cbn [rbind or_else].
    + rewrite Hq2. cbn [rbind or_else].
      pose proof (device_count_nonneg w userId).
      destruct (device_count w userId =? 0) eqn:E; cbn.
      * apply Z.eqb_eq in E. split; [discriminate | lia].
      * apply Z.eqb_neq in E. split; [intros _; split; [reflexivity | lia] | reflexivity].
    + cbn. split; [discriminate | intros [? _]; discriminate].
  - intros H0. unfold checkDeviceAnomaly, query.
    destruct (riskRules w !! "新设备登录"); [|reflexivity].
    destruct (query_fails w SelectKnownDevice); [reflexivity|]. cbn [rbind].
    destruct (known_devices w userId _); [|reflexivity].
    destruct (query_fails w CountDevices); [reflexivity|]. cbn [rbind].
    rewrite H0. reflexivity.
Qed.

End Detect.

(** C9. With the rule loaded, the address check triggers exactly when a
    proxy, VPN or Tor flag is set or the threat level is high or medium,
    and its score is then the sum of the factors that apply (proxy 20,
    VPN 15, Tor 30, high 25 or else medium 15), capped at the score of
    the rule; it scores 0 when it does not trigger. *)
Theorem ip_reputation_check (w : World) (l : LocationInfo) (rule : Rule) :
  riskRules w !! "可疑IP地址" = Some rule ->
  (isAnomalous (checkIPReputation w l) = true <-> any_factor l)
  /\ (any_factor l ->
      riskScore (checkIPReputation w l) = Z.min (factor_sum l) (rule_riskScore rule))
  /\ (~ any_factor l -> riskScore (checkIPReputation w l) = 0).
Proof.
  intros Hrule. unfold checkIPReputation, ip_factors, any_factor, factor_sum.
  rewrite Hrule, !threat_is_decide.
  destruct (is_proxy l), (is_vpn l), (is_tor l);
    repeat case_bool_decide; cbn;
    (split; [split; [intros; auto 10 | intros; reflexivity || (exfalso; intuition congruence) ]
           | split; [intros; reflexivity || (exfalso; intuition congruence)
                    | intros; reflexivity || (exfalso; intuition auto)]]).
Qed.

Import DetectorScenario.

(** C1, as stated, fails: the administrators set the threshold to 70, a
    login totals 50, and detect still calls it suspicious. *)
Lemma threshold_setting_is_ignored :
  exists r w',
    detectAnomalies (H := Sample.runtime) 7 login (busy_world 25 false) = (Ok r, w')
    /\ totalRiskScore r = 50
    /\ isSuspicious r = true
    /\ configured_threshold (rt := Sample.runtime) (busy_world 25 false) = 70
    /\ (configured_threshold (rt := Sample.runtime) (busy_world 25 false)
        <=? totalRiskScore r) = false.
Proof.
  destruct (detectAnomalies (H := Sample.runtime) 7 login (busy_world 25 false))
    as [[r|e] w'] eqn:E.
  - exists r, w'. split; [reflexivity|].
    vm_compute in E. injection E as <- <-.
    split; [reflexivity | split; [reflexivity | split; vm_compute; reflexivity]].
  - vm_compute in E. discriminate.
Qed.

Lemma detect_total_and_threshold_witness :
  exists r w',
    detectAnomalies (H := Sample.runtime) 7 login (busy_world 24 false) = (Ok r, w')
    /\ totalRiskScore r = 49 /\ isSuspicious r = false.
Proof.
  destruct (proj2 (@detect_total_and_threshold Sample.runtime 7 login (busy_world 24 false)) eq_refl)
    as (r & w' & E).
  exists r, w'. split; [exact E|].
  destruct (proj1 (@detect_total_and_threshold Sample.runtime 7 login (busy_world 24 false)) r w' E)
    as (_ & _ & _ & _ & H49 & _).
  assert (totalRiskScore r = 49) as Ht.
  { vm_compute in E. injection E as <- _. reflexivity. }
  split; [exact Ht | exact (H49 Ht)].
Defined.

(** C2, as stated, fails: the insert fails and detect answers with the
    exception, not with an assessment. *)
Lemma insert_failure_reaches_caller :
  (detectAnomalies (H := Sample.runtime) 7 login (busy_world 25 true)).1
  = Throw (QueryError "INSERT user_login_logs").
Proof. vm_compute. reflexivity. Qed.

Lemma detect_propagates_insert_failure_witness :
  exists w',
    detectAnomalies (H := Sample.runtime) 7 login (busy_world 25 true)
    = (Throw (QueryError "INSERT user_login_logs"), w')
    /\ user_login_logs w' = user_login_logs (busy_world 25 true).
Proof.
  exact (@detect_propagates_insert_failure Sample.runtime 7 login (busy_world 25 true) eq_refl).
Defined.

Lemma new_device_check_witness :
  isAnomalous (checkDeviceAnomaly (H := Sample.runtime) guarded_world 7 desktop "203.0.113.9") = true.
Proof.
  apply (proj1 (@new_device_check Sample.runtime guarded_world 7 desktop "203.0.113.9")
           device_rule eq_refl eq_refl eq_refl).
  split.
  - vm_compute. intros H. apply list_elem_of_In in H. destruct H as [H|[]]. discriminate.
  - vm_compute. discriminate.
Defined.

Lemma ip_reputation_check_witness :
  isAnomalous (checkIPReputation guarded_world tor_exit) = true
  /\ riskScore (checkIPReputation guarded_world tor_exit) = 30.
Proof.
  assert (any_factor tor_exit) as Hf by (right; right; left; reflexivity).
  destruct (ip_reputation_check guarded_world tor_exit reputation_rule eq_refl)
    as (Hiff & Hscore & _).
  split; [apply Hiff; exact Hf | rewrite (Hscore Hf); vm_compute; reflexivity].
Defined.

End DetectorFacts.

(** ** The notification queue *)

Module NotifyFacts.

Import Notify NotifySpec.

Lemma extend_nil (w : World) : extend [] w = w.
Proof. destruct w. unfold extend. cbn. rewrite app_nil_r. reflexivity. Qed.

Lemma extend_extend (a b : list Event) (w : World) :
  extend b (extend a w) = extend (a ++ b) w.
Proof. unfold extend. cbn. rewrite app_assoc. reflexivity. Qed.

Lemma elapsed_app (a b : list Event) : elapsed (a ++ b) = elapsed a + elapsed b.
Proof.
  induction a as [|e a IH]; [reflexivity|].
  cbn. fold (elapsed (a ++ b)). fold (elapsed a). rewrite IH. destruct e; lia.
Qed.

Section Delivery.

Context `{rt : Runtime}.

Lemma getAdministrators_spec (w : World) :
  getAdministrators w
  = (Ok (if query_fails w SelectAdministrators then [] else administrators w), w).
Proof.
  unfold getAdministrators, try_catch, query, ret.
  destruct (query_fails w SelectAdministrators); reflexivity.
Qed.

Lemma getUserInfo_spec (userId : Z) (w : World) :
  getUserInfo userId w = (Ok (user_info w userId), w).
Proof.
  unfold getUserInfo, user_info, try_catch, bind, query, ret.
  destruct (query_fails w SelectUser); reflexivity.
Qed.

Lemma getEmailTemplate_spec (w : World) :
  getEmailTemplate w = (Ok (current_template w), w).
Proof.
  unfold getEmailTemplate, current_template, try_catch, bind, query, ret, throw.
  destruct (query_fails w SelectTemplate); [reflexivity|].
  destruct (security_settings w !! "alert_email_template"); [|reflexivity].
  destruct (JSON_parse_template _); reflexivity.
Qed.

Lemma send_to_each_spec (admins : list User) (c : EmailContent) (w : World) :
  send_to_each admins c w
  = (Ok tt, extend (map (fun admin => SendMail (email admin) c) admins) w).
Proof.
  revert w. induction admins as [|admin rest IH]; intros w; cbn [send_to_each map].
  - unfold ret. rewrite extend_nil. reflexivity.
  - unfold bind at 1. unfold try_catch, sendMail, bind, modify, gets, ret, throw. cbn [id].
    change (sendMail_rejects (emit _ w) (email admin)) with (sendMail_rejects w (email admin)).
    destruct (sendMail_rejects w (email admin)); rewrite IH;
      change (emit ?e w) with (extend [e] w); rewrite extend_extend; reflexivity.
Qed.

Lemma prepare_usable (w : World) (a : QueuedAlert) :
  usable_template w ->
  prepareEmailContent (now w) (current_template w) a (user_info w (userId (alert a)))
  = Ok (email_for w a).
Proof.
  intros [[s Hs] [b Hb]]. unfold email_for, prepareEmailContent. rewrite Hs, Hb. reflexivity.
Qed.

Lemma sendNotifications_spec (a : QueuedAlert) (w : World) :
  emailTransporter w = true ->
  query_fails w SelectAdministrators = false ->
  usable_template w ->
  sendNotifications a w = (Ok tt, extend (sends w a) w).
Proof.
  intros Ht Hq Hu. unfold sendNotifications, try_catch, bind.
  rewrite getAdministrators_spec, Hq. unfold sends.
  destruct (administrators w) as [|admin rest] eqn:Ha.
  - unfold ret. cbn [map]. rewrite extend_nil. reflexivity.
  - rewrite getUserInfo_spec. unfold sendEmailNotifications, bind, gets, try_catch. cbn [id].
    rewrite Ht. cbn [negb]. rewrite getEmailTemplate_spec, (prepare_usable w a Hu).
    rewrite send_to_each_spec. reflexivity.
Qed.

Lemma drain_spec (queue : list QueuedAlert) (w : World) :
  emailTransporter w = true ->
  query_fails w SelectAdministrators = false ->
  usable_template w ->
  alertQueue w = queue ->
  drain (length queue) w = (Ok tt, set_alertQueue [] (extend (deliveries w queue) w)).
Proof.
  revert w. induction queue as [|a rest IH]; intros w Ht Hq Hu Hqueue.
  - cbn. unfold ret. unfold deliveries. cbn. rewrite extend_nil.
    destruct w. cbn in *. subst. reflexivity.
  - cbn [length drain]. unfold bind at 1. unfold gets at 1. cbn [id]. rewrite Hqueue.
    unfold bind at 1. unfold modify at 1.
    unfold bind at 1.
    rewrite (sendNotifications_spec a (set_alertQueue rest w) Ht Hq Hu).
    unfold bind at 1. unfold sleep, modify.
    change (emit ?e ?x) with (extend [e] x). rewrite extend_extend.
    rewrite IH; [| exact Ht | exact Hq | exact Hu | reflexivity].
    f_equal. unfold deliveries. cbn [map concat].
    unfold set_alertQueue, extend. cbn.
    rewrite <- !app_assoc. reflexivity.
Qed.


Lemma recipients_sends (w : World) (a : QueuedAlert) :
  recipients (sends w a) = map email (administrators w).
Proof.
  unfold recipients, sends. induction (administrators w) as [|u l IH]; [reflexivity|].
  cbn. rewrite IH. reflexivity.
Qed.

Lemma deliveries_app (w : World) (q1 q2 : list QueuedAlert) :
  deliveries w (q1 ++ q2) = (deliveries w q1 ++ deliveries w q2)%list.
Proof. unfold deliveries. rewrite map_app, concat_app. reflexivity. Qed.

Lemma elapsed_sends (w : World) (a : QueuedAlert) : elapsed (sends w a) = 0.
Proof. unfold sends. induction (administrators w) as [|u l IH]; [reflexivity | exact IH]. Qed.

Lemma elapsed_deliveries (w : World) (queue : list QueuedAlert) :
  elapsed (deliveries w queue) = 1000 * Z.of_nat (length queue).
Proof.
  induction queue as [|a queue IH]; [reflexivity|].
  change (deliveries w (a :: queue))
    with ((sends w a ++ [Sleep 1000]) ++ deliveries w queue)%list.
  rewrite !elapsed_app, elapsed_sends, IH. cbn [length elapsed fold_right]. lia.
Qed.

Lemma deliveries_gap (w : World) (before middle after : list QueuedAlert) (a b : QueuedAlert) :
  exists gap,
    deliveries w (before ++ a :: middle ++ b :: after)
    = (deliveries w before ++ sends w a ++ gap ++ sends w b
       ++ [Sleep 1000] ++ deliveries w after)%list
    /\ 1000 <= elapsed gap.
Proof.
  exists ([Sleep 1000] ++ deliveries w middle)%list. split.
  - rewrite deliveries_app.
    change (deliveries w (a :: middle ++ b :: after))
      with ((sends w a ++ [Sleep 1000]) ++ deliveries w (middle ++ b :: after))%list.
    rewrite deliveries_app.
    change (deliveries w (b :: after))
      with ((sends w b ++ [Sleep 1000]) ++ deliveries w after)%list.
    rewrite <- !app_assoc. reflexivity.
  - rewrite elapsed_app, elapsed_deliveries. cbn [elapsed fold_right]. lia.
Qed.

(** The worker of a service that had a transporter. With the worker
    idle, the administrators read and a template that has a subject and
    a body, it empties the queue and what it does is, alert after alert
    in the order of the queue, one send call per active administrator
    in the order of the administrators, whether or not the relay rejects
    some of them; between the send calls of an alert and those of any
    later alert the worker pauses for at least 1000 ms. *)
Lemma delivery_in_order (w : World) :
  emailTransporter w = true ->
  isProcessing w = false ->
  query_fails w SelectAdministrators = false ->
  usable_template w ->
  (exists w',
      processNotificationQueue w = (Ok tt, w')
      /\ trace w' = (trace w ++ deliveries w (alertQueue w))%list
      /\ alertQueue w' = [] /\ isProcessing w' = false)
  /\ (forall a, recipients (sends w a) = map email (administrators w))
  /\ (forall before a middle b after,
        alertQueue w = (before ++ a :: middle ++ b :: after)%list ->
        exists gap,
          deliveries w (alertQueue w)
          = (deliveries w before ++ sends w a ++ gap ++ sends w b
             ++ [Sleep 1000] ++ deliveries w after)%list
          /\ 1000 <= elapsed gap).
Proof.
  intros Ht Hp Hq Hu. split; [|split].
  - unfold processNotificationQueue, bind, gets. cbn [id]. rewrite Hp. cbn [orb].
    destruct (alertQueue w) as [|a rest] eqn:Hqueue.
    + cbn. unfold ret. exists w. unfold deliveries. cbn. rewrite app_nil_r. auto.
    + change (Z.of_nat (length (a :: rest)) =? 0) with false. cbn iota.
      unfold modify at 1. unfold try_catch.
      rewrite (drain_spec (a :: rest) (set_isProcessing true w) Ht Hq Hu Hqueue).
      unfold modify. eexists. split; [reflexivity|]. cbn. auto.
  - intros a. apply recipients_sends.
  - intros before a middle b after ->. apply deliveries_gap.
Qed.

(** Whatever the state of the service, a notification only adds events. *)
Lemma sendNotifications_frame (a : QueuedAlert) (w : World) :
  exists evs, sendNotifications a w = (Ok tt, extend evs w).
Proof.
  unfold sendNotifications, try_catch, bind. rewrite getAdministrators_spec.
  destruct (if query_fails w SelectAdministrators then [] else administrators w) as [|u l].
  - exists []. rewrite extend_nil. reflexivity.
  - rewrite getUserInfo_spec. unfold sendEmailNotifications, bind, gets, try_catch. cbn [id].
    destruct (emailTransporter w); cbn [negb].
    + rewrite getEmailTemplate_spec.
      destruct (prepareEmailContent _ _ _ _) as [c|e].
      * rewrite send_to_each_spec. eauto.
      * exists []. rewrite extend_nil. reflexivity.
    + exists []. rewrite extend_nil. reflexivity.
Qed.

Lemma drain_frame (fuel : nat) (w : World) :
  exists evs queue, drain fuel w = (Ok tt, set_alertQueue queue (extend evs w)).
Proof.
  revert w. induction fuel as [|fuel IH]; intros w.
  - exists [], (alertQueue w). cbn. rewrite extend_nil. destruct w. reflexivity.
  - cbn [drain]. unfold bind at 1. unfold gets at 1. cbn [id].
    destruct (alertQueue w) as [|a rest] eqn:Hq.
    + exists [], []. rewrite extend_nil. destruct w. cbn in *. subst. reflexivity.
    + unfold bind at 1. unfold modify at 1. unfold bind at 1.
      destruct (sendNotifications_frame a (set_alertQueue rest w)) as (evs & ->).
      unfold bind at 1. unfold sleep, modify.
      destruct (IH (emit (Sleep 1000) (extend evs (set_alertQueue rest w)))) as (evs' & q' & ->).
      exists (evs ++ [Sleep 1000] ++ evs')%list, q'. f_equal.
      unfold set_alertQueue, extend, emit. cbn. rewrite <- !app_assoc. reflexivity.
Qed.

Lemma processNotificationQueue_frame (w : World) :
  exists w', processNotificationQueue w = (Ok tt, w')
             /\ security_alerts w' = security_alerts w.
Proof.
  unfold processNotificationQueue, bind, gets. cbn [id].
  destruct (isProcessing w || _); [exists w; split; reflexivity|].
  unfold modify at 1. unfold try_catch.
  destruct (drain_frame (length (alertQueue w)) (set_isProcessing true w)) as (evs & q & ->).
  eexists. split; reflexivity.
Qed.

Lemma start_worker_frame (w : World) :
  exists w', start_worker w = (Ok tt, w')
             /\ security_alerts w' = security_alerts w
             /\ emailTransporter w' = emailTransporter w
             /\ trace w' = trace w.
Proof.
  unfold start_worker, bind, gets, modify, ret. cbn [id].
  destruct (isProcessing w || _); [exists w; auto|].
  destruct (alertQueue w); eexists; split; try reflexivity; auto.
Qed.

Lemma resume_worker_frame (w : World) :
  exists w', resume_worker w = (Ok tt, w')
             /\ security_alerts w' = security_alerts w
             /\ emailTransporter w' = emailTransporter w.
Proof.
  unfold resume_worker, bind, gets. cbn [id].
  destruct (inFlight w) as [a|]; [|exists w; auto].
  unfold modify at 1. unfold try_catch, bind.
  destruct (sendNotifications_frame a (set_inFlight None w)) as (evs & ->).
  unfold sleep, modify.
  destruct (drain_frame (length (alertQueue w))
              (emit (Sleep 1000) (extend evs (set_inFlight None w)))) as (evs' & q & ->).
  eexists. split; [reflexivity|]. split; reflexivity.
Qed.

Lemma shouldSendNotification_frame (alertType severity : string) (w : World) :
  exists b, shouldSendNotification alertType severity w = (Ok b, w).
Proof.
  unfold shouldSendNotification, try_catch, bind, query, ret.
  destruct (query_fails w SelectAlertAdministrators); [eauto|].
  destruct (security_settings w !! "alert_administrators") as [v|]; [|eauto].
  destruct (negb (String.eqb v "true")); eauto.
Qed.

(** Creating an alert leaves the table as it was, or adds a row under an
    id the table did not hold. *)
Lemma createSecurityAlert_alerts (alertData : AlertData) (w : World) :
  exists r w',
    createSecurityAlert alertData w = (r, w')
    /\ (security_alerts w' = security_alerts w
        \/ exists alertId,
             security_alerts w !! alertId = None
             /\ security_alerts w' = <[alertId := new_alert_row (now w) alertData]> (security_alerts w)).
Proof.
  unfold createSecurityAlert, try_catch. unfold bind at 1. unfold query at 1.
  destruct (query_fails w InsertAlert).
  { unfold throw. eexists _, _. split; [reflexivity | left; reflexivity]. }
  unfold bind at 1. unfold modify at 1. unfold bind at 1.
  match goal with |- context [shouldSendNotification ?t ?s ?x] =>
    destruct (shouldSendNotification_frame t s x) as (b & ->) end.
  unfold bind at 1.
  assert (security_alerts w !! fresh (dom (security_alerts w)) = None) as Hfresh.
  { apply not_elem_of_dom. apply is_fresh. }
  destruct b.
  - unfold bind at 1. unfold modify at 1.
    match goal with |- context [start_worker ?x] =>
      destruct (start_worker_frame x) as (x' & -> & Ha & _) end.
    unfold ret. eexists _, _. split; [reflexivity|]. right. eexists. split; [exact Hfresh|].
    rewrite Ha. reflexivity.
  - unfold ret. eexists _, _. split; [reflexivity|]. right. eexists. split; [exact Hfresh|].
    reflexivity.
Qed.

End Delivery.

End NotifyFacts.

(** ** The lifecycle of an alert *)

Module AlertFacts.

Import Notify SecurityRoutes AlertOps NotifySpec NotifyFacts AlertSpec.

Lemma resolveAlert_spec (alertId resolvedBy : Z) (notes : option string) (w : World) :
  resolveAlert alertId resolvedBy notes w
  = if query_fails w UpdateResolved
    then (Throw (QueryError "query"), w)
    else (Ok tt, set_security_alerts
                   (alter (resolved_row (now w) resolvedBy notes) alertId (security_alerts w)) w).
Proof.
  unfold resolveAlert, try_catch, bind, query, modify, throw.
  destruct (query_fails w UpdateResolved); reflexivity.
Qed.

Section Lifecycle.
Context `{rt : Runtime}.

Lemma sanitize_notes_valid (alertId : Z) (notes : option string) :
  valid_request alertId notes ->
  (1 <=? alertId) = true /\ sanitize_notes notes = Some (stored_notes notes).
Proof.
  intros [H1 H2]. split; [apply Z.leb_le; exact H1|].
  unfold sanitize_notes, stored_notes. destruct notes as [text|]; [|reflexivity].
  rewrite (H2 text eq_refl). reflexivity.
Qed.

Lemma sanitize_notes_invalid (alertId : Z) (notes : option string) :
  ~ valid_request alertId notes ->
  (1 <=? alertId) = false \/ sanitize_notes notes = None.
Proof.
  intros Hn. destruct (1 <=? alertId) eqn:E1; [right | left; reflexivity].
  apply Z.leb_le in E1. unfold sanitize_notes. destruct notes as [text|].
  - destruct (validator_isLength_max 1000 (validator_trim text)) eqn:E2; [|reflexivity].
    exfalso. apply Hn. split; [exact E1|]. intros text' [= <-]. exact E2.
  - exfalso. apply Hn. split; [exact E1 | discriminate].
Qed.

Lemma resolve_route_resolved (alertId : Z) (notes : option string) (resolvedBy : Z)
    (w : World) (row : AlertRow) :
  security_alerts w !! alertId = Some row ->
  is_resolved row = true ->
  exists status,
    resolve_route alertId notes resolvedBy w = (Ok (Json status), w)
    /\ status <> 200
    /\ (valid_request alertId notes -> query_fails w SelectAlert = false -> status = 400).
Proof.
  intros Hrow Hres. unfold resolve_route.
  destruct (1 <=? alertId) eqn:E1; cbn [negb].
  2:{ exists 400. unfold ret. split; [reflexivity | split; [lia | reflexivity]]. }
  destruct (sanitize_notes notes) as [notes'|] eqn:E2.
  2:{ exists 400. unfold ret. split; [reflexivity | split; [lia | reflexivity]]. }
  unfold try_catch, bind, query.
  destruct (query_fails w SelectAlert).
  - exists 500. unfold ret. split; [reflexivity | split; [lia | discriminate]].
  - rewrite Hrow, Hres. exists 400. unfold ret. split; [reflexivity | split; [lia | reflexivity]].
Qed.

Lemma resolve_route_open (alertId : Z) (notes : option string) (resolvedBy : Z)
    (w : World) (row : AlertRow) :
  security_alerts w !! alertId = Some row ->
  is_resolved row = false ->
  valid_request alertId notes ->
  query_fails w SelectAlert = false ->
  query_fails w UpdateResolved = false ->
  resolve_route alertId notes resolvedBy w
  = (Ok (Json 200),
     set_security_alerts
       (<[alertId := resolved_row (now w) resolvedBy (stored_notes notes) row]>
          (security_alerts w)) w).
Proof.
  intros Hrow Hres Hv Hs Hu. unfold resolve_route.
  destruct (sanitize_notes_valid alertId notes Hv) as [-> ->]. cbn [negb].
  unfold try_catch, bind, query. rewrite Hs, Hrow, Hres.
  rewrite resolveAlert_spec, Hu. unfold ret. do 2 f_equal.
  apply map_eq. intros i. rewrite lookup_insert.
  destruct (decide (alertId = i)) as [<-|Hne].
  - rewrite lookup_alter_eq, Hrow. reflexivity.
  - rewrite lookup_alter_ne by exact Hne. reflexivity.
Qed.

(** The route changes the table by resolving an open alert, or not at all. *)
Lemma resolve_route_alerts (alertId : Z) (notes : option string) (resolvedBy : Z) (w : World) :
  security_alerts (resolve_route alertId notes resolvedBy w).2 = security_alerts w
  \/ (exists row notes',
        security_alerts w !! alertId = Some row /\ is_resolved row = false
        /\ security_alerts (resolve_route alertId notes resolvedBy w).2
           = alter (resolved_row (now w) resolvedBy notes') alertId (security_alerts w)).
Proof.
  unfold resolve_route.
  destruct (negb (1 <=? alertId)); [left; reflexivity|].
  destruct (sanitize_notes notes) as [notes'|]; [|left; reflexivity].
  unfold try_catch, bind, query.
  destruct (query_fails w SelectAlert); [left; reflexivity|].
  destruct (security_alerts w !! alertId) as [row|] eqn:Hrow; [|left; reflexivity].
  destruct (is_resolved row) eqn:Hres; [left; reflexivity|].
  rewrite resolveAlert_spec.
  destruct (query_fails w UpdateResolved); [left; reflexivity|].
  right. exists row, notes'. auto.
Qed.

Lemma step_keeps_resolved (w : World) (op : Op) (alertId : Z) :
  resolved_in w alertId -> resolved_in (step w op) alertId.
Proof.
  intros (row & Hrow & Hres). unfold resolved_in.
  destruct op as [a|id by' notes|id notes by'| |t]; cbn [step].
  - destruct (createSecurityAlert_alerts a w) as (r & w' & E & Hcase); rewrite E; cbn [snd];
      destruct Hcase as [E2 | (id & Hnone & E2)]; rewrite E2.
    + eauto.
    + exists row. split; [|exact Hres]. rewrite lookup_insert_ne; [exact Hrow | congruence].
  - rewrite resolveAlert_spec. destruct (query_fails w UpdateResolved); cbn; [eauto|].
    destruct (decide (id = alertId)) as [->|Hne].
    + rewrite lookup_alter_eq, Hrow. cbn. eauto.
    + rewrite lookup_alter_ne by exact Hne. eauto.
  - destruct (resolve_route_alerts id notes by' w)
      as [E | (row' & notes' & Hrow' & Hres' & E)]; rewrite E; [eauto|].
    destruct (decide (id = alertId)) as [->|Hne].
    + rewrite lookup_alter_eq, Hrow. cbn. eauto.
    + rewrite lookup_alter_ne by exact Hne. eauto.
  - destruct (resume_worker_frame w) as (w' & E & Ha & _). rewrite E. cbn [snd].
    rewrite Ha. eauto.
  - cbn. eauto.
Qed.

Lemma step_keeps_row (w : World) (op : Op) (alertId : Z) (row : AlertRow) :
  exposed op ->
  security_alerts w !! alertId = Some row -> is_resolved row = true ->
  security_alerts (step w op) !! alertId = Some row.
Proof.
  intros Hop Hrow Hres. destruct op as [a|id by' notes|id notes by'| |t]; cbn [step].
  - destruct (createSecurityAlert_alerts a w) as (r & w' & E & Hcase); rewrite E; cbn [snd];
      destruct Hcase as [E2 | (id & Hnone & E2)]; rewrite E2.
    + exact Hrow.
    + rewrite lookup_insert_ne; [exact Hrow | congruence].
  - destruct Hop.
  - destruct (resolve_route_alerts id notes by' w)
      as [E | (row' & notes' & Hrow' & Hres' & E)]; rewrite E; [exact Hrow|].
    destruct (decide (id = alertId)) as [->|Hne].
    + congruence.
    + rewrite lookup_alter_ne by exact Hne. exact Hrow.
  - destruct (resume_worker_frame w) as (w' & E & Ha & _). rewrite E. cbn [snd].
    rewrite Ha. exact Hrow.
  - exact Hrow.
Qed.

Lemma steps_keep_resolved (ops : list Op) (w : World) (alertId : Z) :
  resolved_in w alertId -> resolved_in (steps w ops) alertId.
Proof.
  revert w. induction ops as [|op ops IH]; intros w H; [exact H|].
  cbn. apply IH. apply step_keeps_resolved. exact H.
Qed.

Lemma steps_keep_row (ops : list Op) (w : World) (alertId : Z) (row : AlertRow) :
  Forall exposed ops ->
  security_alerts w !! alertId = Some row -> is_resolved row = true ->
  security_alerts (steps w ops) !! alertId = Some row.
Proof.
  revert w. induction ops as [|op ops IH]; intros w Hall Hrow Hres; [exact Hrow|].
  apply Forall_cons in Hall as [Hop Hall].
  cbn. apply IH; [exact Hall | | exact Hres].
  apply step_keeps_row; assumption.
Qed.

(** C5. For an alert in the table. While it is open, a valid resolve
    request that the database serves is answered 200 and leaves the row
    with the resolved flag set, the administrator of the request as
    resolver, the time of the call as resolved_at and the trimmed notes
    of the request as notes; the alert itself, its time of creation and
    every other row are as they were. Once it is resolved, every further
    resolve request is answered with an error (400 when the request is
    valid and the row can be read) and changes nothing; whatever the
    services, the worker and the route do next, the alert stays
    resolved, and through the route its row, with resolved_at and
    resolved_by, stays as the first resolution left it. *)
Theorem resolved_is_terminal (w : World) (alertId : Z) (row : AlertRow) :
  security_alerts w !! alertId = Some row ->
  (is_resolved row = false ->
   forall notes resolvedBy,
     valid_request alertId notes ->
     query_fails w SelectAlert = false ->
     query_fails w UpdateResolved = false ->
     exists w' row',
       resolve_route alertId notes resolvedBy w = (Ok (Json 200), w')
       /\ security_alerts w' !! alertId = Some row'
       /\ is_resolved row' = true
       /\ resolved_by row' = Some resolvedBy
       /\ resolved_at row' = Some (now w)
       /\ resolution_notes row' = stored_notes notes
       /\ row_alert row' = row_alert row
       /\ created_at row' = created_at row
       /\ (forall other, other <> alertId ->
             security_alerts w' !! other = security_alerts w !! other)
       /\ resolved_in w' alertId)
  /\ (is_resolved row = true ->
      (forall notes resolvedBy,
          exists status,
            resolve_route alertId notes resolvedBy w = (Ok (Json status), w)
            /\ status <> 200
            /\ (valid_request alertId notes -> query_fails w SelectAlert = false ->
                status = 400))
      /\ (forall ops, resolved_in (steps w ops) alertId)
      /\ (forall ops, Forall exposed ops -> security_alerts (steps w ops) !! alertId = Some row)).
Proof.
  intros Hrow. split.
  - intros Hopen notes resolvedBy Hv Hs Hu.
    rewrite (resolve_route_open alertId notes resolvedBy w row Hrow Hopen Hv Hs Hu).
    eexists _, (resolved_row (now w) resolvedBy (stored_notes notes) row).
    split; [reflexivity|].
    assert (security_alerts
              (set_security_alerts
                 (<[alertId := resolved_row (now w) resolvedBy (stored_notes notes) row]>
                    (security_alerts w)) w) !! alertId
            = Some (resolved_row (now w) resolvedBy (stored_notes notes) row)) as Hrow'.
    { cbn. apply lookup_insert_eq. }
    split; [exact Hrow'|].
    split; [reflexivity|]. split; [reflexivity|]. split; [reflexivity|].
    split; [reflexivity|]. split; [reflexivity|]. split; [reflexivity|].
    split.
    + intros other Hother. cbn. apply lookup_insert_ne. congruence.
    + eexists. split; [exact Hrow' | reflexivity].
  - intros Hres. split; [|split].
    + intros notes resolvedBy. eapply resolve_route_resolved; eassumption.
    + intros ops. apply steps_keep_resolved. exists row. auto.
    + intros ops Hall. apply steps_keep_row; assumption.
Qed.
End Lifecycle.

Import NotifyScenario.

Lemma resolved_is_terminal_witness :
  exists w' row',
    resolve_route (H := Sample.runtime) 1 (Some " checked ") 42 (office false)
    = (Ok (Json 200), w')
    /\ security_alerts w' !! 1 = Some row'
    /\ is_resolved row' = true
    /\ resolved_by row' = Some 42
    /\ resolved_at row' = Some 1700000000000
    /\ resolution_notes row' = Some "checked".
Proof.
  assert (valid_request (H := Sample.runtime) 1 (Some " checked ")) as Hv.
  { split; [lia|]. intros text [= <-]. vm_compute. reflexivity. }
  destruct (proj1 (@resolved_is_terminal Sample.runtime (office false) 1
                     (new_alert_row 1699999999000 intrusion) eq_refl)
              eq_refl (Some " checked ") 42 Hv eq_refl eq_refl)
    as (w' & row' & E & Hrow & Hflag & Hby & Hat & Hnotes & _).
  exists w', row'. split; [exact E|]. split; [exact Hrow|]. split; [exact Hflag|].
  split; [exact Hby|]. split; [exact Hat|]. rewrite Hnotes. vm_compute. reflexivity.
Defined.

(** The second request, an hour later, by another administrator. *)
Example second_resolution_rejected :
  (resolve_route (H := Sample.runtime) 1 (Some "again") 43
     (set_now 1700003600000
        (resolve_route (H := Sample.runtime) 1 (Some "checked") 42 (office false)).2)).1
  = Ok (Json 400).
Proof. vm_compute. reflexivity. Qed.

End AlertFacts.

(** ** Distance *)

Module DistanceFacts.

Import Geo.

Section Distance.

Context `{rt : Runtime}.

(** The answer is null exactly when some coordinate is falsy: null,
    undefined, NaN or zero. *)
Lemma calculateDistance_null (lat1 lon1 lat2 lon2 : option float) :
  calculateDistance lat1 lon1 lat2 lon2 = None
  <-> js_not lat1 || js_not lon1 || js_not lat2 || js_not lon2 = true.
Proof.
  unfold calculateDistance.
  destruct (js_not lat1 || js_not lon1 || js_not lat2 || js_not lon2);
    split; intros H; try reflexivity; discriminate.
Qed.

(** Null one way is null the other way. *)
Lemma calculateDistance_null_sym (lat1 lon1 lat2 lon2 : option float) :
  calculateDistance lat1 lon1 lat2 lon2 = None
  <-> calculateDistance lat2 lon2 lat1 lon1 = None.
Proof.
  rewrite !calculateDistance_null.
  destruct (js_not lat1), (js_not lon1), (js_not lat2), (js_not lon2);
    cbn; split; intros H; reflexivity || discriminate.
Qed.

(** C6. A point on the equator or on the prime meridian has a
    coordinate 0, which the guard takes for a missing one: the distance
    from (0, 0) to itself is null, not 0, and so is a distance between
    two points none of whose coordinates is missing. *)
Theorem zero_coordinate_is_taken_for_missing :
  calculateDistance (Some 0%float) (Some 0%float) (Some 0%float) (Some 0%float) = None
  /\ calculateDistance (Some 0%float) (Some 10%float) (Some 20%float) (Some 30%float) = None.
Proof. split; reflexivity. Qed.

End Distance.

End DistanceFacts.

(** ** The request budget of the resolver *)

Module BudgetFacts.
Import Geo GeoSpec GeoFacts GeoBudget.

Lemma step_count_comm (ws j1 j2 z1 z2 y : Z) :
  step_count ws j1 z1 (step_count ws j2 z2 y) = step_count ws j2 z2 (step_count ws j1 z1 y).
Proof. unfold step_count. destruct (ws <=? j1), (ws <=? j2); lia. Qed.

Lemma count_requests_empty (ws : Z) : count_requests ws ∅ = 0.
Proof. unfold count_requests. apply map_fold_empty. Qed.

Lemma count_requests_insert (ws k v : Z) (c : gmap Z Z) :
  c !! k = None ->
  count_requests ws (<[k := v]> c) = count_requests ws c + (if ws <=? k then v else 0).
Proof.
  intros Hk. unfold count_requests.
  rewrite map_fold_insert_L; [|intros; apply step_count_comm|exact Hk].
  destruct (ws <=? k); lia.
Qed.

Lemma count_requests_delete (ws k : Z) (c : gmap Z Z) :
  count_requests ws c
  = count_requests ws (delete k c) + (if ws <=? k then default 0 (c !! k) else 0).
Proof.
  destruct (c !! k) as [v|] eqn:Hk.
  - rewrite <- (insert_delete_id c k v Hk) at 1.
    rewrite count_requests_insert; [reflexivity | apply lookup_delete_eq].
  - rewrite delete_id by exact Hk. cbn. destruct (ws <=? k); lia.
Qed.

Lemma count_requests_update (ws k v : Z) (c : gmap Z Z) :
  count_requests ws (<[k := v]> c)
  = count_requests ws c + (if ws <=? k then v - default 0 (c !! k) else 0).
Proof.
  rewrite <- insert_delete_eq.
  rewrite count_requests_insert by apply lookup_delete_eq.
  rewrite (count_requests_delete ws k c). destruct (ws <=? k); lia.
Qed.

Lemma count_requests_prune (ws : Z) (c : gmap Z Z) :
  count_requests ws (prune_counters ws c) = count_requests ws c.
Proof.
  induction c as [|k v c Hk IH] using map_ind.
  - unfold prune_counters. rewrite map_filter_empty. reflexivity.
  - unfold prune_counters in *.
    destruct (decide (ws <= k)) as [Hle|Hle].
    + rewrite map_filter_insert_True by exact Hle.
      rewrite !count_requests_insert; [rewrite IH; reflexivity|exact Hk|].
      rewrite map_lookup_filter_None. left. exact Hk.
    + rewrite map_filter_insert_not by (intros y; cbn; lia).
      rewrite count_requests_insert by exact Hk. rewrite IH.
      destruct (ws <=? k) eqn:E; [apply Z.leb_le in E; lia | lia].
Qed.

Lemma current_minute_in_window (now : Z) : now - 60000 <= now / 60000 * 60000.
Proof. pose proof (Z.mod_pos_bound now 60000 ltac:(lia)). pose proof (Z.div_mod now 60000 ltac:(lia)). lia. Qed.

End BudgetFacts.

(** ** Resolve in closed form *)

Module ResolveFacts.
Import Geo GeoSpec GeoFacts GeoBudget BudgetFacts GeoSpec2.
Local Open Scope js_scope.


Lemma checkRateLimit_shape (w : World) (provider : Provider) :
  providers (currentProvider w) = Some provider ->
  checkRateLimit w =
    let counter := prune_counters (windowStart w) (rateLimitCounter w) in
    if rateLimit provider <=? requests_in_window w
    then (Ok false, set_rateLimitCounter counter w)
    else (Ok true,
          set_rateLimitCounter
            (<[now w / 60000 * 60000 := default 0 (counter !! (now w / 60000 * 60000)) + 1]> counter) w).
Proof.
  intros Hp. unfold checkRateLimit, bind, gets, modify, ret, requests_in_window, windowStart.
  cbn [id]. rewrite Hp. cbn -[Z.mul Z.div Z.sub Z.add Z.leb prune_counters count_requests].
  rewrite count_requests_prune.
  destruct (rateLimit provider <=? _); reflexivity.
Qed.

Section Resolve.

Context `{rt : Runtime}.

(** The upstream request in closed form. *)
Lemma fetchFromAPI_shape (ip : string) (w : World) :
  fetchFromAPI ip w =
    match providers (currentProvider w) with
    | None => (Throw (UnknownProvider (currentProvider w)), w)
    | Some provider =>
        let counter := prune_counters (windowStart w) (rateLimitCounter w) in
        if rateLimit provider <=? requests_in_window w
        then (Throw RateLimitExceeded, set_rateLimitCounter counter w)
        else
          let w1 := emit (HttpGet (currentProvider w) ip)
                      (set_rateLimitCounter
                         (<[now w / 60000 * 60000
                            := default 0 (counter !! (now w / 60000 * 60000)) + 1]> counter) w) in
          match axios_get w (currentProvider w) ip with
          | None => (Throw HttpError, w1)
          | Some data => (Ok (normalizeResponse (currentProvider w) data), w1)
          end
    end.
Proof.
  unfold fetchFromAPI, bind, gets. cbn [id].
  destruct (providers (currentProvider w)) as [provider|] eqn:Hp; [|reflexivity].
  rewrite (checkRateLimit_shape w provider Hp). cbv zeta.
  destruct (rateLimit provider <=? requests_in_window w); cbn [negb]; [reflexivity|].
  unfold modify. 
  destruct (axios_get w (currentProvider w) ip); reflexivity.
Qed.

(** What a request leaves behind, whatever its outcome: the clock, the
    provider, the cache and the database are as they were; the trace
    gains the request if it was made and the counter counts it. *)
Lemma fetchFromAPI_frame (ip : string) (w : World) :
  let w1 := (fetchFromAPI ip w).2 in
  now w1 = now w /\ currentProvider w1 = currentProvider w
  /\ ip_geolocation_cache w1 = ip_geolocation_cache w
  /\ select_fails w1 = select_fails w /\ upsert_fails w1 = upsert_fails w
  /\ axios_get w1 = axios_get w
  /\ exists calls : nat,
       (calls <= 1)%nat
       /\ trace w1 = (trace w ++ repeat (HttpGet (currentProvider w) ip) calls)%list
       /\ requests_in_window w1 = requests_in_window w + Z.of_nat calls
       /\ (calls = 1%nat -> requests_in_window w < request_limit w)
       /\ (calls = 0%nat -> exists e, (fetchFromAPI ip w).1 = Throw e).
Proof.
  rewrite fetchFromAPI_shape. unfold request_limit.
  destruct (providers (currentProvider w)) as [provider|] eqn:Hp.
  - cbv zeta. destruct (rateLimit provider <=? requests_in_window w) eqn:Hr.
    + cbn [snd fst]. repeat (split; [reflexivity|]). exists 0%nat.
      split; [lia|]. split; [cbn; rewrite app_nil_r; reflexivity|].
      split; [|split; [discriminate | eauto]].
      unfold requests_in_window, windowStart. cbn.
      rewrite count_requests_prune. lia.
    + apply Z.leb_gt in Hr.
      assert (forall r : Result LocationInfo,
                 let w1 := emit (HttpGet (currentProvider w) ip)
                             (set_rateLimitCounter
                                (<[now w / 60000 * 60000
                                   := default 0 (prune_counters (windowStart w) (rateLimitCounter w)
                                                   !! (now w / 60000 * 60000)) + 1]>
                                   (prune_counters (windowStart w) (rateLimitCounter w))) w) in
                 now w1 = now w /\ currentProvider w1 = currentProvider w
                 /\ ip_geolocation_cache w1 = ip_geolocation_cache w
                 /\ select_fails w1 = select_fails w /\ upsert_fails w1 = upsert_fails w
                 /\ axios_get w1 = axios_get w
                 /\ exists calls : nat,
                      (calls <= 1)%nat
                      /\ trace w1 = (trace w ++ repeat (HttpGet (currentProvider w) ip) calls)%list
                      /\ requests_in_window w1 = requests_in_window w + Z.of_nat calls
                      /\ (calls = 1%nat -> requests_in_window w < rateLimit provider)
                      /\ (calls = 0%nat -> exists e, r = Throw e)) as H.
      { intros r w1. repeat (split; [reflexivity|]). exists 1%nat.
        split; [lia|]. split; [reflexivity|].
        split; [|split; [intros _; exact Hr | discriminate]].
        unfold requests_in_window, windowStart. cbn -[Z.mul Z.div Z.sub Z.add Z.leb prune_counters count_requests].
        rewrite count_requests_update, count_requests_prune.
        pose proof (current_minute_in_window (now w)) as Hc.
        apply Z.leb_le in Hc. rewrite Hc. unfold windowStart. lia. }
      destruct (axios_get w (currentProvider w) ip); cbn [snd fst]; apply H.
  - cbv zeta. cbn [snd fst]. repeat (split; [reflexivity|]). exists 0%nat.
    split; [lia|]. split; [cbn; rewrite app_nil_r; reflexivity|].
    split; [cbn; lia | split; [discriminate | eauto]].
Qed.

(** A lookup that cannot use the cache, in terms of the request. *)
Lemma getLocationInfo_miss (ip : string) (w : World) :
  isValidIP ip = true -> isPrivateIP ip = false -> cache_miss w ip ->
  getLocationInfo ip w =
    match fetchFromAPI ip (emit (CacheSelect ip) w) with
    | (Ok l, w1) =>
        (Ok l,
         if upsert_fails w then emit (CacheUpsert ip) w1
         else set_cache (<[ip := cache_row (now w) l]> (ip_geolocation_cache w))
                (emit (CacheUpsert ip) w1))
    | (Throw _, w1) => (Ok getDefaultLocationInfo, w1)
    end.
Proof.
  intros Hv Hp Hm.
  remember (emit (CacheSelect ip) w) as w0 eqn:Hw0.
  assert (select_fails w0 = select_fails w /\ ip_geolocation_cache w0 = ip_geolocation_cache w
          /\ now w0 = now w /\ upsert_fails w0 = upsert_fails w) as (Hs0 & Hc0 & Hn0 & Hu0).
  { subst w0. repeat split. }
  pose proof (fetchFromAPI_frame ip w0) as Hf. cbv zeta in Hf.
  destruct Hf as (Hnow & _ & Hcache & _ & Hup & _).
  rewrite Hn0 in Hnow. rewrite Hc0 in Hcache. rewrite Hu0 in Hup.
  unfold getLocationInfo, try_catch, getCachedLocation, saveCachedLocation,
    try_catch, bind, gets, modify, ret, throw.
  rewrite Hv, Hp. cbn [negb orb id]. rewrite <- Hw0, Hs0, Hc0.
  assert (match (if select_fails w then None else ip_geolocation_cache w !! ip) with
          | Some entry => isCacheValid (now w) entry = false
          | None => True
          end) as Hskip.
  { destruct Hm as [-> | Hm]; [exact I|]. destruct (select_fails w); [exact I | exact Hm]. }
  destruct (fetchFromAPI ip w0) as [[l|e] w1] eqn:Hfetch; cbn [snd] in *.
  - assert ((if upsert_fails w then emit (CacheUpsert ip) w1
             else set_cache (<[ip := cache_row (now w) l]> (ip_geolocation_cache w))
                    (emit (CacheUpsert ip) w1))
            = (if upsert_fails w1 then emit (CacheUpsert ip) w1
               else set_cache (<[ip := cache_row (now w1) l]> (ip_geolocation_cache w1))
                      (emit (CacheUpsert ip) w1))) as ->.
    { rewrite Hup, Hnow, Hcache. reflexivity. }
    destruct (select_fails w); cbn [fst snd].
    + rewrite Hfetch. cbn. destruct (upsert_fails w1); reflexivity.
    + destruct (ip_geolocation_cache w !! ip) as [entry|].
      * rewrite Hn0, Hskip, Hfetch. cbn. destruct (upsert_fails w1); reflexivity.
      * rewrite Hfetch. cbn. destruct (upsert_fails w1); reflexivity.
  - destruct (select_fails w); cbn [fst snd].
    + rewrite Hfetch. reflexivity.
    + destruct (ip_geolocation_cache w !! ip) as [entry|].
      * rewrite Hn0, Hskip, Hfetch. reflexivity.
      * rewrite Hfetch. reflexivity.
Qed.

End Resolve.
End ResolveFacts.

(** ** What the geolocation service guarantees *)

Module ServiceFacts.
Import Geo GeoSpec GeoFacts GeoBudget BudgetFacts GeoSpec2 ResolveFacts GeoMaintenance.
Local Open Scope js_scope.


Lemma default_plain : plain getDefaultLocationInfo.
Proof. repeat split. Qed.

Lemma cache_row_plain (now : Z) (l : LocationInfo) : plain l -> plain (cache_row now l).
Proof. intros H. exact H. Qed.

Section Service.

Context `{rt : Runtime}.

Lemma normalizeResponse_plain (provider : string) (data : ApiData) :
  plain (normalizeResponse provider data).
Proof.
  unfold normalizeResponse, plain.
  destruct (String.eqb provider "ipapi").
  - destruct (d_status data) as [status|]; [|repeat split].
    destruct (String.eqb status "success"); repeat split.
  - destruct (String.eqb provider "ipinfo"); repeat split.
Qed.

(** A lookup for an address that passes the checks either is answered
    from the cache or cannot use it. *)
Lemma hit_or_miss (ip : string) (w : World) :
  (select_fails w = false
   /\ exists entry, ip_geolocation_cache w !! ip = Some entry
                    /\ isCacheValid (now w) entry = true)
  \/ cache_miss w ip.
Proof.
  unfold cache_miss. destruct (select_fails w); [right; left; reflexivity|].
  destruct (ip_geolocation_cache w !! ip) as [entry|]; [|right; right; exact I].
  destruct (isCacheValid (now w) entry) eqn:E; [left; eauto | right; right; reflexivity].
Qed.

(** What the service answers and what it leaves in the cache is plain,
    when the cache was. *)
Lemma getLocationInfo_plain (ip : string) (w : World) :
  cache_plain w ->
  exists l w', getLocationInfo ip w = (Ok l, w') /\ plain l /\ cache_plain w'.
Proof.
  intros Hc.
  destruct (isValidIP ip) eqn:Hv;
    [|rewrite getLocationInfo_rejected by (left; exact Hv);
      eauto using default_plain].
  destruct (isPrivateIP ip) eqn:Hp;
    [rewrite getLocationInfo_rejected by (right; exact Hp);
      eauto using default_plain|].
  destruct (hit_or_miss ip w) as [(Hs & entry & He & Hvalid) | Hm].
  - rewrite (cache_hit ip w entry Hv Hp Hs He Hvalid).
    exists entry, (emit (CacheSelect ip) w). split; [reflexivity|].
    split; [exact (Hc ip entry He) | exact Hc].
  - rewrite (getLocationInfo_miss ip w Hv Hp Hm).
    pose proof (fetchFromAPI_frame ip (emit (CacheSelect ip) w)) as Hf. cbv zeta in Hf.
    destruct Hf as (_ & _ & Hcache & _).
    pose proof (fetchFromAPI_shape ip (emit (CacheSelect ip) w)) as Hshape.
    destruct (fetchFromAPI ip (emit (CacheSelect ip) w)) as [[l|e] w1]; cbn [snd] in *.
    + assert (plain l) as Hl.
      { destruct (providers _); [|discriminate]. cbv zeta in Hshape.
        destruct (_ <=? _); [discriminate|].
        destruct (axios_get _ _ _); [|discriminate].
        injection Hshape as -> _. apply normalizeResponse_plain. }
      eexists _, _. split; [reflexivity|]. split; [exact Hl|].
      destruct (upsert_fails w).
      * intros ip' entry. cbn. rewrite Hcache. apply Hc.
      * intros ip' entry. cbn. rewrite lookup_insert. case_decide.
        -- intros [= <-]. exact Hl.
        -- apply Hc.
    + eexists _, _. split; [reflexivity|]. split; [apply default_plain|].
      intros ip' entry. rewrite Hcache. apply Hc.
Qed.

(** X6. The service never reports a VPN, a Tor exit or a high threat
    level: what an upstream answer normalises to has neither flag and a
    threat level of medium with the proxy flag and low without, and so
    has every answer of resolve and every row it leaves in the cache,
    when the rows of the cache had. *)
Theorem service_reports_no_vpn_or_tor (ip : string) (w : World) :
  (forall provider data, plain (normalizeResponse provider data))
  /\ (cache_plain w ->
      exists l w', getLocationInfo ip w = (Ok l, w') /\ plain l /\ cache_plain w').
Proof. split; [apply normalizeResponse_plain | apply getLocationInfo_plain]. Qed.

(** X4. With the budget of the minute spent (or no known provider), a
    lookup that cannot use the cache answers the default: the cache is
    read, no request is sent, nothing is written. *)
Theorem exhausted_budget_gives_default (ip : string) (w : World) :
  isValidIP ip = true -> isPrivateIP ip = false -> cache_miss w ip ->
  request_limit w <= requests_in_window w ->
  exists w', getLocationInfo ip w = (Ok getDefaultLocationInfo, w')
             /\ trace w' = (trace w ++ [CacheSelect ip])%list
             /\ ip_geolocation_cache w' = ip_geolocation_cache w.
Proof.
  intros Hv Hp Hm Hb. rewrite (getLocationInfo_miss ip w Hv Hp Hm), fetchFromAPI_shape.
  unfold request_limit in Hb.
  change (currentProvider (emit (CacheSelect ip) w)) with (currentProvider w).
  change (requests_in_window (emit (CacheSelect ip) w)) with (requests_in_window w).
  destruct (providers (currentProvider w)) as [provider|].
  - cbv zeta. apply Z.leb_le in Hb. rewrite Hb. eexists. split; [reflexivity|]. split; reflexivity.
  - eexists. split; [reflexivity|]. split; reflexivity.
Qed.


(** X2. What resolve fetches it serves from the cache afterwards: after a
    lookup that asked upstream and stored the answer, a lookup of the
    same address less than 24 hours later returns the stored row (the
    answer, stamped with the time of the first lookup) and only reads
    the cache; 24 hours later or more the row is no longer used. *)
Theorem fresh_answer_is_served_from_cache (ip : string) (w : World)
    (provider : Provider) (data : ApiData) :
  isValidIP ip = true -> isPrivateIP ip = false ->
  select_fails w = false -> upsert_fails w = false ->
  cache_miss w ip ->
  providers (currentProvider w) = Some provider ->
  requests_in_window w < rateLimit provider ->
  axios_get w (currentProvider w) ip = Some data ->
  exists w1,
    getLocationInfo ip w = (Ok (normalizeResponse (currentProvider w) data), w1)
    /\ (forall dt, dt < maxAge ->
          getLocationInfo ip (advance dt w1)
          = (Ok (cache_row (now w) (normalizeResponse (currentProvider w) data)),
             emit (CacheSelect ip) (advance dt w1)))
    /\ (forall dt, maxAge <= dt -> cache_miss (advance dt w1) ip).
Proof.
  intros Hv Hp Hs Hu Hm Hprov Hb Hdata.
  rewrite (getLocationInfo_miss ip w Hv Hp Hm), fetchFromAPI_shape, Hu.
  change (currentProvider (emit (CacheSelect ip) w)) with (currentProvider w).
  change (requests_in_window (emit (CacheSelect ip) w)) with (requests_in_window w).
  change (axios_get (emit (CacheSelect ip) w)) with (axios_get w).
  rewrite Hprov. cbv zeta. apply Z.leb_gt in Hb. rewrite Hb, Hdata.
  eexists. split; [reflexivity|]. split.
  - intros dt Hdt. apply cache_hit; try assumption.
    + cbn. apply lookup_insert_eq.
    + unfold isCacheValid. cbn. apply Z.ltb_lt. lia.
  - intros dt Hdt. right. cbn. rewrite lookup_insert_eq.
    unfold isCacheValid. cbn. apply Z.ltb_ge. lia.
Qed.


(** X3. Failures on the way are absorbed. When the provider does not
    answer, resolve answers the default and the cache is as it was (a
    stale row is neither served nor replaced). When the cache write
    fails, the upstream answer is still returned, and the cache is as it
    was, so the next lookup has to ask upstream again. *)
Theorem failures_are_absorbed (ip : string) (w : World) :
  isValidIP ip = true -> isPrivateIP ip = false -> cache_miss w ip ->
  (axios_get w (currentProvider w) ip = None ->
   exists w', getLocationInfo ip w = (Ok getDefaultLocationInfo, w')
              /\ ip_geolocation_cache w' = ip_geolocation_cache w)
  /\ (upsert_fails w = true ->
      forall provider data,
        providers (currentProvider w) = Some provider ->
        requests_in_window w < rateLimit provider ->
        axios_get w (currentProvider w) ip = Some data ->
        exists w', getLocationInfo ip w = (Ok (normalizeResponse (currentProvider w) data), w')
                   /\ ip_geolocation_cache w' = ip_geolocation_cache w
                   /\ cache_miss w' ip).
Proof.
  intros Hv Hp Hm.
  rewrite (getLocationInfo_miss ip w Hv Hp Hm), fetchFromAPI_shape.
  change (currentProvider (emit (CacheSelect ip) w)) with (currentProvider w).
  change (requests_in_window (emit (CacheSelect ip) w)) with (requests_in_window w).
  change (axios_get (emit (CacheSelect ip) w)) with (axios_get w).
  split.
  - intros Hnone. rewrite Hnone.
    destruct (providers (currentProvider w)) as [provider|]; [|eauto].
    cbv zeta. destruct (_ <=? _); eauto.
  - intros Hu provider data Hprov Hb Hdata. rewrite Hprov, Hdata, Hu. cbv zeta.
    apply Z.leb_gt in Hb. rewrite Hb.
    eexists. split; [reflexivity|]. split; [reflexivity|]. exact Hm.
Qed.

(** X7. The cleanup of the cache never throws, removes only rows older
    than 30 days and keeps every row a lookup would still use: a lookup
    answered from the cache before the cleanup is answered the same
    after it. When the DELETE fails nothing changes. *)
Theorem cleanup_keeps_usable_rows (delete_fails : bool) (w : World) :
  exists w',
    cleanupCache delete_fails w = (Ok tt, w')
    /\ (delete_fails = true -> w' = w)
    /\ (forall ip entry,
          ip_geolocation_cache w' !! ip = Some entry ->
          ip_geolocation_cache w !! ip = Some entry)
    /\ (forall ip entry,
          ip_geolocation_cache w !! ip = Some entry ->
          ip_geolocation_cache w' !! ip = None ->
          exists t, last_updated entry = Some t /\ t < now w - retention)
    /\ (forall ip entry,
          isValidIP ip = true -> isPrivateIP ip = false -> select_fails w = false ->
          ip_geolocation_cache w !! ip = Some entry ->
          isCacheValid (now w) entry = true ->
          getLocationInfo ip w' = (Ok entry, emit (CacheSelect ip) w')).
Proof.
  unfold cleanupCache, try_catch, throw, modify, ret.
  destruct delete_fails.
  - exists w. split; [reflexivity|]. split; [reflexivity|]. split; [auto|].
    split; [intros ip entry H1 H2; congruence |].
    intros ip entry Hv Hp Hs He Hvalid. apply cache_hit; assumption.
  - eexists. split; [reflexivity|]. split; [discriminate|].
    split; [|split].
    + intros ip entry H. cbn in H. apply map_lookup_filter_Some in H as [H _]. exact H.
    + intros ip entry H Hn. cbn in Hn. rewrite map_lookup_filter_None in Hn.
      destruct Hn as [Hn | Hn]; [congruence|].
      specialize (Hn entry H). cbn in Hn. unfold expired in Hn.
      destruct (last_updated entry) as [t|]; [|exfalso; apply Hn; reflexivity].
      exists t. split; [reflexivity|]. destruct (t <? now w - retention) eqn:E.
      * apply Z.ltb_lt in E. exact E.
      * exfalso. apply Hn. reflexivity.
    + intros ip entry Hv Hp Hs He Hvalid.
      apply cache_hit; try assumption.
      * cbn. apply map_lookup_filter_Some. split; [exact He|].
        cbn. unfold expired, isCacheValid in *.
        destruct (last_updated entry) as [t|]; [|reflexivity].
        apply Z.ltb_lt in Hvalid. apply Z.ltb_ge. unfold retention, maxAge in *. lia.
Qed.

(** X8. The threat report of an address never throws and is the
    location resolve gives, with the threat level set anew from the
    flags alone: medium with a proxy, VPN or Tor flag, low without. The
    level the location came with is not looked at, so a location rated
    high comes out as medium or low. *)
Theorem threat_report_ignores_stored_level (ip : string) (w : World) :
  exists l w',
    getLocationInfo ip w = (Ok l, w')
    /\ getThreatIntelligence ip w
       = (Ok {| ti_location :=
                  with_threat_level
                    (if is_proxy l || is_vpn l || is_tor l then "medium" else "low") l;
                threat_sources := Some [] |}, w')
    /\ (forall t, (getThreatIntelligence ip w).1 = Ok t ->
                  threat_level (ti_location t) <> Some "high")
    /\ (forall entry,
          isValidIP ip = true -> isPrivateIP ip = false -> select_fails w = false ->
          ip_geolocation_cache w !! ip = Some entry ->
          isCacheValid (now w) entry = true ->
          is_proxy entry || is_vpn entry || is_tor entry = false ->
          (getThreatIntelligence ip w).1
          = Ok {| ti_location := with_threat_level "low" entry; threat_sources := Some [] |}).
Proof.
  destruct (getLocationInfo_never_throws ip w) as (l & w' & Hl).
  exists l, w'. split; [exact Hl|].
  assert (getThreatIntelligence ip w
          = (Ok {| ti_location :=
                     with_threat_level
                       (if is_proxy l || is_vpn l || is_tor l then "medium" else "low") l;
                   threat_sources := Some [] |}, w')) as Ht.
  { unfold getThreatIntelligence, try_catch, bind, ret. rewrite Hl. reflexivity. }
  split; [exact Ht|]. split.
  - intros t. rewrite Ht. cbn [fst]. intros [= <-]. cbn.
    destruct (is_proxy l || is_vpn l || is_tor l); discriminate.
  - intros entry Hv Hp Hs He Hvalid Hflags.
    rewrite (cache_hit ip w entry Hv Hp Hs He Hvalid) in Hl.
    injection Hl as <- _. rewrite Ht, Hflags. reflexivity.
Qed.

End Service.

Import Scenario BudgetScenario.

Lemma threat_report_ignores_stored_level_witness :
  threat_level rated_high = Some "high"
  /\ (getThreatIntelligence (H := Sample.runtime) "8.8.4.4" rated_geo).1
     = Ok {| ti_location := with_threat_level "low" rated_high; threat_sources := Some [] |}.
Proof.
  destruct (@threat_report_ignores_stored_level Sample.runtime "8.8.4.4" rated_geo)
    as (l & w' & _ & _ & _ & Hhit).
  split; [reflexivity|].
  apply (Hhit rated_high); vm_compute; reflexivity.
Defined.

Lemma service_reports_no_vpn_or_tor_witness :
  exists l w',
    getLocationInfo (H := Sample.runtime) "8.8.8.8" cold_geo = (Ok l, w')
    /\ plain l /\ cache_plain w'.
Proof.
  apply (proj2 (@service_reports_no_vpn_or_tor Sample.runtime "8.8.8.8" cold_geo)).
  intros ip entry H. cbn in H. rewrite lookup_empty in H. discriminate.
Defined.

Lemma exhausted_budget_gives_default_witness :
  exists w', getLocationInfo (H := Sample.runtime) "8.8.8.8" spent_geo
             = (Ok getDefaultLocationInfo, w')
             /\ trace w' = (trace spent_geo ++ [CacheSelect "8.8.8.8"])%list
             /\ ip_geolocation_cache w' = ip_geolocation_cache spent_geo.
Proof.
  apply (@exhausted_budget_gives_default Sample.runtime "8.8.8.8" spent_geo).
  - vm_compute. reflexivity.
  - vm_compute. reflexivity.
  - right. exact I.
  - apply Z.leb_le. vm_compute. reflexivity.
Defined.


Lemma fresh_answer_is_served_from_cache_witness :
  exists w1,
    getLocationInfo (H := Sample.runtime) "8.8.8.8" cold_geo
    = (Ok (normalizeResponse (H := Sample.runtime) "ipapi" upstream_answer), w1)
    /\ (forall dt, dt < maxAge ->
          getLocationInfo (H := Sample.runtime) "8.8.8.8" (advance dt w1)
          = (Ok (cache_row (now cold_geo)
                   (normalizeResponse (H := Sample.runtime) "ipapi" upstream_answer)),
             emit (CacheSelect "8.8.8.8") (advance dt w1)))
    /\ (forall dt, maxAge <= dt -> cache_miss (advance dt w1) "8.8.8.8").
Proof.
  apply (@fresh_answer_is_served_from_cache Sample.runtime "8.8.8.8" cold_geo
           {| name := "ipapi"; rateLimit := 45 |} upstream_answer).
  - vm_compute. reflexivity.
  - vm_compute. reflexivity.
  - reflexivity.
  - reflexivity.
  - right. exact I.
  - reflexivity.
  - apply Z.ltb_lt. vm_compute. reflexivity.
  - reflexivity.
Defined.

Lemma failures_are_absorbed_witness :
  exists w', getLocationInfo (H := Sample.runtime) "8.8.8.8" silent_geo
             = (Ok getDefaultLocationInfo, w')
             /\ ip_geolocation_cache w' = ip_geolocation_cache silent_geo.
Proof.
  refine (proj1 (@failures_are_absorbed Sample.runtime "8.8.8.8" silent_geo _ _ _) eq_refl).
  - vm_compute. reflexivity.
  - vm_compute. reflexivity.
  - right. exact I.
Defined.

Lemma cleanup_keeps_usable_rows_witness :
  exists w',
    cleanupCache false mixed_geo = (Ok tt, w')
    /\ ip_geolocation_cache w' !! "1.1.1.1" = None
    /\ getLocationInfo (H := Sample.runtime) "8.8.8.8" w'
       = (Ok cached_entry, emit (CacheSelect "8.8.8.8") w').
Proof.
  destruct (@cleanup_keeps_usable_rows Sample.runtime false mixed_geo)
    as (w' & Hrun & _ & _ & _ & Hhit).
  exists w'. split; [exact Hrun|]. split.
  - vm_compute in Hrun. injection Hrun as <-. vm_compute. reflexivity.
  - apply Hhit; vm_compute; reflexivity.
Defined.

End ServiceFacts.

(** ** Dotted quads *)

Module AddressFacts.
Import Regex RegexFacts Geo AddressSpec.

Lemma dead_not_nullable (r : re) : dead r = true -> nullable r = false.
Proof.
  induction r; cbn; intros H; try discriminate; try reflexivity.
  - apply orb_true_iff in H as [H|H];
      [rewrite (IHr1 H); reflexivity | rewrite (IHr2 H); apply andb_false_r].
  - apply andb_true_iff in H as [H1 H2]. rewrite (IHr1 H1), (IHr2 H2). reflexivity.
Qed.

Lemma dead_deriv (c : ascii) (r : re) : dead r = true -> dead (deriv c r) = true.
Proof.
  induction r; cbn; intros H; try discriminate; try reflexivity.
  - apply orb_true_iff in H as [H|H].
    + rewrite (dead_not_nullable r1 H). cbn. rewrite (IHr1 H). reflexivity.
    + destruct (nullable r1); cbn; rewrite H, ?(IHr2 H), ?orb_true_r; reflexivity.
  - apply andb_true_iff in H as [H1 H2]. rewrite (IHr1 H1), (IHr2 H2). reflexivity.
Qed.

Lemma dead_matches_prefix (r : re) (s : list ascii) :
  dead r = true -> matches_prefix r s = false.
Proof.
  revert r. induction s as [|c s IH]; intros r H; cbn.
  - rewrite (dead_not_nullable r H). reflexivity.
  - rewrite (dead_not_nullable r H). cbn. apply IH, dead_deriv, H.
Qed.

Lemma dead_matches (r : re) (s : list ascii) : dead r = true -> matches r s = false.
Proof.
  revert r. induction s as [|c s IH]; intros r H; cbn.
  - apply dead_not_nullable, H.
  - apply IH, dead_deriv, H.
Qed.

Lemma matches_app (r : re) (p s : list ascii) :
  matches r (p ++ s) = matches (derivs r p) s.
Proof. revert r. induction p as [|c p IH]; intros r; cbn; [reflexivity | apply IH]. Qed.

Lemma matches_prefix_split (r : re) (p s : list ascii) :
  matches_prefix r (p ++ s) = matches_prefix r p || matches_prefix (derivs r p) s.
Proof.
  revert r. induction p as [|c p IH]; intros r; cbn.
  - rewrite orb_false_r. destruct s; cbn; destruct (nullable r); reflexivity.
  - rewrite IH. rewrite orb_assoc. reflexivity.
Qed.

Lemma settled_sound (p : Pattern) (start rest : string) (v : bool) :
  settled p (list_ascii_of_string start) = Some v ->
  test p (start +:+ rest) = v.
Proof.
  destruct p as [r|r]; cbn; unfold test_full, test_prefix;
    rewrite list_ascii_of_string_app.
  - destruct (dead _) eqn:Hd; [|discriminate]. intros [= <-].
    rewrite matches_app. apply dead_matches, Hd.
  - rewrite matches_prefix_split.
    destruct (matches_prefix r _); [intros [= <-]; reflexivity|].
    destruct (dead _) eqn:Hd; [|discriminate]. intros [= <-].
    cbn. apply dead_matches_prefix, Hd.
Qed.

Lemma settled_some_sound (ps : list Pattern) (start rest : string) (v : bool) :
  settled_some ps (list_ascii_of_string start) = Some v ->
  existsb (fun range => test range (start +:+ rest)) ps = v.
Proof.
  revert v. induction ps as [|p ps IH]; intros v; cbn.
  - intros [= <-]. reflexivity.
  - destruct (settled p _) as [b|] eqn:Hp; [|discriminate].
    destruct (settled_some ps _) as [b'|]; [|discriminate].
    intros [= <-]. rewrite (settled_sound p start rest b Hp), (IH b' eq_refl). reflexivity.
Qed.

Lemma is_byte_bytes (n : Z) : is_byte n -> In n bytes.
Proof.
  intros H. apply list_elem_of_In. unfold bytes. apply elem_of_seqZ. unfold is_byte in H. lia.
Qed.

Lemma octets_match : forallb octet_ok bytes = true.
Proof. vm_compute. reflexivity. Qed.

Lemma networks_settled : forallb (fun a => forallb (network_ok a) bytes) bytes = true.
Proof. vm_compute. reflexivity. Qed.

Lemma decimal_octet (n : Z) : is_byte n -> lang octet (list_ascii_of_string (decimal n)).
Proof.
  intros H. apply matches_lang.
  exact (proj1 (forallb_forall octet_ok bytes) octets_match n (is_byte_bytes n H)).
Qed.

Lemma network_settled (a b : Z) :
  is_byte a -> is_byte b ->
  settled_some privateRanges (list_ascii_of_string (network a b)) = Some (private_v4 a b).
Proof.
  intros Ha Hb.
  pose proof (proj1 (forallb_forall _ bytes) networks_settled a (is_byte_bytes a Ha)) as H1.
  cbv beta in H1.
  pose proof (proj1 (forallb_forall _ bytes) H1 b (is_byte_bytes b Hb)) as Ht.
  unfold network_ok in Ht.
  destruct (settled_some privateRanges (list_ascii_of_string (network a b))) as [v|];
    [|discriminate].
  apply Bool.eqb_prop in Ht. rewrite Ht. reflexivity.
Qed.

Lemma append_assoc (a b c : string) : (a +:+ b) +:+ c = a +:+ (b +:+ c).
Proof.
  induction a as [|x a IH]; [reflexivity|].
  change (String x ((a +:+ b) +:+ c) = String x (a +:+ (b +:+ c))).
  rewrite IH. reflexivity.
Qed.

Lemma dotted_network (a b c d : Z) :
  dotted a b c d = network a b +:+ (decimal c +:+ "." +:+ decimal d).
Proof.
  unfold dotted, network. rewrite !append_assoc. reflexivity.
Qed.

(** X1. Every dotted quad of four bytes, written without leading zeros,
    is a valid address, and it is taken for private exactly when it lies
    in 10/8, 172.16/12, 192.168/16, 127/8 or 169.254/16. *)
Theorem dotted_quads_are_classified (a b c d : Z) :
  is_byte a -> is_byte b -> is_byte c -> is_byte d ->
  isValidIP (dotted a b c d) = true
  /\ isPrivateIP (dotted a b c d) = private_v4 a b.
Proof.
  intros Ha Hb Hc Hd. split.
  - unfold isValidIP. apply orb_true_iff. left. unfold test_full.
    apply matches_lang. unfold dotted. rewrite !list_ascii_of_string_app.
    pose proof (decimal_octet a Ha) as La. pose proof (decimal_octet b Hb) as Lb.
    pose proof (decimal_octet c Hc) as Lc. pose proof (decimal_octet d Hd) as Ld.
    set (la := list_ascii_of_string (decimal a)) in *.
    set (lb := list_ascii_of_string (decimal b)) in *.
    set (lc := list_ascii_of_string (decimal c)) in *.
    set (ld := list_ascii_of_string (decimal d)) in *.
    change (list_ascii_of_string ".") with ["."%char].
    replace (la ++ ["."%char] ++ lb ++ ["."%char] ++ lc ++ ["."%char] ++ ld)%list
      with (((la ++ ["."%char]) ++ (lb ++ ["."%char]) ++ (lc ++ ["."%char]) ++ []) ++ ld)%list
      by (rewrite app_nil_r, <- !app_assoc; reflexivity).
    unfold ipv4Regex. cbn [Rep].
    repeat (apply L_cat; try assumption); constructor.
  - unfold isPrivateIP. rewrite dotted_network.
    apply settled_some_sound, network_settled; assumption.
Qed.

Lemma dotted_quads_are_classified_witness :
  isValidIP "172.20.0.1" = true /\ isPrivateIP "172.20.0.1" = true.
Proof.
  apply (dotted_quads_are_classified 172 20 0 1); unfold is_byte; lia.
Defined.

End AddressFacts.

(** ** The verdict of the detector *)

Module VerdictFacts.
Import Geo Detector GeoSpec GeoFacts DetectorSpec DetectorFacts GeoSpec2 ResolveFacts
  ServiceFacts VerdictSpec.

Lemma contribution_scores (a : CheckResult) (score : Z) :
  scores a score -> contribution a = 0 \/ contribution a = score.
Proof.
  unfold contribution. intros [-> | [-> ->]]; [left; reflexivity | right; reflexivity].
Qed.

Lemma scores_or_else (r : Result CheckResult) (score : Z) :
  (forall a, r = Ok a -> scores a score) -> scores (or_else r notAnomalous) score.
Proof. destruct r as [a|e]; intros H; [apply H; reflexivity | left; reflexivity]. Qed.

Section Verdict.

Context `{rt : Runtime}.

Lemma first_far_login_scores (w : World) (rule : Rule) (l : LocationInfo)
    (logins : list LoginLog) (a : CheckResult) :
  first_far_login w rule l logins = Ok a -> scores a (rule_riskScore rule).
Proof.
  induction logins as [|login logins IH]; cbn -[calculateDistance].
  - intros [= <-]. left. reflexivity.
  - destruct (js_gt _ _ && js_lt _ _); [|exact IH].
    destruct (calculateDistance _ _ _ _); [|discriminate].
    intros [= <-]. right. split; reflexivity.
Qed.

Lemma checkGeographicAnomaly_scores (w : World) (userId : Z) (l : LocationInfo) :
  match riskRules w !! "异常地理位置" with
  | Some rule => scores (checkGeographicAnomaly w userId l) (rule_riskScore rule)
  | None => checkGeographicAnomaly w userId l = notAnomalous
  end.
Proof.
  unfold checkGeographicAnomaly, query.
  destruct (riskRules w !! "异常地理位置") as [rule|].
  - apply scores_or_else. intros a.
    destruct (js_not (latitude l) || js_not (longitude l)); [intros [= <-]; left; reflexivity|].
    destruct (query_fails w SelectRecentLogins); [discriminate|]. cbn [rbind].
    destruct (recentLogins w userId) as [|login logins] eqn:E; [intros [= <-]; left; reflexivity|].
    apply first_far_login_scores.
  - destruct (js_not (latitude l) || js_not (longitude l)); [reflexivity|].
    destruct (query_fails w SelectRecentLogins); [reflexivity|]. cbn [rbind].
    destruct (recentLogins w userId); reflexivity.
Qed.

Lemma checkLoginFrequency_scores (w : World) (userId : Z) (ip : string) :
  match riskRules w !! "频繁登录尝试" with
  | Some rule => scores (checkLoginFrequency w userId ip) (rule_riskScore rule)
  | None => checkLoginFrequency w userId ip = notAnomalous
  end.
Proof.
  unfold checkLoginFrequency, query.
  destruct (riskRules w !! "频繁登录尝试") as [rule|]; [|reflexivity].
  destruct (query_fails w CountAttempts); [left; reflexivity|]. cbn [rbind].
  destruct (js_ge _ _); [right; split; reflexivity | left; reflexivity].
Qed.


Lemma checkDeviceAnomaly_scores (w : World) (userId : Z) (d : DeviceInfo) (ip : string) :
  match riskRules w !! "新设备登录" with
  | Some rule => scores (checkDeviceAnomaly w userId d ip) (rule_riskScore rule)
  | None => checkDeviceAnomaly w userId d ip = notAnomalous
  end.
Proof.
  unfold checkDeviceAnomaly, query.
  destruct (riskRules w !! "新设备登录") as [rule|]; [|reflexivity].
  destruct (query_fails w SelectKnownDevice); [left; reflexivity|]. cbn [rbind].
  destruct (known_devices w userId _); [|left; reflexivity].
  destruct (query_fails w CountDevices); [left; reflexivity|]. cbn [rbind].
  destruct (device_count w userId =? 0); [left; reflexivity | right; split; reflexivity].
Qed.

Lemma checkTimeAnomaly_scores (w : World) (userId : Z) (zone : option string) :
  match riskRules w !! "异常时间登录" with
  | Some rule => scores (checkTimeAnomaly w userId zone) (rule_riskScore rule)
  | None => checkTimeAnomaly w userId zone = notAnomalous
  end.
Proof.
  unfold checkTimeAnomaly.
  destruct (riskRules w !! "异常时间登录") as [rule|]; [|reflexivity].
  destruct (getCurrentHourInTimezone w zone) as [h|]; [|left; reflexivity].
  destruct (normal_hours (conditions rule)) as [hs|]; [|left; reflexivity]. cbn [rbind].
  destruct (getUserLoginPattern w userId) as [|p ps].
  - destruct (includes hs h); [left; reflexivity | right; split; reflexivity].
  - destruct (includes _ h); [left; reflexivity | right; split; reflexivity].
Qed.

Lemma checkConcurrentSessions_scores (w : World) (userId : Z) :
  scores (checkConcurrentSessions w userId) 25.
Proof.
  unfold checkConcurrentSessions, query.
  destruct (query_fails w SelectMaxSessions); [left; reflexivity|]. cbn [rbind].
  destruct (query_fails w CountActiveSessions); [left; reflexivity|]. cbn [rbind].
  destruct (js_ge _ _); [right; split; reflexivity | left; reflexivity].
Qed.

(** The address check scores nothing, or at least 15 and at most the
    score of its rule. *)
Lemma checkIPReputation_bounds (w : World) (l : LocationInfo) :
  match riskRules w !! "可疑IP地址" with
  | Some rule =>
      checkIPReputation w l = notAnomalous
      \/ (isAnomalous (checkIPReputation w l) = true
          /\ Z.min 15 (rule_riskScore rule) <= riskScore (checkIPReputation w l)
             <= rule_riskScore rule)
  | None => checkIPReputation w l = notAnomalous
  end.
Proof.
  unfold checkIPReputation, ip_factors, add_factor.
  destruct (riskRules w !! "可疑IP地址") as [rule|]; [|reflexivity].
  destruct (is_proxy l), (is_vpn l), (is_tor l), (threat_is l "high"), (threat_is l "medium");
    cbv -[Z.min Z.le]; (left; reflexivity) || (right; split; [reflexivity | lia]).
Qed.

(** The checks read the rules, the tables and the settings; the
    geolocation service is only asked for the clock. *)
Lemma run_checks_rules (w : World) (g : Geo.World) (name : string) :
  riskRules (set_geo g w) !! name = riskRules w !! name.
Proof. reflexivity. Qed.

(** The contributions of the six checks, each within the cap of its
    rule. *)
Lemma run_checks_bound (w : World) (userId : Z) (loginData : LoginData)
    (l : LocationInfo) (d : DeviceInfo) :
  sum_scores (map contribution (run_checks w userId loginData l d))
  <= sum_scores (map (rule_cap w) rule_names) + 25.
Proof.
  unfold run_checks, rule_names, rule_cap. cbn [map sum_scores fold_right].
  pose proof (checkGeographicAnomaly_scores w userId l) as H1.
  pose proof (checkIPReputation_bounds w l) as H2.
  pose proof (checkLoginFrequency_scores w userId (ip_address loginData)) as H3.
  pose proof (checkDeviceAnomaly_scores w userId d (ip_address loginData)) as H4.
  pose proof (checkTimeAnomaly_scores w userId (timezone l)) as H5.
  pose proof (contribution_scores _ _ (checkConcurrentSessions_scores w userId)) as H6.
  destruct (riskRules w !! "异常地理位置") as [r1|];
    [apply contribution_scores in H1 | rewrite H1];
  (destruct (riskRules w !! "可疑IP地址") as [r2|];
    [destruct H2 as [H2 | [H2a H2b]]; [rewrite H2 | unfold contribution at 2; rewrite H2a]
    | rewrite H2]);
  (destruct (riskRules w !! "频繁登录尝试") as [r3|];
    [apply contribution_scores in H3 | rewrite H3]);
  (destruct (riskRules w !! "新设备登录") as [r4|];
    [apply contribution_scores in H4 | rewrite H4]);
  (destruct (riskRules w !! "异常时间登录") as [r5|];
    [apply contribution_scores in H5 | rewrite H5]);
  change (contribution notAnomalous) with 0; lia.
Qed.

Lemma run_checks_nonneg (w : World) (userId : Z) (loginData : LoginData)
    (l : LocationInfo) (d : DeviceInfo) :
  (forall name rule, riskRules w !! name = Some rule -> 0 <= rule_riskScore rule) ->
  0 <= sum_scores (map contribution (run_checks w userId loginData l d)).
Proof.
  intros Hpos.
  unfold run_checks. cbn [map sum_scores fold_right].
  pose proof (checkGeographicAnomaly_scores w userId l) as H1.
  pose proof (checkIPReputation_bounds w l) as H2.
  pose proof (checkLoginFrequency_scores w userId (ip_address loginData)) as H3.
  pose proof (checkDeviceAnomaly_scores w userId d (ip_address loginData)) as H4.
  pose proof (checkTimeAnomaly_scores w userId (timezone l)) as H5.
  pose proof (contribution_scores _ _ (checkConcurrentSessions_scores w userId)) as H6.
  destruct (riskRules w !! "异常地理位置") as [r1|] eqn:E1;
    [apply contribution_scores in H1; pose proof (Hpos _ _ E1) | rewrite H1];
  (destruct (riskRules w !! "可疑IP地址") as [r2|] eqn:E2;
    [pose proof (Hpos _ _ E2);
     destruct H2 as [H2 | [H2a H2b]]; [rewrite H2 | unfold contribution at 2; rewrite H2a]
    | rewrite H2]);
  (destruct (riskRules w !! "频繁登录尝试") as [r3|] eqn:E3;
    [apply contribution_scores in H3; pose proof (Hpos _ _ E3) | rewrite H3]);
  (destruct (riskRules w !! "新设备登录") as [r4|] eqn:E4;
    [apply contribution_scores in H4; pose proof (Hpos _ _ E4) | rewrite H4]);
  (destruct (riskRules w !! "异常时间登录") as [r5|] eqn:E5;
    [apply contribution_scores in H5; pose proof (Hpos _ _ E5) | rewrite H5]);
  change (contribution notAnomalous) with 0; lia.
Qed.

Lemma after_geo_set_geo (w : World) (loginData : LoginData) :
  after_geo w loginData = set_geo (getLocationInfo (ip_address loginData) (geo w)).2 w.
Proof. unfold after_geo, lift_geo. destruct (getLocationInfo _ _). reflexivity. Qed.

(** X9. The total of an assessment is at most the sum of the scores of
    the five rules, as far as they are loaded and positive, plus the 25
    of the session check; it is not negative when no loaded rule has a
    negative score. *)
Theorem total_is_bounded_by_rules (userId : Z) (loginData : LoginData) (w : World) :
  query_fails w InsertLoginLog = false ->
  exists r w',
    detectAnomalies userId loginData w = (Ok r, w')
    /\ totalRiskScore r <= sum_scores (map (rule_cap w) rule_names) + 25
    /\ ((forall name rule, riskRules w !! name = Some rule -> 0 <= rule_riskScore rule) ->
        0 <= totalRiskScore r).
Proof.
  intros Hq. destruct (detect_shape userId loginData w) as (l & Hl & Hd). cbv zeta in Hd.
  rewrite Hd, Hq. eexists _, _. split; [reflexivity|].
  cbn [totalRiskScore]. rewrite after_geo_set_geo. split.
  - exact (run_checks_bound (set_geo _ w) userId loginData l _).
  - intros Hpos. apply run_checks_nonneg. exact Hpos.
Qed.

Lemma getLocationInfo_now (ip : string) (g : Geo.World) :
  now (getLocationInfo ip g).2 = now g.
Proof.
  destruct (isValidIP ip) eqn:Hv;
    [|rewrite getLocationInfo_rejected by (left; exact Hv); reflexivity].
  destruct (isPrivateIP ip) eqn:Hp;
    [rewrite getLocationInfo_rejected by (right; exact Hp); reflexivity|].
  destruct (hit_or_miss ip g) as [(Hs & entry & He & Hvalid) | Hm].
  - rewrite (cache_hit ip g entry Hv Hp Hs He Hvalid). reflexivity.
  - rewrite (getLocationInfo_miss ip g Hv Hp Hm).
    pose proof (fetchFromAPI_frame ip (emit (CacheSelect ip) g)) as Hf. cbv zeta in Hf.
    destruct Hf as (Hnow & _).
    destruct (fetchFromAPI ip (emit (CacheSelect ip) g)) as [[l|e] w1]; cbn [snd] in *.
    + destruct (upsert_fails g); exact Hnow.
    + exact Hnow.
Qed.

(** X10. Without a loaded rule only the session check can trigger: the
    total is what it contributes, 0 or 25, and no login is suspicious. *)
Theorem no_rules_never_suspicious (userId : Z) (loginData : LoginData) (w : World) :
  riskRules w = ∅ -> query_fails w InsertLoginLog = false ->
  exists r w',
    detectAnomalies userId loginData w = (Ok r, w')
    /\ totalRiskScore r = contribution (checkConcurrentSessions w userId)
    /\ (totalRiskScore r = 0 \/ totalRiskScore r = 25)
    /\ isSuspicious r = false.
Proof.
  intros Hrules Hq. destruct (detect_shape userId loginData w) as (l & Hl & Hd). cbv zeta in Hd.
  rewrite Hd, Hq. eexists _, _. split; [reflexivity|].
  cbn [totalRiskScore isSuspicious]. rewrite after_geo_set_geo.
  set (w1 := set_geo _ w).
  assert (forall name, riskRules w1 !! name = None) as Hnone.
  { intros name. unfold w1. cbn. rewrite Hrules. apply lookup_empty. }
  unfold run_checks. cbn [map sum_scores fold_right].
  pose proof (checkGeographicAnomaly_scores w1 userId l) as H1.
  pose proof (checkIPReputation_bounds w1 l) as H2.
  pose proof (checkLoginFrequency_scores w1 userId (ip_address loginData)) as H3.
  pose proof (checkDeviceAnomaly_scores w1 userId (device_of_agent (user_agent loginData))
                (ip_address loginData)) as H4.
  pose proof (checkTimeAnomaly_scores w1 userId (timezone l)) as H5.
  rewrite Hnone in H1, H2, H3, H4, H5. rewrite H1, H2, H3, H4, H5.
  change (contribution notAnomalous) with 0.
  change (checkConcurrentSessions w1 userId) with (checkConcurrentSessions w userId).
  destruct (contribution_scores _ _ (checkConcurrentSessions_scores w userId)) as [H6|H6];
    rewrite H6; (split; [reflexivity|]); (split; [lia | reflexivity]).
Qed.

(** X11. A login from an address the geolocation service rejects (a
    malformed or a private one) is assessed on its frequency, its device
    and the sessions only: the location is the default, nothing is asked
    of the service, and the location, address and time checks contribute
    nothing. *)
Theorem rejected_address_skips_location_checks (userId : Z) (loginData : LoginData) (w : World) :
  isValidIP (ip_address loginData) = false \/ isPrivateIP (ip_address loginData) = true ->
  query_fails w InsertLoginLog = false ->
  exists r w',
    detectAnomalies userId loginData w = (Ok r, w')
    /\ locationInfo r = getDefaultLocationInfo
    /\ geo w' = geo w
    /\ anomalies r
       = List.filter isAnomalous
           [ checkLoginFrequency w userId (ip_address loginData);
             checkDeviceAnomaly w userId (deviceInfo r) (ip_address loginData);
             checkConcurrentSessions w userId ]
    /\ totalRiskScore r
       = contribution (checkLoginFrequency w userId (ip_address loginData))
         + contribution (checkDeviceAnomaly w userId (deviceInfo r) (ip_address loginData))
         + contribution (checkConcurrentSessions w userId).
Proof.
  intros Hrej Hq. destruct (detect_shape userId loginData w) as (l & Hl & Hd). cbv zeta in Hd.
  rewrite Hd, Hq. clear Hd.
  rewrite after_geo_set_geo.
  rewrite (getLocationInfo_rejected _ (geo w) Hrej) in Hl |- *.
  cbn [fst snd] in *. injection Hl as <-.
  eexists _, _. split; [reflexivity|].
  cbn [locationInfo totalRiskScore anomalies deviceInfo].
  split; [reflexivity|]. split; [reflexivity|].
  set (w1 := set_geo (geo w) w).
  unfold run_checks.
  assert (checkGeographicAnomaly w1 userId getDefaultLocationInfo = notAnomalous) as -> by reflexivity.
  assert (checkIPReputation w1 getDefaultLocationInfo = notAnomalous) as ->.
  { unfold checkIPReputation. destruct (riskRules w1 !! "可疑IP地址"); reflexivity. }
  assert (checkTimeAnomaly w1 userId (timezone getDefaultLocationInfo) = notAnomalous) as ->.
  { unfold checkTimeAnomaly. destruct (riskRules w1 !! "异常时间登录"); reflexivity. }
  change (checkLoginFrequency w1) with (checkLoginFrequency w).
  change (checkDeviceAnomaly w1) with (checkDeviceAnomaly w).
  change (checkConcurrentSessions w1) with (checkConcurrentSessions w).
  cbn [map sum_scores fold_right List.filter isAnomalous notAnomalous].
  change (contribution notAnomalous) with 0.
  split; [reflexivity | lia].
Qed.

(** X12. A login that is assessed is recorded: one row is appended to the
    log, for the user and the address of the login, active, stamped with
    the current time and carrying the verdict. The checks ran before the
    row was written; after it the user has one active session more and
    the address one attempt more in any window, and nobody else's
    sessions changed. *)
Theorem login_is_recorded (userId : Z) (loginData : LoginData) (w : World) :
  query_fails w InsertLoginLog = false ->
  exists r w' row,
    detectAnomalies userId loginData w = (Ok r, w')
    /\ user_login_logs w' = (user_login_logs w ++ [row])%list
    /\ log_user_id row = userId
    /\ log_ip_address row = ip_address loginData
    /\ log_session_token_hash row = session_token_hash loginData
    /\ log_login_time row = now (geo w)
    /\ log_is_active row = true
    /\ log_risk_score row = totalRiskScore r
    /\ log_is_suspicious row = isSuspicious r
    /\ active_session_count w' userId = active_session_count w userId + 1
    /\ (forall other, other <> userId ->
          active_session_count w' other = active_session_count w other)
    /\ (forall m, 0 <= m ->
          attempt_count w' (ip_address loginData) (Some m)
          = attempt_count w (ip_address loginData) (Some m) + 1).
Proof.
  intros Hq. destruct (detect_shape userId loginData w) as (l & Hl & Hd). cbv zeta in Hd.
  rewrite Hd, Hq. clear Hd. rewrite after_geo_set_geo.
  eexists _, _, _. split; [reflexivity|].
  cbn [user_login_logs set_user_login_logs set_geo login_row log_user_id log_ip_address
         log_session_token_hash log_login_time log_is_active log_risk_score
         log_is_suspicious ld_login risk_score is_suspicious totalRiskScore isSuspicious geo].
  split; [reflexivity|]. split; [reflexivity|]. split; [reflexivity|]. split; [reflexivity|].
  split; [apply getLocationInfo_now|]. split; [reflexivity|].
  split; [reflexivity|]. split; [reflexivity|].
  split; [|split].
  - unfold active_session_count. cbn [user_login_logs set_user_login_logs set_geo].
    rewrite filter_app, length_app, filter_cons_True by (split; reflexivity).
    cbn. lia.
  - intros other Hother. unfold active_session_count.
    cbn [user_login_logs set_user_login_logs set_geo].
    rewrite filter_app, length_app, filter_cons_False by (cbn; intros [? _]; congruence).
    cbn. lia.
  - intros m Hm. unfold attempt_count.
    cbn [user_login_logs set_user_login_logs set_geo geo].
    rewrite getLocationInfo_now.
    rewrite filter_app, length_app, filter_cons_True.
    + cbn. lia.
    + cbn. split; [reflexivity|]. rewrite ?getLocationInfo_now. unfold minutes. lia.
Qed.

End Verdict.

Import DetectorScenario VerdictScenario.

Lemma total_is_bounded_by_rules_witness :
  exists r w',
    detectAnomalies (H := Sample.runtime) 7 login (busy_world 25 false) = (Ok r, w')
    /\ totalRiskScore r <= 50.
Proof.
  destruct (@total_is_bounded_by_rules Sample.runtime 7 login (busy_world 25 false) eq_refl)
    as (r & w' & Hrun & Hle & _).
  exists r, w'. split; [exact Hrun|].
  exact Hle.
Defined.

Lemma no_rules_never_suspicious_witness :
  exists r w',
    detectAnomalies (H := Sample.runtime) 7 login bare_world = (Ok r, w')
    /\ totalRiskScore r = contribution (checkConcurrentSessions (H := Sample.runtime) bare_world 7)
    /\ (totalRiskScore r = 0 \/ totalRiskScore r = 25)
    /\ isSuspicious r = false.
Proof.
  exact (@no_rules_never_suspicious Sample.runtime 7 login bare_world eq_refl eq_refl).
Defined.

Lemma rejected_address_skips_location_checks_witness :
  exists r w',
    detectAnomalies (H := Sample.runtime) 7 login (busy_world 25 false) = (Ok r, w')
    /\ locationInfo r = getDefaultLocationInfo
    /\ geo w' = geo (busy_world 25 false).
Proof.
  destruct (@rejected_address_skips_location_checks Sample.runtime 7 login (busy_world 25 false)
              (or_intror eq_refl) eq_refl) as (r & w' & Hrun & Hl & Hg & _).
  exists r, w'. auto.
Defined.

Lemma login_is_recorded_witness :
  exists r w',
    detectAnomalies (H := Sample.runtime) 7 login (busy_world 25 false) = (Ok r, w')
    /\ active_session_count w' 7 = active_session_count (busy_world 25 false) 7 + 1.
Proof.
  destruct (@login_is_recorded Sample.runtime 7 login (busy_world 25 false) eq_refl)
    as (r & w' & row & Hrun & _ & _ & _ & _ & _ & _ & _ & _ & Hs & _).
  exists r, w'. auto.
Defined.

End VerdictFacts.

(** ** The checks one by one *)

Module ChecksFacts.
Import Geo Detector GeoSpec GeoFacts DetectorSpec DetectorFacts GeoSpec2 ResolveFacts
  ServiceFacts VerdictSpec VerdictFacts ChecksSpec.

Lemma In_insert_desc {A : Type} (key : A -> Z) (x y : A) (l : list A) :
  In y (insert_desc key x l) <-> y = x \/ In y l.
Proof.
  induction l as [|z l IH]; cbn.
  - intuition auto.
  - destruct (key z <? key x); cbn; [intuition auto | rewrite IH; intuition auto].
Qed.

Lemma In_sort_desc {A : Type} (key : A -> Z) (y : A) (l : list A) :
  In y (sort_desc key l) <-> In y l.
Proof.
  unfold sort_desc. induction l as [|x l IH]; cbn; [reflexivity|].
  rewrite In_insert_desc, IH. intuition auto.
Qed.

Lemma In_take {A : Type} (n : nat) (y : A) (l : list A) : In y (take n l) -> In y l.
Proof.
  revert l. induction n as [|n IH]; intros [|x l]; cbn; try tauto.
  intros [H|H]; [left; exact H | right; apply IH, H].
Qed.

Lemma includes_In (hs : list Z) (h : Z) : includes hs h = true <-> In h hs.
Proof.
  unfold includes. rewrite existsb_exists. split.
  - intros (x & Hin & Heq). apply Z.eqb_eq in Heq. subst. exact Hin.
  - intros Hin. exists h. split; [exact Hin | apply Z.eqb_refl].
Qed.

Lemma login_pattern_hours (w : World) (userId : Z) (h : Z) :
  In h (map fst (login_pattern w userId)) <-> habitual w userId h.
Proof.
  unfold login_pattern, habitual, logins_at_hour. rewrite in_map_iff. split.
  - intros ([h' n] & <- & Hin). cbn [fst].
    apply In_sort_desc in Hin. apply list_elem_of_In in Hin.
    apply list_elem_of_filter in Hin as [Hn Hin]. cbn [snd] in Hn.
    apply list_elem_of_In, in_map_iff in Hin as (h'' & Heq & Hin).
    injection Heq as <- <-.
    apply list_elem_of_In, elem_of_seqZ in Hin. split; [lia | exact Hn].
  - intros [Hh Hn]. eexists (h, _). split; [reflexivity|].
    apply In_sort_desc, list_elem_of_In, list_elem_of_filter. split; [exact Hn|].
    apply list_elem_of_In, in_map_iff. exists h. split; [reflexivity|].
    apply list_elem_of_In, elem_of_seqZ. lia.
Qed.

Lemma login_pattern_nil (w : World) (userId : Z) :
  login_pattern w userId = [] <-> forall h, ~ habitual w userId h.
Proof.
  split.
  - intros He h Hh. apply login_pattern_hours in Hh. rewrite He in Hh. exact Hh.
  - intros Hn. destruct (login_pattern w userId) as [|[h n] ps] eqn:E; [reflexivity|].
    exfalso. apply (Hn h), login_pattern_hours. rewrite E. left. reflexivity.
Qed.

Section Checks.

Context `{rt : Runtime}.

Lemma first_far_login_trigger (w : World) (rule : Rule) (l : LocationInfo)
    (logins : list LoginLog) (a : CheckResult) :
  first_far_login w rule l logins = Ok a -> isAnomalous a = true ->
  exists login d,
    In login logins
    /\ calculateDistance (latitude l) (longitude l)
         (latitude (log_location login)) (longitude (log_location login)) = Some d
    /\ js_gt (Some d) (max_distance_km (conditions rule)) = true
    /\ js_lt (hours_since w login) (time_window_hours (conditions rule)) = true
    /\ riskScore a = rule_riskScore rule.
Proof.
  induction logins as [|login logins IH]; cbn -[calculateDistance].
  - intros [= <-]. discriminate.
  - destruct (js_gt _ _ && js_lt _ _) eqn:E.
    + destruct (calculateDistance _ _ _ _) as [d|] eqn:Hd; [|discriminate].
      intros [= <-] _. apply andb_true_iff in E as [E1 E2].
      exists login, d. split; [left; reflexivity|]. rewrite Hd. auto.
    + intros Ha Han. destruct (IH Ha Han) as (login' & d & Hin & H).
      exists login', d. split; [right; exact Hin | exact H].
Qed.

(** X13. The location check needs both coordinates of the current
    location (a coordinate of 0 counts as missing) and never triggers
    without them. When it triggers, the rule is loaded and the user has
    a login of the last 24 hours, with coordinates, that lies farther
    than the distance of the rule and closer in time than its window;
    the score is the score of the rule. *)
Theorem geographic_check (w : World) (userId : Z) (l : LocationInfo) :
  (js_not (latitude l) = true \/ js_not (longitude l) = true ->
   checkGeographicAnomaly w userId l = notAnomalous)
  /\ (isAnomalous (checkGeographicAnomaly w userId l) = true ->
      exists rule login d,
        riskRules w !! "异常地理位置" = Some rule
        /\ In login (user_login_logs w)
        /\ log_user_id login = userId
        /\ now (geo w) - hours 24 <= log_login_time login
        /\ calculateDistance (latitude l) (longitude l)
             (latitude (log_location login)) (longitude (log_location login)) = Some d
        /\ js_gt (Some d) (max_distance_km (conditions rule)) = true
        /\ js_lt (hours_since w login) (time_window_hours (conditions rule)) = true
        /\ riskScore (checkGeographicAnomaly w userId l) = rule_riskScore rule).
Proof.
  unfold checkGeographicAnomaly, query. split.
  - intros H. assert (js_not (latitude l) || js_not (longitude l) = true) as ->.
    { destruct H as [-> | ->]; [reflexivity | apply orb_true_r]. }
    reflexivity.
  - destruct (js_not (latitude l) || js_not (longitude l)); [discriminate|].
    destruct (query_fails w SelectRecentLogins); [discriminate|]. cbn [rbind].
    destruct (recentLogins w userId) as [|login0 logins] eqn:E; [discriminate|].
    destruct (riskRules w !! "异常地理位置") as [rule|]; [|discriminate].
    destruct (first_far_login w rule l (login0 :: logins)) as [a|e] eqn:Hf; [|discriminate].
    cbn [or_else]. intros Han.
    destruct (first_far_login_trigger w rule l _ a Hf Han) as (login & d & Hin & Hd & Hgt & Hlt & Hs).
    exists rule, login, d. split; [reflexivity|].
    rewrite <- E in Hin. unfold recentLogins in Hin.
    apply In_take, In_sort_desc, list_elem_of_In, list_elem_of_filter in Hin
      as [(Hu & _ & _ & Ht) Hin].
    apply list_elem_of_In in Hin. auto 10.
Qed.

(** X14. With the rule loaded and the count read, the frequency check
    triggers exactly when the logins recorded from the address within
    the window of the rule, whoever the user, reach the limit of the
    rule; the verdict is the same for every user, and the score is the
    score of the rule. *)
Theorem login_frequency_check (w : World) (userId : Z) (ipAddress : string) (rule : Rule) :
  riskRules w !! "频繁登录尝试" = Some rule ->
  query_fails w CountAttempts = false ->
  (isAnomalous (checkLoginFrequency w userId ipAddress) = true
   <-> exists limit,
         max_attempts (conditions rule) = Some limit
         /\ limit <= attempt_count w ipAddress (time_window_minutes (conditions rule)))
  /\ (isAnomalous (checkLoginFrequency w userId ipAddress) = true ->
      riskScore (checkLoginFrequency w userId ipAddress) = rule_riskScore rule)
  /\ (forall other, checkLoginFrequency w other ipAddress = checkLoginFrequency w userId ipAddress).
Proof.
  intros Hrule Hq. unfold checkLoginFrequency, query. rewrite Hrule, Hq. cbn [rbind].
  unfold js_ge. destruct (max_attempts (conditions rule)) as [limit|].
  - destruct (limit <=? _) eqn:E; cbn.
    + apply Z.leb_le in E. split; [|split; reflexivity].
      split; [intros _; exists limit; auto | reflexivity].
    + apply Z.leb_gt in E. split; [|split; [discriminate | reflexivity]].
      split; [discriminate | intros (limit' & [= <-] & H); lia].
  - cbn. split; [|split; [discriminate | reflexivity]].
    split; [discriminate | intros (limit' & [=] & _)].
Qed.

(** X15. With the rule loaded, the time check does not trigger without
    an hour (no time zone in the location, or one the runtime does not
    know). Nor does it trigger when the rule gives no normal hours: they
    are read before the habits of the user are looked at, the read fails
    and the failure is absorbed, so that even a user with habitual hours
    is never flagged. With the hour and the hours of the rule given, a
    user whose pattern was read and who has habitual hours is judged by
    them alone, the hours of the rule then deciding nothing; a user
    without habitual hours, or whose pattern cannot be read, is judged
    by the hours of the rule. *)
Theorem time_of_day_check (w : World) (userId : Z) (zone : option string) (rule : Rule) :
  riskRules w !! "异常时间登录" = Some rule ->
  (getCurrentHourInTimezone w zone = None -> checkTimeAnomaly w userId zone = notAnomalous)
  /\ (normal_hours (conditions rule) = None -> checkTimeAnomaly w userId zone = notAnomalous)
  /\ (forall h hs,
        getCurrentHourInTimezone w zone = Some h ->
        normal_hours (conditions rule) = Some hs ->
        (query_fails w SelectLoginPattern = false ->
         (isAnomalous (checkTimeAnomaly w userId zone) = true
          <-> ((exists h', habitual w userId h') /\ ~ habitual w userId h)
              \/ ((forall h', ~ habitual w userId h') /\ ~ In h hs)))
        /\ (query_fails w SelectLoginPattern = true ->
            (isAnomalous (checkTimeAnomaly w userId zone) = true <-> ~ In h hs))).
Proof.
  intros Hrule. unfold checkTimeAnomaly. rewrite Hrule.
  split; [intros ->; reflexivity|]. split.
  { intros ->. destruct (getCurrentHourInTimezone w zone); reflexivity. }
  intros h hs -> ->. cbn [rbind]. unfold getUserLoginPattern, query. split.
  - intros ->. cbn [or_else].
    pose proof (login_pattern_hours w userId h) as Hh.
    pose proof (login_pattern_nil w userId) as Hnil.
    destruct (login_pattern w userId) as [|p ps] eqn:E.
    + assert (forall h', ~ habitual w userId h') as Hnone by (apply Hnil; reflexivity).
      destruct (includes hs h) eqn:Ei; cbn.
      * apply includes_In in Ei. split; [discriminate|].
        intros [[(h' & Hh') _] | [_ Hn]]; exfalso; [exact (Hnone h' Hh') | exact (Hn Ei)].
      * split; [|reflexivity]. intros _. right. split; [exact Hnone|].
        intros Hin. apply includes_In in Hin. congruence.
    + assert (exists h', habitual w userId h') as Hsome.
      { exists (fst p). apply login_pattern_hours. rewrite E. left. reflexivity. }
      destruct (includes (map fst (p :: ps)) h) eqn:Ei; cbn.
      * apply includes_In, Hh in Ei. split; [discriminate|].
        intros [[_ Hn] | [Hn _]]; exfalso;
          [exact (Hn Ei) | destruct Hsome as (h' & Hh'); exact (Hn h' Hh')].
      * split; [|reflexivity]. intros _. left. split; [exact Hsome|].
        intros Hhab. apply Hh, includes_In in Hhab. congruence.
  - intros ->. cbn [or_else].
    destruct (includes hs h) eqn:Ei; cbn.
    + apply includes_In in Ei. split; [discriminate | intros Hn; exfalso; exact (Hn Ei)].
    + split; [|reflexivity]. intros _ Hin. apply includes_In in Hin. congruence.
Qed.

(** X16. With its two reads answered, the session check triggers exactly
    when the active sessions of the user reach the limit: the setting
    [max_concurrent_sessions] when it parses as a number (a setting that
    does not never triggers), 5 without the setting. It scores 25,
    whatever rules are loaded. *)
Theorem concurrent_sessions_check (w : World) (userId : Z) :
  query_fails w SelectMaxSessions = false ->
  query_fails w CountActiveSessions = false ->
  (isAnomalous (checkConcurrentSessions w userId) = true
   <-> exists limit, session_limit w = Some limit /\ limit <= active_session_count w userId)
  /\ (isAnomalous (checkConcurrentSessions w userId) = true ->
      riskScore (checkConcurrentSessions w userId) = 25)
  /\ (security_settings w !! "max_concurrent_sessions" = None -> session_limit w = Some 5).
Proof.
  intros Hq1 Hq2. unfold checkConcurrentSessions, query, session_limit.
  rewrite Hq1, Hq2. cbn [rbind].
  split; [|split; [|intros ->; reflexivity]].
  - unfold js_ge.
    destruct (match security_settings w !! "max_concurrent_sessions" with
              | Some v => parseInt v | None => Some 5 end) as [limit|].
    + destruct (limit <=? _) eqn:E; cbn.
      * apply Z.leb_le in E. split; [intros _; exists limit; auto | reflexivity].
      * apply Z.leb_gt in E. split; [discriminate | intros (limit' & [= <-] & H); lia].
    + cbn. split; [discriminate | intros (limit' & [=] & _)].
  - destruct (js_ge _ _); cbn; [reflexivity | discriminate].
Qed.

(** X17. What the service itself has looked up can only raise the proxy
    factor: when the rows of the cache are the service's own, the
    location of an assessment has no VPN or Tor flag and no high threat
    level, so the address check scores 35 capped at the score of its
    rule (proxy and medium threat) for a proxy and nothing otherwise. *)
Theorem address_check_of_a_lookup (userId : Z) (loginData : LoginData) (w : World) (rule : Rule) :
  cache_plain (geo w) ->
  riskRules w !! "可疑IP地址" = Some rule ->
  query_fails w InsertLoginLog = false ->
  exists r w',
    detectAnomalies userId loginData w = (Ok r, w')
    /\ plain (locationInfo r)
    /\ cache_plain (geo w')
    /\ checkIPReputation w (locationInfo r)
       = if is_proxy (locationInfo r)
         then anomalous (Z.min 35 (rule_riskScore rule))
                (IpReputation ["代理服务器"; "中等威胁IP"] (Some "medium"))
         else notAnomalous.
Proof.
  intros Hc Hrule Hq.
  destruct (detect_shape userId loginData w) as (l & Hl & Hd). cbv zeta in Hd.
  rewrite Hd, Hq. clear Hd. rewrite after_geo_set_geo.
  destruct (getLocationInfo_plain (ip_address loginData) (geo w) Hc) as (l' & g' & Hg & Hp & Hc').
  rewrite Hg in Hl |- *. cbn [fst snd] in *. injection Hl as <-.
  eexists _, _. split; [reflexivity|]. cbn [locationInfo geo set_user_login_logs set_geo].
  split; [exact Hp|]. split; [exact Hc'|].
  destruct Hp as (Hvpn & Htor & Hthreat).
  unfold checkIPReputation, ip_factors, add_factor, threat_is.
  rewrite Hrule, Hvpn, Htor, Hthreat.
  destruct (is_proxy l'); reflexivity.
Qed.

End Checks.

Import DetectorScenario ChecksScenario.

Lemma geographic_check_witness :
  checkGeographicAnomaly (H := Sample.runtime) guarded_world 7 tor_exit = notAnomalous.
Proof.
  exact (proj1 (@geographic_check Sample.runtime guarded_world 7 tor_exit) (or_introl eq_refl)).
Defined.

Lemma login_frequency_check_witness :
  isAnomalous (checkLoginFrequency (busy_world 25 false) 7 "10.0.0.8") = true.
Proof.
  apply (proj1 (login_frequency_check (busy_world 25 false) 7 "10.0.0.8" (frequency_rule 25)
                  eq_refl eq_refl)).
  exists 5. split; [reflexivity|]. vm_compute. discriminate.
Defined.

Lemma time_of_day_check_witness :
  isAnomalous (checkTimeAnomaly (H := Sample.runtime) night_world 7 (Some "UTC")) = true.
Proof.
  apply (proj1 (proj2 (proj2 (@time_of_day_check Sample.runtime night_world 7 (Some "UTC")
                                hours_rule eq_refl))
                  22 _ eq_refl eq_refl) eq_refl).
  right. split.
  - intros h' [_ H]. vm_compute in H. apply H. reflexivity.
  - cbn. intros H. repeat (destruct H as [H|H]; [discriminate|]). exact H.
Defined.

Lemma concurrent_sessions_check_witness :
  isAnomalous (checkConcurrentSessions (H := Sample.runtime) (busy_world 25 false) 7) = true.
Proof.
  apply (proj1 (@concurrent_sessions_check Sample.runtime (busy_world 25 false) 7 eq_refl eq_refl)).
  exists 5. split; [reflexivity|]. vm_compute. discriminate.
Defined.

Lemma address_check_of_a_lookup_witness :
  exists r w',
    detectAnomalies (H := Sample.runtime) 7 login guarded_world = (Ok r, w')
    /\ plain (locationInfo r).
Proof.
  destruct (@address_check_of_a_lookup Sample.runtime 7 login guarded_world reputation_rule)
    as (r & w' & Hrun & Hp & _).
  - intros ip entry H. cbn in H. rewrite lookup_empty in H. discriminate.
  - reflexivity.
  - reflexivity.
  - exists r, w'. auto.
Defined.

End ChecksFacts.

(** ** Loading the rules, trusting a device *)

Module AdminFacts.
Import Geo Detector GeoSpec GeoFacts DetectorSpec DetectorFacts DetectorAdmin.

Lemma set_riskRules_id (w : World) : set_riskRules (riskRules w) w = w.
Proof. destruct w. reflexivity. Qed.

Lemma lookup_bindings (name : string) (bs : list (string * Rule)) (m : gmap string Rule) :
  fold_left bind_rule bs m !! name
  = match last_binding name bs with
    | Some rule => Some rule
    | None => m !! name
    end.
Proof.
  revert m. induction bs as [|[n r] bs IH]; intros m; cbn [fold_left last_binding];
    [reflexivity|].
  rewrite IH. destruct (last_binding name bs) as [r'|]; [reflexivity|].
  unfold bind_rule. cbn [fst snd]. rewrite lookup_insert.
  destruct (String.eqb n name) eqn:E.
  - apply String.eqb_eq in E. rewrite decide_True by exact E. reflexivity.
  - apply String.eqb_neq in E. rewrite decide_False by exact E. reflexivity.
Qed.

Lemma last_binding_none (name : string) (bs : list (string * Rule)) :
  ~ In name (map fst bs) -> last_binding name bs = None.
Proof.
  induction bs as [|[n r] bs IH]; cbn; [reflexivity|].
  intros H. rewrite IH by tauto.
  destruct (String.eqb n name) eqn:E; [|reflexivity].
  apply String.eqb_eq in E. tauto.
Qed.

Section Load.

Variable JSON_parse : string -> Result Conditions.

Lemma set_each_shape (rows : list RuleRow) (w : World) :
  exists r,
    set_each JSON_parse rows w
    = (r, set_riskRules
            (fold_left bind_rule (well_formed_prefix JSON_parse rows) (riskRules w)) w).
Proof.
  revert w. induction rows as [|row rows IH]; intros w; cbn [set_each well_formed_prefix].
  - exists (Ok tt). cbn. rewrite set_riskRules_id. reflexivity.
  - destruct (rule_of JSON_parse row) as [r|e].
    + unfold bind, modify.
      destruct (IH (set_riskRules (<[rule_name row := r]> (riskRules w)) w)) as (res & ->).
      exists res. reflexivity.
    + exists (Throw e). cbn. rewrite set_riskRules_id. reflexivity.
Qed.

Lemma well_formed_prefix_names (before : list RuleRow) (bad : RuleRow) (after : list RuleRow)
    (e : Error) (name : string) :
  rule_of JSON_parse bad = Throw e ->
  In name (map fst (well_formed_prefix JSON_parse (before ++ bad :: after))) ->
  In name (map rule_name before).
Proof.
  intros Hbad. induction before as [|row before IH]; cbn [app well_formed_prefix map].
  - rewrite Hbad. intros [].
  - destruct (rule_of JSON_parse row); [|intros []].
    cbn. intros [H|H]; [left; exact H | right; apply IH, H].
Qed.

(** X18. Loading the rules never throws. When the SELECT fails nothing is
    loaded. Otherwise the enabled rows are stored one after the other,
    a later row of a name replacing an earlier one, up to the first row
    whose conditions are not valid JSON: that row and every row after it
    are left out, so a rule that comes after a malformed one is not
    loaded. Only the registry changes. *)
Theorem rules_load_up_to_a_malformed_row (select_fails : bool) (rows : list RuleRow)
    (w : World) :
  exists w',
    loadRiskRules JSON_parse select_fails rows w = (Ok tt, w')
    /\ set_riskRules (riskRules w) w' = w
    /\ (select_fails = true -> w' = w)
    /\ (select_fails = false ->
        (forall name,
            riskRules w' !! name
            = match last_binding name
                      (well_formed_prefix JSON_parse (List.filter is_enabled rows)) with
              | Some rule => Some rule
              | None => riskRules w !! name
              end)
        /\ (forall before bad after e name,
              List.filter is_enabled rows = (before ++ bad :: after)%list ->
              rule_of JSON_parse bad = Throw e ->
              ~ In name (map rule_name before) ->
              riskRules w' !! name = riskRules w !! name)).
Proof.
  unfold loadRiskRules, try_catch, throw, ret.
  destruct select_fails.
  - exists w. split; [reflexivity|]. split; [apply set_riskRules_id|].
    split; [reflexivity | discriminate].
  - destruct (set_each_shape (List.filter is_enabled rows) w) as (r & ->).
    exists (set_riskRules
              (fold_left bind_rule
                 (well_formed_prefix JSON_parse (List.filter is_enabled rows)) (riskRules w)) w).
    split; [destruct r as [[]|]; reflexivity|].
    split; [exact (set_riskRules_id w)|]. split; [discriminate|]. intros _.
    cbn [riskRules set_riskRules]. split.
    + intros name. apply lookup_bindings.
    + intros before bad after e name Hrows Hbad Hname.
      rewrite lookup_bindings, last_binding_none; [reflexivity|].
      rewrite Hrows. intros Hin. apply Hname.
      exact (well_formed_prefix_names before bad after e name Hbad Hin).
Qed.

End Load.

Section Devices.

Context `{rt : Runtime}.

Lemma known_devices_app (w : World) (userId : Z) (fingerprint : string) (ds : list TrustedDevice) :
  known_devices (set_user_trusted_devices (user_trusted_devices w ++ ds)%list w) userId fingerprint
  = (known_devices w userId fingerprint
     ++ filter (fun d => td_user_id d = userId /\ td_device_fingerprint d = fingerprint) ds)%list.
Proof. unfold known_devices. cbn. apply filter_app. Qed.

Lemma update_on_key_key (userId : Z) (fp : string) (now : Z) (ipAddress : string)
    (l : LocationInfo) (d : TrustedDevice) :
  td_user_id (update_on_key userId fp now ipAddress l d) = td_user_id d
  /\ td_device_fingerprint (update_on_key userId fp now ipAddress l d)
     = td_device_fingerprint d.
Proof. unfold update_on_key. destruct (bool_decide _); split; reflexivity. Qed.

Lemma filter_map_length {A : Type} (P : A -> Prop) `{!forall x, Decision (P x)}
    (f : A -> A) (l : list A) :
  (forall x, P (f x) <-> P x) ->
  length (filter P (map f l)) = length (filter P l).
Proof.
  intros Hf. induction l as [|x xs IH]; [reflexivity|].
  cbn [map]. rewrite !filter_cons.
  destruct (decide (P (f x))) as [H1|H1]; destruct (decide (P x)) as [H2|H2].
  - cbn. rewrite IH. reflexivity.
  - exfalso. apply H2, Hf, H1.
  - exfalso. apply H1, Hf, H2.
  - exact IH.
Qed.

Lemma known_devices_updated (w : World) (userId : Z) (fp : string) (f : TrustedDevice -> TrustedDevice) :
  (forall d, td_user_id (f d) = td_user_id d
             /\ td_device_fingerprint (f d) = td_device_fingerprint d) ->
  length (known_devices (set_user_trusted_devices (map f (user_trusted_devices w)) w) userId fp)
  = length (known_devices w userId fp).
Proof.
  intros Hf. unfold known_devices. cbn [user_trusted_devices set_user_trusted_devices].
  apply filter_map_length. intros d. destruct (Hf d) as [-> ->]. reflexivity.
Qed.

Lemma addTrustedDevice_run (userId : Z) (deviceInfo : DeviceInfo)
    (ipAddress : string) (locationInfo : LocationInfo) (w : World) :
  addTrustedDevice false userId deviceInfo ipAddress locationInfo w
  = (Ok tt,
     let fp := generateDeviceFingerprint deviceInfo ipAddress in
     match known_devices w userId fp with
     | [] => set_user_trusted_devices
               (user_trusted_devices w ++
                [inserted_device userId fp deviceInfo ipAddress locationInfo])%list w
     | _ :: _ => set_user_trusted_devices
                   (map (update_on_key userId fp (now (geo w)) ipAddress locationInfo)
                        (user_trusted_devices w)) w
     end).
Proof. reflexivity. Qed.

Lemma addTrustedDevice_shape (userId : Z) (deviceInfo : DeviceInfo)
    (ipAddress : string) (locationInfo : LocationInfo) (w : World) :
  exists w',
    addTrustedDevice false userId deviceInfo ipAddress locationInfo w = (Ok tt, w')
    /\ known_devices w' userId (generateDeviceFingerprint deviceInfo ipAddress) <> []
    /\ riskRules w' = riskRules w /\ user_login_logs w' = user_login_logs w.
Proof.
  rewrite addTrustedDevice_run. cbv zeta.
  eexists. split; [reflexivity|].
  destruct (known_devices w userId _) as [|d ds] eqn:Hk.
  - split; [|split; reflexivity]. rewrite known_devices_app, Hk. cbn [app].
    rewrite filter_cons_True by (split; reflexivity). discriminate.
  - split; [|split; reflexivity].
    intros Hnil. apply (f_equal length) in Hnil.
    rewrite known_devices_updated, Hk in Hnil by (intros; apply update_on_key_key).
    discriminate.
Qed.

(** X19. Registering a device never throws, and when the database rejects
    the statement nothing changes. Otherwise the device is known
    afterwards: the device check does not trigger for the same user,
    device and address, whatever rule is loaded. A device that was not
    known gets one row, added after the others, with the user, the
    fingerprint, the name (browser, the word on, system), type, browser
    and system of the device, the address and the location of the
    login, and no time of last use set. For a device that was known no
    row is added: the table keeps its length and every row its user,
    fingerprint, name, type, browser and system; the rows of the user
    with that fingerprint get the current time as time of last use and
    the address and the location of this login, and every other row is
    as it was. *)
Theorem registered_device_is_known (insert_fails : bool) (userId : Z) (deviceInfo : DeviceInfo)
    (ipAddress : string) (locationInfo : LocationInfo) (w : World) :
  exists w',
    addTrustedDevice insert_fails userId deviceInfo ipAddress locationInfo w = (Ok tt, w')
    /\ (insert_fails = true -> w' = w)
    /\ (insert_fails = false ->
        let fp := generateDeviceFingerprint deviceInfo ipAddress in
        known_devices w' userId fp <> []
        /\ checkDeviceAnomaly w' userId deviceInfo ipAddress = notAnomalous
        /\ w' = set_user_trusted_devices (user_trusted_devices w') w
        /\ (known_devices w userId fp = [] ->
            exists d,
              user_trusted_devices w' = (user_trusted_devices w ++ [d])%list
              /\ td_user_id d = userId /\ td_device_fingerprint d = fp
              /\ td_device_name d = browser deviceInfo +:+ " on " +:+ os deviceInfo
              /\ td_device_type d = device_type deviceInfo
              /\ td_browser d = browser deviceInfo /\ td_os d = os deviceInfo
              /\ td_ip_address d = ipAddress
              /\ td_location d = (city locationInfo, country locationInfo)
              /\ td_last_used d = None)
        /\ (known_devices w userId fp <> [] ->
            length (user_trusted_devices w') = length (user_trusted_devices w)
            /\ forall i d,
                 user_trusted_devices w !! i = Some d ->
                 exists d',
                   user_trusted_devices w' !! i = Some d'
                   /\ td_user_id d' = td_user_id d
                   /\ td_device_fingerprint d' = td_device_fingerprint d
                   /\ td_device_name d' = td_device_name d
                   /\ td_device_type d' = td_device_type d
                   /\ td_browser d' = td_browser d /\ td_os d' = td_os d
                   /\ (td_user_id d = userId /\ td_device_fingerprint d = fp ->
                       td_last_used d' = Some (now (geo w))
                       /\ td_ip_address d' = ipAddress
                       /\ td_location d' = (city locationInfo, country locationInfo))
                   /\ (~ (td_user_id d = userId /\ td_device_fingerprint d = fp) -> d' = d))
        /\ device_count w' userId
           = device_count w userId
             + (if bool_decide (known_devices w userId fp = []) then 1 else 0)
        /\ (forall other, other <> userId -> device_count w' other = device_count w other)).
Proof.
  destruct insert_fails.
  - exists w. split; [reflexivity|]. split; [reflexivity | discriminate].
  - destruct (addTrustedDevice_shape userId deviceInfo ipAddress locationInfo w)
      as (w' & Hrun & Hknown & _).
    exists w'. split; [exact Hrun|]. split; [discriminate|]. intros _. cbv zeta.
    set (fp := generateDeviceFingerprint deviceInfo ipAddress) in *.
    split; [exact Hknown|].
    split.
    { unfold checkDeviceAnomaly, query. fold fp.
      destruct (riskRules _ !! "新设备登录"); [|reflexivity].
      destruct (query_fails _ SelectKnownDevice); [reflexivity|]. cbn [rbind].
      destruct (known_devices w' userId fp); [contradiction | reflexivity]. }
    rewrite addTrustedDevice_run in Hrun. cbv zeta in Hrun. fold fp in Hrun.
    injection Hrun as Hw'.
    destruct (known_devices w userId fp) as [|d0 ds] eqn:Hk; subst w'.
    + split; [reflexivity|]. split.
      { intros _. eexists. split; [reflexivity|]. cbn. auto 12. }
      split; [intros H; contradiction|].
      rewrite bool_decide_eq_true_2 by reflexivity.
      split.
      * unfold device_count. cbn [user_trusted_devices set_user_trusted_devices].
        rewrite filter_app, length_app, filter_cons_True by reflexivity. cbn. lia.
      * intros other Hother. unfold device_count.
        cbn [user_trusted_devices set_user_trusted_devices].
        rewrite filter_app, length_app, filter_cons_False by (cbn; congruence). cbn. lia.
    + split; [reflexivity|]. split; [discriminate|].
      cbn [user_trusted_devices set_user_trusted_devices].
      split.
      { intros _. split; [apply length_map|].
        intros i d Hd. rewrite list_lookup_fmap, Hd. cbn [fmap option_fmap option_map].
        eexists. split; [reflexivity|]. unfold update_on_key.
        destruct (bool_decide (td_user_id d = userId /\ td_device_fingerprint d = fp)) eqn:Eb.
        - cbn. do 6 (split; [reflexivity|]). split; [auto|].
          intros Hn. apply bool_decide_eq_true in Eb. contradiction.
        - do 6 (split; [reflexivity|]). split; [|reflexivity].
          intros Hy. apply bool_decide_eq_false in Eb. contradiction. }
      rewrite bool_decide_eq_false_2 by discriminate.
      split.
      * unfold device_count. cbn [user_trusted_devices set_user_trusted_devices].
        rewrite filter_map_length; [lia|].
        intros d. rewrite (proj1 (update_on_key_key userId fp _ ipAddress locationInfo d)).
        reflexivity.
      * intros other Hother. unfold device_count.
        cbn [user_trusted_devices set_user_trusted_devices].
        rewrite filter_map_length; [reflexivity|].
        intros d. rewrite (proj1 (update_on_key_key userId fp _ ipAddress locationInfo d)).
        reflexivity.
Qed.

End Devices.

Import DetectorScenario AdminScenario.

Lemma rules_load_up_to_a_malformed_row_witness :
  exists w',
    loadRiskRules parse_conditions false rule_table guarded_world = (Ok tt, w')
    /\ is_Some (riskRules w' !! "新设备登录")
    /\ riskRules w' !! "频繁登录尝试" = None
    /\ riskRules w' !! "可疑IP地址" = Some reputation_rule.
Proof.
  destruct (rules_load_up_to_a_malformed_row parse_conditions false rule_table guarded_world)
    as (w' & Hrun & _ & _ & Hload).
  destruct (Hload eq_refl) as [Hlookup Hafter].
  exists w'. split; [exact Hrun|]. split; [|split].
  - rewrite Hlookup. vm_compute. eauto.
  - rewrite Hlookup. vm_compute. reflexivity.
  - rewrite (Hafter [row "新设备登录" "{}" 15] (row "频繁登录尝试" "{" 25)
               [row "可疑IP地址" "{}" 30] SyntaxError "可疑IP地址" eq_refl eq_refl).
    + vm_compute. reflexivity.
    + cbn. intros [H|[]]. discriminate.
Defined.

Lemma registered_device_is_known_witness :
  exists w',
    addTrustedDevice (H := Sample.runtime) false 7 desktop "203.0.113.9"
      getDefaultLocationInfo guarded_world = (Ok tt, w')
    /\ checkDeviceAnomaly (H := Sample.runtime) w' 7 desktop "203.0.113.9" = notAnomalous
    /\ device_count w' 7 = 2.
Proof.
  destruct (@registered_device_is_known Sample.runtime false 7 desktop "203.0.113.9"
              getDefaultLocationInfo guarded_world) as (w' & Hrun & _ & Hok).
  destruct (Hok eq_refl) as (_ & Hcheck & _ & _ & _ & Hcount & _).
  exists w'. split; [exact Hrun|]. split; [exact Hcheck|].
  rewrite Hcount. vm_compute. reflexivity.
Defined.

End AdminFacts.

(** ** Creating and mailing alerts *)

Module MailFacts.
Import Detector Notify NotifySpec NotifyFacts LoginAlert NotifySpec2.
Local Open Scope js_scope.

(** The lookup in the table of severities is truthy for the three
    notified severities and for the names every object inherits. *)
Lemma severityThresholds_truthy (severity : string) :
  severityThresholds severity = true
  <-> In severity notified_severities \/ In severity Object_prototype.
Proof.
  unfold severityThresholds.
  destruct (String.eqb severity "low") eqn:E1.
  { apply String.eqb_eq in E1 as ->. split; [discriminate|].
    unfold notified_severities, Object_prototype. cbn [In]. intuition discriminate. }
  destruct (String.eqb severity "medium") eqn:E2.
  { apply String.eqb_eq in E2 as ->. split; [|reflexivity]. intros _. left. left. reflexivity. }
  destruct (String.eqb severity "high") eqn:E3.
  { apply String.eqb_eq in E3 as ->. split; [|reflexivity].
    intros _. left. right. left. reflexivity. }
  destruct (String.eqb severity "critical") eqn:E4.
  { apply String.eqb_eq in E4 as ->. split; [|reflexivity].
    intros _. left. right. right. left. reflexivity. }
  apply String.eqb_neq in E2, E3, E4. rewrite existsb_exists. split.
  - intros (x & Hx & E). apply String.eqb_eq in E as ->. right. exact Hx.
  - intros [[H|[H|[H|[]]]]|H]; try congruence.
    exists severity. split; [exact H | apply String.eqb_refl].
Qed.

Lemma notified_severities_thresholds (severity : string) :
  In severity notified_severities -> severityThresholds severity = true.
Proof. intros H. apply severityThresholds_truthy. left. exact H. Qed.

Lemma shouldSendNotification_shape (alertType severity : string) (w : World) :
  shouldSendNotification alertType severity w
  = (Ok (notifications_enabled w && severityThresholds severity), w).
Proof.
  unfold shouldSendNotification, notifications_enabled, try_catch, bind, query, ret.
  destruct (query_fails w SelectAlertAdministrators); [reflexivity|]. cbn [negb andb].
  destruct (security_settings w !! "alert_administrators") as [v|].
  - destruct (String.eqb v "true") eqn:E; cbn [negb].
    + apply String.eqb_eq in E as ->. rewrite bool_decide_eq_true_2 by reflexivity. reflexivity.
    + apply String.eqb_neq in E. rewrite bool_decide_eq_false_2 by congruence. reflexivity.
  - rewrite bool_decide_eq_false_2 by discriminate. reflexivity.
Qed.

Section Mail.

Context `{rt : Runtime}.

(** A notification only sends: it adds no pause, and nothing at all
    without a transporter. *)
Lemma sendNotifications_sends (a : QueuedAlert) (w : World) :
  exists evs,
    sendNotifications a w = (Ok tt, extend evs w)
    /\ elapsed evs = 0
    /\ (emailTransporter w = false -> evs = []).
Proof.
  unfold sendNotifications, try_catch, bind. rewrite getAdministrators_spec.
  destruct (if query_fails w SelectAdministrators then [] else administrators w) as [|u l].
  - exists []. rewrite extend_nil. auto.
  - rewrite getUserInfo_spec. unfold sendEmailNotifications, bind, gets, try_catch. cbn [id].
    destruct (emailTransporter w); cbn [negb].
    + rewrite getEmailTemplate_spec.
      destruct (prepareEmailContent _ _ _ _) as [c|e].
      * rewrite send_to_each_spec. eexists. split; [reflexivity|].
        split; [|discriminate].
        induction (u :: l) as [|x xs IH]; [reflexivity | exact IH].
      * exists []. rewrite extend_nil. auto.
    + exists []. rewrite extend_nil. auto.
Qed.

Lemma drain_empties (queue : list QueuedAlert) (w : World) :
  alertQueue w = queue ->
  exists evs,
    drain (length queue) w = (Ok tt, set_alertQueue [] (extend evs w))
    /\ elapsed evs = 1000 * Z.of_nat (length queue)
    /\ (emailTransporter w = false -> recipients evs = []).
Proof.
  revert w. induction queue as [|a rest IH]; intros w Hq.
  - exists []. cbn. rewrite extend_nil. split; [|auto].
    destruct w. cbn in *. subst. reflexivity.
  - cbn [length drain]. unfold bind at 1. unfold gets at 1. cbn [id]. rewrite Hq.
    unfold bind at 1. unfold modify at 1. unfold bind at 1.
    destruct (sendNotifications_sends a (set_alertQueue rest w)) as (evs & -> & Hel & Hno).
    unfold bind at 1. unfold sleep, modify.
    destruct (IH (emit (Sleep 1000) (extend evs (set_alertQueue rest w))) eq_refl)
      as (evs' & -> & Hel' & Hno').
    exists (evs ++ [Sleep 1000] ++ evs')%list. split; [|split].
    + f_equal. unfold set_alertQueue, extend, emit. cbn. rewrite <- !app_assoc. reflexivity.
    + rewrite !elapsed_app, Hel, Hel'. cbn [elapsed fold_right length]. lia.
    + intros Ht. rewrite (Hno Ht). cbn. apply Hno'. exact Ht.
Qed.

(** X20. The worker leaves no alert waiting: whatever it could send, the
    queue is empty afterwards and the worker is idle, with one pause of
    a second per alert taken off the queue; an alert that could not be
    mailed is not kept for another try, and without a transporter
    nothing is sent at all. The table of alerts is untouched. While the
    worker is at work a second call does nothing. *)
Theorem worker_leaves_no_alert_waiting (w : World) :
  (isProcessing w = true -> processNotificationQueue w = (Ok tt, w))
  /\ (isProcessing w = false ->
      exists w',
        processNotificationQueue w = (Ok tt, w')
        /\ alertQueue w' = [] /\ isProcessing w' = false
        /\ security_alerts w' = security_alerts w
        /\ elapsed (trace w') = elapsed (trace w) + 1000 * Z.of_nat (length (alertQueue w))
        /\ (emailTransporter w = false -> recipients (trace w') = recipients (trace w))).
Proof.
  unfold processNotificationQueue, bind, gets. cbn [id]. split.
  - intros ->. reflexivity.
  - intros Hp. rewrite Hp. cbn [orb].
    destruct (Z.of_nat (length (alertQueue w)) =? 0) eqn:E.
    + apply Z.eqb_eq in E. exists w. destruct (alertQueue w); [|cbn in E; lia].
      unfold ret. cbn. split; [reflexivity|]. split; [reflexivity|].
      split; [exact Hp|]. split; [reflexivity|]. split; [lia | reflexivity].
    + unfold modify at 1. unfold try_catch.
      destruct (drain_empties (alertQueue w) (set_isProcessing true w) eq_refl)
        as (evs & -> & Hel & Hno).
      unfold modify. eexists. split; [reflexivity|].
      cbn. split; [reflexivity|]. split; [reflexivity|]. split; [reflexivity|].
      split.
      * rewrite elapsed_app, Hel. reflexivity.
      * intros Ht. unfold recipients in *. rewrite omap_app, (Hno Ht), app_nil_r. reflexivity.
Qed.

Lemma start_worker_busy (w : World) :
  isProcessing w = true -> start_worker w = (Ok tt, w).
Proof. intros Hp. unfold start_worker, bind, gets. cbn [id]. rewrite Hp. reflexivity. Qed.

Lemma start_worker_idle (a : QueuedAlert) (rest : list QueuedAlert) (w : World) :
  isProcessing w = false -> alertQueue w = a :: rest ->
  start_worker w
  = (Ok tt, set_inFlight (Some a) (set_alertQueue rest (set_isProcessing true w))).
Proof.
  intros Hp Hq. unfold start_worker, bind, gets, modify. cbn [id]. rewrite Hp, Hq.
  reflexivity.
Qed.

(** Creating an alert whose row can be inserted: the row is written,
    and when the alert is to be notified it joins the queue and the
    worker is started. *)
Lemma createSecurityAlert_run (alertData : AlertData) (w : World) :
  query_fails w InsertAlert = false ->
  createSecurityAlert alertData w
  = (Ok (fresh (dom (security_alerts w))),
     let stored :=
       set_security_alerts
         (<[fresh (dom (security_alerts w)) := new_alert_row (now w) alertData]>
            (security_alerts w)) w in
     if notifications_enabled w && severityThresholds (severity alertData)
     then (start_worker
             (set_alertQueue
                (alertQueue w ++ [{| alertId := fresh (dom (security_alerts w));
                                     alert := alertData |}])%list stored)).2
     else stored).
Proof.
  intros Hins.
  unfold createSecurityAlert, try_catch. unfold bind at 1. unfold query at 1.
  rewrite Hins. unfold bind at 1. unfold modify at 1. unfold bind at 1.
  rewrite shouldSendNotification_shape. unfold bind at 1.
  change (notifications_enabled (set_security_alerts _ w)) with (notifications_enabled w).
  cbv zeta.
  destruct (notifications_enabled w && severityThresholds (severity alertData)).
  - unfold bind at 1. unfold modify at 1.
    match goal with |- context [start_worker ?x] =>
      destruct (start_worker_frame x) as (x' & Hx & _) end.
    rewrite Hx. unfold ret. f_equal. exact (eq_sym (f_equal snd Hx)).
  - reflexivity.
Qed.

Lemma createSecurityAlert_stored (alertData : AlertData) (w : World) :
  query_fails w InsertAlert = false ->
  exists alertId w',
    createSecurityAlert alertData w = (Ok alertId, w')
    /\ security_alerts w !! alertId = None
    /\ security_alerts w'
       = <[alertId := new_alert_row (now w) alertData]> (security_alerts w)
    /\ (notifications_enabled w && severityThresholds (severity alertData) = false ->
        w' = set_security_alerts (security_alerts w') w).
Proof.
  intros Hins. rewrite (createSecurityAlert_run alertData w Hins). cbv zeta.
  assert (security_alerts w !! fresh (dom (security_alerts w)) = None) as Hfresh.
  { apply not_elem_of_dom. apply is_fresh. }
  eexists _, _. split; [reflexivity|]. split; [exact Hfresh|].
  destruct (notifications_enabled w && severityThresholds (severity alertData)).
  - match goal with |- context [start_worker ?x] =>
      destruct (start_worker_frame x) as (x' & Hx & Ha & _) end.
    rewrite Hx. cbn [snd]. split; [rewrite Ha; reflexivity | discriminate].
  - split; reflexivity.
Qed.

(** X21. Creating an alert fails only when its row cannot be inserted:
    then the error reaches the caller and nothing has changed.
    Otherwise the alert is stored, open, under an id the table did not
    hold, and the id is returned; no message has been sent when the call
    returns. The alert is to be notified when notifications are switched
    on and its severity is medium, high or critical, or the name of a
    member every object inherits (such as constructor). An alert that is
    not to be notified is stored and nothing else happens. One that is
    joins the queue: a worker at work is left alone; an idle worker is
    started, and the call returns with the worker busy and holding the
    first alert of the queue, the others still waiting. *)
Theorem alert_creation_fails_only_on_insert (alertData : AlertData) (w : World) :
  (query_fails w InsertAlert = true ->
   createSecurityAlert alertData w = (Throw (QueryError "query"), w))
  /\ (query_fails w InsertAlert = false ->
      exists alertId w',
        createSecurityAlert alertData w = (Ok alertId, w')
        /\ security_alerts w !! alertId = None
        /\ security_alerts w'
           = <[alertId := new_alert_row (now w) alertData]> (security_alerts w)
        /\ trace w' = trace w
        /\ (notifications_enabled w = false
            \/ ~ (In (severity alertData) notified_severities
                  \/ In (severity alertData) Object_prototype) ->
            w' = set_security_alerts (security_alerts w') w)
        /\ (notifications_enabled w = true ->
            In (severity alertData) notified_severities
            \/ In (severity alertData) Object_prototype ->
            let waiting :=
              (alertQueue w ++ [{| alertId := alertId; alert := alertData |}])%list in
            (isProcessing w = true ->
             w' = set_alertQueue waiting (set_security_alerts (security_alerts w') w))
            /\ (isProcessing w = false ->
                exists first rest,
                  waiting = first :: rest
                  /\ w' = set_inFlight (Some first)
                            (set_alertQueue rest
                               (set_isProcessing true
                                  (set_security_alerts (security_alerts w') w)))))).
Proof.
  split.
  - intros Hins. unfold createSecurityAlert, try_catch. unfold bind at 1. unfold query at 1.
    rewrite Hins. reflexivity.
  - intros Hins. rewrite (createSecurityAlert_run alertData w Hins). cbv zeta.
    assert (security_alerts w !! fresh (dom (security_alerts w)) = None) as Hfresh.
    { apply not_elem_of_dom. apply is_fresh. }
    eexists _, _. split; [reflexivity|]. split; [exact Hfresh|].
    destruct (severityThresholds (severity alertData)) eqn:Hsev.
    + apply severityThresholds_truthy in Hsev.
      destruct (notifications_enabled w) eqn:Hen; cbn [andb].
      * destruct (isProcessing w) eqn:Hp.
        -- rewrite start_worker_busy by exact Hp. cbn [snd].
           split; [reflexivity|]. split; [reflexivity|].
           split; [intros [H|H]; [discriminate | contradiction]|].
           intros _ _. split; [reflexivity | discriminate].
        -- destruct (alertQueue w) as [|first rest] eqn:Hq.
           ++ rewrite (start_worker_idle _ []) by first [exact Hp | reflexivity].
              cbn [snd]. split; [reflexivity|]. split; [reflexivity|].
              split; [intros [H|H]; [discriminate | contradiction]|].
              intros _ _. split; [discriminate|]. intros _.
              eexists _, []. split; reflexivity.
           ++ rewrite (start_worker_idle first
                         (rest ++ [{| alertId := fresh (dom (security_alerts w));
                                      alert := alertData |}])%list)
                by first [exact Hp | reflexivity].
              cbn [snd]. split; [reflexivity|]. split; [reflexivity|].
              split; [intros [H|H]; [discriminate | contradiction]|].
              intros _ _. split; [discriminate|]. intros _.
              eexists first, _. split; reflexivity.
      * split; [reflexivity|]. split; [reflexivity|]. split; [reflexivity|].
        intros H. discriminate.
    + rewrite andb_false_r. split; [reflexivity|]. split; [reflexivity|].
      split; [reflexivity|]. intros _ H. apply severityThresholds_truthy in H. congruence.
Qed.

(** Without a transporter a notification does nothing at all. *)
Lemma sendNotifications_silent (a : QueuedAlert) (w : World) :
  emailTransporter w = false -> sendNotifications a w = (Ok tt, w).
Proof.
  intros Ht. destruct (sendNotifications_sends a w) as (evs & -> & _ & Hno).
  rewrite (Hno Ht). rewrite extend_nil. reflexivity.
Qed.

(** X22. An alert that is to be notified is not mailed as it is created,
    and in the service as it is constructed, which has no transporter,
    it is not mailed afterwards either. From an idle service with
    nothing waiting, notifications switched on and a severity of medium,
    high or critical, the call returns the id with nothing sent, the
    worker busy and holding the alert. When the worker goes on it sends
    nothing, pauses for a second and is idle again with nothing waiting:
    the alert stays in the table and is not kept for another try. *)
Theorem created_alert_is_not_mailed (alertData : AlertData) (w : World) :
  query_fails w InsertAlert = false ->
  notifications_enabled w = true ->
  In (severity alertData) notified_severities ->
  isProcessing w = false -> alertQueue w = [] ->
  emailTransporter w = false ->
  exists alertId w1 w2,
    createSecurityAlert alertData w = (Ok alertId, w1)
    /\ trace w1 = trace w
    /\ isProcessing w1 = true /\ alertQueue w1 = []
    /\ inFlight w1 = Some {| alertId := alertId; alert := alertData |}
    /\ resume_worker w1 = (Ok tt, w2)
    /\ trace w2 = (trace w ++ [Sleep 1000])%list
    /\ isProcessing w2 = false /\ alertQueue w2 = [] /\ inFlight w2 = None
    /\ security_alerts w2 = security_alerts w1
    /\ security_alerts w1 !! alertId = Some (new_alert_row (now w) alertData).
Proof.
  intros Hins Hen Hsev Hidle Hqueue Ht.
  apply notified_severities_thresholds in Hsev.
  rewrite (createSecurityAlert_run alertData w Hins). cbv zeta.
  rewrite Hen, Hsev. cbn [andb]. rewrite Hqueue. cbn [app].
  rewrite (start_worker_idle _ []) by first [exact Hidle | reflexivity]. cbn [snd].
  eexists _, _, _. split; [reflexivity|]. split; [reflexivity|].
  split; [reflexivity|]. split; [reflexivity|]. split; [reflexivity|].
  unfold resume_worker. unfold bind at 1. unfold gets at 1. cbn [id].
  cbn [inFlight set_inFlight]. unfold bind at 1. unfold modify at 1.
  unfold bind at 1. unfold try_catch. unfold bind at 1.
  rewrite sendNotifications_silent by exact Ht.
  unfold bind at 1. unfold sleep at 1. unfold modify at 1.
  cbn [alertQueue set_inFlight set_alertQueue length drain]. unfold ret at 1. unfold modify.
  split; [reflexivity|]. cbn.
  split; [reflexivity|]. split; [reflexivity|]. split; [reflexivity|]. split; [reflexivity|].
  split; [reflexivity|]. apply lookup_insert_eq.
Qed.

Section Render.

Variable show_number : Z -> string.
Variable join_reasons : list (option Reason) -> string.
Variable stringify : RiskAssessment -> Z -> string.

Lemma createLoginAnomalyAlert_stored (userId : Z) (r : RiskAssessment) (w : World) :
  query_fails w InsertAlert = false ->
  exists alertId w' alertData,
    createLoginAnomalyAlert show_number join_reasons stringify userId r w = (Ok alertId, w')
    /\ security_alerts w !! alertId = None
    /\ security_alerts w' = <[alertId := new_alert_row (now w) alertData]> (security_alerts w)
    /\ Notify.userId alertData = userId
    /\ alertType alertData = "login_anomaly"
    /\ severity alertData = login_severity (totalRiskScore r).
Proof.
  intros Hins. unfold createLoginAnomalyAlert, bind, gets. cbn [id].
  match goal with |- context [createSecurityAlert ?d w] =>
    destruct (createSecurityAlert_stored d w Hins) as (alertId & w' & Hrun & Hfresh & Hrows & _);
    exists alertId, w', d
  end.
  rewrite Hrun. auto 10.
Qed.

Lemma login_severity_notified (total : Z) :
  severityThresholds (login_severity total) = true <-> 40 <= total.
Proof.
  unfold login_severity.
  destruct (80 <=? total) eqn:E80; [apply Z.leb_le in E80 | apply Z.leb_gt in E80].
  { split; [lia | reflexivity]. }
  destruct (60 <=? total) eqn:E60; [apply Z.leb_le in E60 | apply Z.leb_gt in E60].
  { split; [lia | reflexivity]. }
  destruct (40 <=? total) eqn:E40; [apply Z.leb_le in E40 | apply Z.leb_gt in E40].
  { split; [lia | reflexivity]. }
  split; [discriminate | lia].
Qed.

Lemma login_severity_in_notified (total : Z) :
  40 <= total -> In (login_severity total) notified_severities.
Proof.
  intros H40. unfold login_severity, notified_severities.
  destruct (80 <=? total); [right; right; left; reflexivity|].
  destruct (60 <=? total); [right; left; reflexivity|].
  destruct (40 <=? total) eqn:E40; [left; reflexivity|].
  apply Z.leb_gt in E40. lia.
Qed.

(** X23. The alert of a login is of type login_anomaly, for the user of
    the login, with the severity of the total: critical from 80, high
    from 60, medium from 40, low below. It is stored whenever its row
    can be inserted. A total of 40 or more gives a severity that is
    notified, so the alert of a suspicious login (a total of 50 or more)
    is never of severity low. *)
Theorem login_alert_severity (userId : Z) (r : RiskAssessment) (w : World) :
  query_fails w InsertAlert = false ->
  exists alertId w' row,
    createLoginAnomalyAlert show_number join_reasons stringify userId r w = (Ok alertId, w')
    /\ security_alerts w !! alertId = None
    /\ security_alerts w' !! alertId = Some row
    /\ is_resolved row = false
    /\ Notify.userId (row_alert row) = userId
    /\ alertType (row_alert row) = "login_anomaly"
    /\ severity (row_alert row) = login_severity (totalRiskScore r)
    /\ (severityThresholds (severity (row_alert row)) = true <-> 40 <= totalRiskScore r)
    /\ (80 <= totalRiskScore r -> severity (row_alert row) = "critical")
    /\ (60 <= totalRiskScore r < 80 -> severity (row_alert row) = "high")
    /\ (40 <= totalRiskScore r < 60 -> severity (row_alert row) = "medium")
    /\ (totalRiskScore r < 40 -> severity (row_alert row) = "low").
Proof.
  intros Hins. unfold createLoginAnomalyAlert, bind, gets. cbn [id].
  match goal with |- context [createSecurityAlert ?d w] =>
    destruct (createSecurityAlert_stored d w Hins) as (alertId & w'' & Hrun' & Hfresh & Hrows' & _)
  end.
  rewrite Hrun'. eexists alertId, w'', _. split; [reflexivity|]. split; [exact Hfresh|].
  split; [rewrite Hrows'; apply lookup_insert_eq|].
  cbn [is_resolved new_alert_row row_alert Notify.userId alertType severity].
  split; [reflexivity|]. split; [reflexivity|]. split; [reflexivity|]. split; [reflexivity|].
  unfold login_severity.
  destruct (80 <=? totalRiskScore r) eqn:E80; [apply Z.leb_le in E80 | apply Z.leb_gt in E80].
  { split; [split; [lia | reflexivity]|].
    split; [reflexivity|]. split; [lia|]. split; lia. }
  destruct (60 <=? totalRiskScore r) eqn:E60; [apply Z.leb_le in E60 | apply Z.leb_gt in E60].
  { split; [split; [lia | reflexivity]|].
    split; [lia|]. split; [reflexivity|]. split; lia. }
  destruct (40 <=? totalRiskScore r) eqn:E40; [apply Z.leb_le in E40 | apply Z.leb_gt in E40].
  { split; [split; [lia | reflexivity]|].
    split; [lia|]. split; [lia|]. split; [reflexivity | lia]. }
  split; [split; [discriminate | lia]|].
  split; [lia|]. split; [lia|]. split; [lia | reflexivity].
Qed.

End Render.

End Mail.

Import NotifyScenario MailScenario.

Lemma worker_leaves_no_alert_waiting_witness :
  exists w',
    processNotificationQueue (H := Sample.runtime) (office false) = (Ok tt, w')
    /\ alertQueue w' = []
    /\ recipients (trace w') = [].
Proof.
  destruct (proj2 (@worker_leaves_no_alert_waiting Sample.runtime (office false)) eq_refl)
    as (w' & Hrun & Hq & _ & _ & _ & Hno).
  exists w'. split; [exact Hrun|]. split; [exact Hq|]. exact (Hno eq_refl).
Defined.

Lemma alert_creation_fails_only_on_insert_witness :
  exists alertId w',
    createSecurityAlert (H := Sample.runtime) intrusion (quiet_office false) = (Ok alertId, w')
    /\ security_alerts (quiet_office false) !! alertId = None.
Proof.
  destruct (proj2 (@alert_creation_fails_only_on_insert Sample.runtime intrusion
                     (quiet_office false)) eq_refl) as (alertId & w' & Hrun & Hfresh & _).
  exists alertId, w'. split; [exact Hrun | exact Hfresh].
Defined.

Lemma created_alert_is_not_mailed_witness :
  exists alertId w1 w2,
    createSecurityAlert (H := Sample.runtime) intrusion (constructed_office (Ok tt))
    = (Ok alertId, w1)
    /\ trace w1 = []
    /\ inFlight w1 = Some {| alertId := alertId; alert := intrusion |}
    /\ resume_worker (H := Sample.runtime) w1 = (Ok tt, w2)
    /\ trace w2 = [ Sleep 1000 ]
    /\ alertQueue w2 = [].
Proof.
  destruct (@created_alert_is_not_mailed Sample.runtime intrusion (constructed_office (Ok tt)))
    as (alertId & w1 & w2 & Hrun & Ht1 & _ & _ & Hfl & Hres & Ht2 & _ & Hq & _).
  - reflexivity.
  - reflexivity.
  - right. left. reflexivity.
  - reflexivity.
  - reflexivity.
  - reflexivity.
  - exists alertId, w1, w2. split; [exact Hrun|]. split; [exact Ht1|]. split; [exact Hfl|].
    split; [exact Hres|]. split; [exact Ht2 | exact Hq].
Defined.

Lemma login_alert_severity_witness :
  exists alertId w' row,
    createLoginAnomalyAlert (rt := Sample.runtime) (fun _ => "85") (fun _ => "") (fun _ _ => "{}")
      7 grave (quiet_office false) = (Ok alertId, w')
    /\ security_alerts w' !! alertId = Some row
    /\ severity (row_alert row) = "critical".
Proof.
  destruct (@login_alert_severity Sample.runtime (fun _ => "85") (fun _ => "") (fun _ _ => "{}")
              7 grave (quiet_office false) eq_refl)
    as (alertId & w' & row & Hrun & _ & Hrow & _ & _ & _ & _ & _ & Hcrit & _).
  exists alertId, w', row. split; [exact Hrun|]. split; [exact Hrow|].
  apply Hcrit. vm_compute. discriminate.
Defined.

End MailFacts.

(** ** The service as it is constructed *)

Module TransporterFacts.
Import Notify SecurityRoutes AlertOps NotifySpec NotifyFacts AlertFacts NotifySpec2 MailFacts.
Local Open Scope js_scope.

(** [nodemailer.createTransporter] is not a function: the library
    exports [createTransport]. *)
Lemma createTransporter_is_no_member (outcome : Result unit) :
  call_member nodemailer "createTransporter" outcome = Throw TypeError.
Proof. reflexivity. Qed.

Lemma constructor_run (createTransport : Result unit) (w : World) :
  constructor createTransport w
  = (Ok tt, set_isProcessing false (set_alertQueue [] (set_emailTransporter false w))).
Proof.
  unfold constructor, initializeEmailTransporter.
  rewrite createTransporter_is_no_member. reflexivity.
Qed.

Section Service.

Context `{rt : Runtime}.

Lemma createSecurityAlert_quiet (alertData : AlertData) (w : World) :
  emailTransporter (createSecurityAlert alertData w).2 = emailTransporter w
  /\ trace (createSecurityAlert alertData w).2 = trace w.
Proof.
  destruct (query_fails w InsertAlert) eqn:Hins.
  - assert (createSecurityAlert alertData w = (Throw (QueryError "query"), w)) as ->.
    { unfold createSecurityAlert, try_catch. unfold bind at 1. unfold query at 1.
      rewrite Hins. reflexivity. }
    split; reflexivity.
  - rewrite (createSecurityAlert_run alertData w Hins). cbv zeta. cbn [snd].
    destruct (notifications_enabled w && severityThresholds (severity alertData)).
    + match goal with |- context [start_worker ?x] =>
        destruct (start_worker_frame x) as (x' & Hx & _ & Ht & Htr) end.
      rewrite Hx. cbn [snd]. rewrite Ht, Htr. split; reflexivity.
    + split; reflexivity.
Qed.

Lemma resolveAlert_quiet (alertId resolvedBy : Z) (notes : option string) (w : World) :
  emailTransporter (resolveAlert alertId resolvedBy notes w).2 = emailTransporter w
  /\ trace (resolveAlert alertId resolvedBy notes w).2 = trace w.
Proof.
  rewrite resolveAlert_spec. destruct (query_fails w UpdateResolved); split; reflexivity.
Qed.

Lemma resolve_route_quiet (alertId : Z) (notes : option string) (resolvedBy : Z) (w : World) :
  exists r w',
    resolve_route alertId notes resolvedBy w = (r, w')
    /\ emailTransporter w' = emailTransporter w /\ trace w' = trace w.
Proof.
  unfold resolve_route.
  destruct (negb (1 <=? alertId)); [eexists _, _; split; [reflexivity | auto]|].
  destruct (sanitize_notes notes) as [notes'|]; [|eexists _, _; split; [reflexivity | auto]].
  unfold try_catch. unfold bind at 1. unfold query at 1.
  destruct (query_fails w SelectAlert); [eexists _, _; split; [reflexivity | auto]|].
  destruct (security_alerts w !! alertId) as [row|];
    [|eexists _, _; split; [reflexivity | auto]].
  destruct (is_resolved row); [eexists _, _; split; [reflexivity | auto]|].
  unfold bind. rewrite resolveAlert_spec.
  destruct (query_fails w UpdateResolved); eexists _, _; (split; [reflexivity | auto]).
Qed.

(** Without a transporter the worker that goes on sends nothing. *)
Lemma resume_worker_silent (w : World) :
  emailTransporter w = false ->
  exists w',
    resume_worker w = (Ok tt, w')
    /\ emailTransporter w' = false
    /\ recipients (trace w') = recipients (trace w).
Proof.
  intros Ht. unfold resume_worker, bind, gets. cbn [id].
  destruct (inFlight w) as [a|]; [|exists w; split; [reflexivity | split; [exact Ht | reflexivity]]].
  unfold modify at 1. unfold try_catch, bind.
  rewrite sendNotifications_silent by exact Ht.
  unfold sleep at 1. unfold modify at 1.
  destruct (drain_empties (alertQueue w) (emit (Sleep 1000) (set_inFlight None w)) eq_refl)
    as (evs & -> & _ & Hno).
  unfold modify. eexists. split; [reflexivity|]. split; [exact Ht|].
  cbn [trace set_isProcessing set_alertQueue extend emit set_inFlight].
  unfold recipients in *. rewrite !omap_app, (Hno Ht). cbn [omap]. rewrite !app_nil_r.
  reflexivity.
Qed.

(** Without a transporter the worker awaited to its end sends nothing. *)
Lemma worker_silent (w : World) :
  emailTransporter w = false -> isProcessing w = false ->
  exists w',
    processNotificationQueue w = (Ok tt, w')
    /\ alertQueue w' = []
    /\ recipients (trace w') = recipients (trace w)
    /\ elapsed (trace w') = elapsed (trace w) + 1000 * Z.of_nat (length (alertQueue w)).
Proof.
  intros Ht Hp. unfold processNotificationQueue, bind, gets. cbn [id]. rewrite Hp. cbn [orb].
  destruct (Z.of_nat (length (alertQueue w)) =? 0) eqn:E.
  - apply Z.eqb_eq in E. exists w. destruct (alertQueue w); [|cbn in E; lia].
    unfold ret. cbn. split; [reflexivity|]. split; [reflexivity|]. split; [reflexivity | lia].
  - unfold modify at 1. unfold try_catch.
    destruct (drain_empties (alertQueue w) (set_isProcessing true w) eq_refl)
      as (evs & -> & Hel & Hno).
    unfold modify. eexists. split; [reflexivity|]. cbn. split; [reflexivity|]. split.
    + unfold recipients in *. rewrite omap_app, (Hno Ht), app_nil_r. reflexivity.
    + rewrite elapsed_app, Hel. reflexivity.
Qed.

Lemma step_silent (w : World) (op : Op) :
  emailTransporter w = false ->
  emailTransporter (step w op) = false
  /\ recipients (trace (step w op)) = recipients (trace w).
Proof.
  intros Ht. destruct op as [alertData | alertId resolvedBy notes | alertId notes resolvedBy
                              | | t]; cbn [step].
  - destruct (createSecurityAlert_quiet alertData w) as [-> ->]. auto.
  - destruct (resolveAlert_quiet alertId resolvedBy notes w) as [-> ->]. auto.
  - destruct (resolve_route_quiet alertId notes resolvedBy w) as (r & w' & E & Ht' & Hr).
    rewrite E. cbn [snd]. rewrite Ht', Hr. auto.
  - destruct (resume_worker_silent w Ht) as (w' & E & Ht' & Hr).
    rewrite E. cbn [snd]. auto.
  - auto.
Qed.

Lemma steps_silent (ops : list Op) (w : World) :
  emailTransporter w = false ->
  emailTransporter (steps w ops) = false
  /\ recipients (trace (steps w ops)) = recipients (trace w).
Proof.
  revert w. induction ops as [|op ops IH]; intros w Ht; [auto|].
  unfold steps. cbn [fold_left]. destruct (step_silent w op Ht) as [Ht' Hr].
  destruct (IH (step w op) Ht') as [Ht'' Hr']. unfold steps in *.
  split; [exact Ht'' | rewrite Hr', Hr; reflexivity].
Qed.

(** C4. The service delivers no alert at all. Its constructor asks the
    mail library for a transporter through [createTransporter], a
    member the library does not export (its factory is
    [createTransport]): the call is a TypeError, the constructor
    absorbs it, and the transporter stays null whatever the factory
    would have answered. Nothing the service or the route does later
    sets the transporter. So, whatever alerts are created or resolved
    and whenever a started worker goes on, no send call is ever issued,
    however many active administrators there are; and the worker, run
    on any queue of alerts, empties it with its pauses of a second and
    without a single send call: of the N send calls per alert the
    specification describes, none is made. *)
Theorem no_alert_is_ever_delivered (createTransport : Result unit) (w0 : World)
    (ops : list Op) :
  exists w,
    constructor createTransport w0 = (Ok tt, w)
    /\ emailTransporter w = false /\ alertQueue w = [] /\ isProcessing w = false
    /\ emailTransporter (steps w ops) = false
    /\ recipients (trace (steps w ops)) = recipients (trace w0)
    /\ (forall queue : list QueuedAlert,
          exists w',
            processNotificationQueue
              (set_isProcessing false (set_alertQueue queue (steps w ops))) = (Ok tt, w')
            /\ alertQueue w' = []
            /\ recipients (trace w') = recipients (trace w0)
            /\ elapsed (trace w')
               = elapsed (trace (steps w ops)) + 1000 * Z.of_nat (length queue)).
Proof.
  rewrite constructor_run. eexists. split; [reflexivity|].
  split; [reflexivity|]. split; [reflexivity|]. split; [reflexivity|].
  match goal with |- context [steps ?x ops] =>
    destruct (steps_silent ops x eq_refl) as [Ht Hr]; set (w := x) in * end.
  split; [exact Ht|]. split; [exact Hr|]. intros queue.
  destruct (worker_silent (set_isProcessing false (set_alertQueue queue (steps w ops))) Ht eq_refl)
    as (w' & Hrun & Hq & Hrec & Hel).
  exists w'. split; [exact Hrun|]. split; [exact Hq|].
  split; [rewrite Hrec; exact Hr | exact Hel].
Qed.

End Service.

Import NotifyScenario MailScenario.

(** In the office, with three active administrators, notifications
    switched on and a factory that would have answered: an alert of
    severity high is created, the worker goes on, and all there is on
    the trace is the pause. *)
Lemma no_alert_is_ever_delivered_witness :
  length (administrators (constructed_office (Ok tt))) = 3%nat
  /\ trace (steps (H := Sample.runtime) (constructed_office (Ok tt))
              [CreateAlert intrusion; WorkerResumes]) = [ Sleep 1000 ]
  /\ recipients (trace (steps (H := Sample.runtime) (constructed_office (Ok tt))
                          [CreateAlert intrusion; WorkerResumes])) = [].
Proof.
  split; [vm_compute; reflexivity|]. split; [vm_compute; reflexivity|].
  destruct (@no_alert_is_ever_delivered Sample.runtime (Ok tt) (office true)
              [CreateAlert intrusion; WorkerResumes])
    as (w & Hrun & _ & _ & _ & _ & Hrec & _).
  rewrite constructor_run in Hrun. injection Hrun as <-. exact Hrec.
Defined.

End TransporterFacts.

(** ** The detection of the login route *)

Module RouteFacts.
Import Geo Detector GeoSpec GeoFacts DetectorSpec DetectorFacts DetectorAdmin LoginAlert
  VerdictFacts AdminFacts NotifySpec2 MailFacts LoginRoute.
Local Open Scope js_scope.

Section Route.

Context `{rt : Runtime}.

Variable show_number : Z -> string.
Variable join_reasons : list (option Reason) -> string.
Variable stringify : RiskAssessment -> Z -> string.

Lemma detect_settings (userId : Z) (loginData : LoginData) (w : World) :
  security_settings (detectAnomalies userId loginData w).2 = security_settings w
  /\ user_trusted_devices (detectAnomalies userId loginData w).2 = user_trusted_devices w.
Proof.
  destruct (detect_shape userId loginData w) as (l & _ & Hd). cbv zeta in Hd.
  rewrite Hd, after_geo_set_geo. destruct (query_fails w InsertLoginLog); split; reflexivity.
Qed.

Lemma detect_suspicious (userId : Z) (loginData : LoginData) (w : World)
    (r : RiskAssessment) (w1 : World) :
  detectAnomalies userId loginData w = (Ok r, w1) ->
  isSuspicious r = (50 <=? totalRiskScore r).
Proof.
  destruct (detect_shape userId loginData w) as (l & _ & Hd). cbv zeta in Hd.
  rewrite Hd. destruct (query_fails w InsertLoginLog); [discriminate|].
  intros [= <- _]. reflexivity.
Qed.

Lemma addTrustedDevice_ok (trust_fails : bool) (userId : Z) (d : DeviceInfo) (ip : string)
    (l : LocationInfo) (w : World) :
  exists w', addTrustedDevice trust_fails userId d ip l w = (Ok tt, w').
Proof.
  unfold addTrustedDevice, try_catch, throw, modify, ret.
  destruct trust_fails; eauto.
Qed.

(** The detection when the detector throws: the catch logs, and
    nothing else was done. *)
Lemma detection_detect_throws (settings_fails trust_fails : bool) (userId : Z)
    (loginData : LoginData) (s : Session) (e : Error) (w1 : World) :
  detectAnomalies userId loginData (detector s) = (Throw e, w1) ->
  detection show_number join_reasons stringify settings_fails trust_fails userId loginData s
  = (Ok tt, {| detector := w1; notifier := notifier s; anomalyResult := anomalyResult s;
               shouldBlock := shouldBlock s |}).
Proof.
  intros Hdet. unfold detection, try_catch, bind, lift_detector, ret. rewrite Hdet. reflexivity.
Qed.

(** The detection when the setting cannot be read. *)
Lemma detection_settings_fail (trust_fails : bool) (userId : Z)
    (loginData : LoginData) (s : Session) (r : RiskAssessment) (w1 : World) :
  detectAnomalies userId loginData (detector s) = (Ok r, w1) ->
  detection show_number join_reasons stringify true trust_fails userId loginData s
  = (Ok tt, {| detector := w1; notifier := notifier s; anomalyResult := Some r;
               shouldBlock := shouldBlock s |}).
Proof.
  intros Hdet.
  unfold detection, try_catch, bind, lift_detector, modify, ret, autoBlockSettings.
  rewrite Hdet. reflexivity.
Qed.

(** The detection in closed form, once the detector has answered and
    the setting is read. *)
Lemma detection_after_detect (trust_fails : bool) (userId : Z) (loginData : LoginData)
    (s : Session) (r : RiskAssessment) (w1 : World) :
  detectAnomalies userId loginData (detector s) = (Ok r, w1) ->
  let block := match security_settings (detector s) !! "auto_block_high_risk" with
               | Some v => String.eqb v "true"
               | None => false
               end && (80 <=? totalRiskScore r) in
  let n1 := if isSuspicious r
            then (createLoginAnomalyAlert show_number join_reasons stringify userId r
                    (notifier s)).2
            else notifier s in
  let alert_thrown :=
    isSuspicious r
    && match (createLoginAnomalyAlert show_number join_reasons stringify userId r
                (notifier s)).1 with
       | Ok _ => false
       | Throw _ => true
       end in
  let w2 := if negb alert_thrown && (totalRiskScore r <? 30)
            then (addTrustedDevice trust_fails userId (deviceInfo r) (ip_address loginData)
                    (locationInfo r) w1).2
            else w1 in
  detection show_number join_reasons stringify false trust_fails userId loginData s
  = (Ok tt, {| detector := w2; notifier := n1; anomalyResult := Some r;
               shouldBlock := block || shouldBlock s |}).
Proof.
  intros Hdet. cbv zeta.
  pose proof (detect_settings userId loginData (detector s)) as (Hss & _).
  rewrite Hdet in Hss. cbn [snd] in Hss.
  destruct (createLoginAnomalyAlert show_number join_reasons stringify userId r (notifier s))
    as [res n'] eqn:Hal.
  destruct (addTrustedDevice_ok trust_fails userId (deviceInfo r) (ip_address loginData)
              (locationInfo r) w1) as (w' & Htr).
  unfold detection, try_catch, bind, lift_detector, lift_notifier, modify, ret,
    autoBlockSettings.
  rewrite Hdet. cbn [detector notifier set_anomalyResult set_shouldBlock
                       anomalyResult shouldBlock].
  rewrite Hss, Htr. cbn [fst snd].
  set (autoBlock := match security_settings (detector s) !! "auto_block_high_risk" with
                    | Some v => String.eqb v "true" | None => false end).
  destruct (autoBlock && (80 <=? totalRiskScore r)); cbn [orb];
    cbn [detector notifier set_anomalyResult set_shouldBlock anomalyResult shouldBlock];
    destruct (isSuspicious r); cbn [andb negb];
    cbn [detector notifier set_anomalyResult set_shouldBlock anomalyResult shouldBlock];
    rewrite ?Hal; try (destruct res as [alertId|e]); cbn [negb andb];
    destruct (totalRiskScore r <? 30);
    cbn [detector notifier set_anomalyResult set_shouldBlock anomalyResult shouldBlock];
    rewrite ?Htr; reflexivity.
Qed.

(** X24. The detection never fails a login and blocks it in one case
    only: the detector returned an assessment with a total of 80 or
    more, and the setting auto_block_high_risk was read and is the text
    "true". When the detector throws (as it does when the login record
    cannot be written) or the setting cannot be read, the login goes
    on, whatever its risk. *)
Theorem login_is_blocked_only_on_high_risk (settings_fails trust_fails : bool)
    (userId : Z) (loginData : LoginData) (s : Session) :
  exists d s',
    login_decision show_number join_reasons stringify settings_fails trust_fails
      userId loginData s = (Ok d, s')
    /\ (d = Blocked
        <-> exists r w1,
              detectAnomalies userId loginData (detector s) = (Ok r, w1)
              /\ 80 <= totalRiskScore r
              /\ settings_fails = false
              /\ security_settings (detector s) !! "auto_block_high_risk" = Some "true")
    /\ (query_fails (detector s) InsertLoginLog = true -> d = Continue).
Proof.
  unfold login_decision. unfold bind at 1. unfold modify at 1.
  set (s0 := set_shouldBlock false (set_anomalyResult None s)).
  change (detectAnomalies userId loginData (detector s))
    with (detectAnomalies userId loginData (detector s0)).
  change (security_settings (detector s)) with (security_settings (detector s0)).
  change (query_fails (detector s)) with (query_fails (detector s0)).
  assert (shouldBlock s0 = false) as Hb0 by reflexivity.
  clearbody s0.
  unfold bind at 1.
  destruct (detectAnomalies userId loginData (detector s0)) as [[r|e] w1] eqn:Hdet.
  - destruct settings_fails.
    + rewrite (detection_settings_fail trust_fails userId loginData s0 r w1 Hdet).
      unfold bind, gets, ret. cbn [id shouldBlock]. rewrite Hb0.
      eexists _, _. split; [reflexivity|]. split.
      * split; [discriminate | intros (r' & w' & _ & _ & Hf & _); discriminate].
      * reflexivity.
    + pose proof (detection_after_detect trust_fails userId loginData s0 r w1 Hdet) as Hd.
      cbv zeta in Hd. rewrite Hd. clear Hd.
      unfold bind, gets, ret. cbn [id shouldBlock]. rewrite Hb0, orb_false_r.
      eexists _, _. split; [reflexivity|]. split.
      * destruct (security_settings (detector s0) !! "auto_block_high_risk") as [v|] eqn:Hv.
        -- destruct (String.eqb v "true") eqn:Ev; cbn [andb].
           ++ apply String.eqb_eq in Ev as ->.
              destruct (80 <=? totalRiskScore r) eqn:E80.
              ** apply Z.leb_le in E80. split; [|reflexivity].
                 intros _. exists r, w1. auto.
              ** apply Z.leb_gt in E80. split; [discriminate|].
                 intros (r' & w' & [= <- <-] & H80 & _). lia.
           ++ apply String.eqb_neq in Ev. split; [discriminate|].
              intros (r' & w' & _ & _ & _ & [= Hv']). congruence.
        -- cbn [andb]. split; [discriminate|].
           intros (r' & w' & _ & _ & _ & [=]).
      * intros Hins. exfalso.
        destruct (detect_shape userId loginData (detector s0)) as (l & _ & Hshape).
        cbv zeta in Hshape. rewrite Hshape, Hins in Hdet. discriminate.
  - rewrite (detection_detect_throws settings_fails trust_fails userId loginData s0 e w1 Hdet).
    unfold bind, gets, ret. cbn [id shouldBlock]. rewrite Hb0.
    eexists _, _. split; [reflexivity|]. split.
    + split; [discriminate | intros (r' & w' & [=] & _)].
    + reflexivity.
Qed.

(** X25. What the detection does with an assessment, the setting being
    read. A login that is not suspicious leaves the notification
    service alone. A suspicious one (a total of 50 or more) has one
    alert stored for its user, open, of type login_anomaly and of a
    severity that is notified, whenever the row can be inserted. The
    device of a login with a total below 30 is registered as trusted;
    from 30 on the trusted devices stay as they were. *)
Theorem suspicious_login_raises_an_alert (trust_fails : bool)
    (userId : Z) (loginData : LoginData) (s : Session) (r : RiskAssessment) (w1 : World) :
  detectAnomalies userId loginData (detector s) = (Ok r, w1) ->
  exists d s',
    login_decision show_number join_reasons stringify false trust_fails
      userId loginData s = (Ok d, s')
    /\ anomalyResult s' = Some r
    /\ (isSuspicious r = false -> notifier s' = notifier s)
    /\ (isSuspicious r = true ->
        Notify.query_fails (notifier s) Notify.InsertAlert = false ->
        exists alertId alertData,
          Notify.security_alerts (notifier s) !! alertId = None
          /\ Notify.security_alerts (notifier s')
             = <[alertId := Notify.new_alert_row (Notify.now (notifier s)) alertData]>
                 (Notify.security_alerts (notifier s))
          /\ Notify.userId alertData = userId
          /\ Notify.alertType alertData = "login_anomaly"
          /\ In (Notify.severity alertData) notified_severities)
    /\ (30 <= totalRiskScore r ->
        user_trusted_devices (detector s') = user_trusted_devices (detector s))
    /\ (totalRiskScore r < 30 -> trust_fails = false ->
        known_devices (detector s') userId
          (generateDeviceFingerprint (deviceInfo r) (ip_address loginData)) <> []).
Proof.
  intros Hdet.
  pose proof (detect_suspicious userId loginData (detector s) r w1 Hdet) as Hsus.
  pose proof (detect_settings userId loginData (detector s)) as (_ & Hdev).
  rewrite Hdet in Hdev. cbn [snd] in Hdev.
  unfold login_decision. unfold bind at 1. unfold modify at 1.
  set (s0 := set_shouldBlock false (set_anomalyResult None s)).
  pose proof (detection_after_detect trust_fails userId loginData s0 r w1 Hdet) as Hd.
  cbv zeta in Hd. unfold bind at 1. rewrite Hd. clear Hd.
  unfold bind, gets, ret. cbn [id].
  eexists _, _. split; [reflexivity|].
  cbn [anomalyResult notifier detector s0 set_shouldBlock set_anomalyResult].
  split; [reflexivity|]. split; [intros ->; reflexivity|]. split; [|split].
  - intros Hs Hins. rewrite Hs.
    destruct (createLoginAnomalyAlert_stored show_number join_reasons stringify userId r
                (notifier s) Hins)
      as (alertId & n' & alertData & Hrun & Hfresh & Hrows & Hu & Ht & Hsev).
    rewrite Hrun. cbn [snd]. exists alertId, alertData.
    split; [exact Hfresh|]. split; [exact Hrows|]. split; [exact Hu|]. split; [exact Ht|].
    rewrite Hsev. apply login_severity_in_notified.
    rewrite Hsus in Hs. apply Z.leb_le in Hs. lia.
  - intros H30. apply Z.ltb_ge in H30. rewrite H30, andb_false_r. exact Hdev.
  - intros H30 ->. assert (isSuspicious r = false) as ->.
    { rewrite Hsus. apply Z.leb_gt. lia. }
    apply Z.ltb_lt in H30. rewrite H30. cbn [andb negb].
    destruct (addTrustedDevice_shape userId (deviceInfo r) (ip_address loginData)
                (locationInfo r) w1) as (w' & -> & Hk & _).
    exact Hk.
Qed.

End Route.

Import DetectorScenario NotifyScenario MailScenario RouteScenario.

Lemma login_is_blocked_only_on_high_risk_witness :
  exists s',
    login_decision (rt := Sample.runtime) no_text no_text (fun _ _ => "") false false
      7 login (at_the_door 25 true) = (Ok Continue, s').
Proof.
  destruct (@login_is_blocked_only_on_high_risk Sample.runtime no_text no_text (fun _ _ => "")
              false false 7 login (at_the_door 25 true)) as (d & s' & Hrun & _ & Hgo).
  exists s'. rewrite <- (Hgo eq_refl). exact Hrun.
Defined.

Lemma suspicious_login_raises_an_alert_witness :
  exists d s' r,
    login_decision (rt := Sample.runtime) no_text no_text (fun _ _ => "") false false
      7 login (at_the_door 25 false) = (Ok d, s')
    /\ anomalyResult s' = Some r
    /\ totalRiskScore r = 50.
Proof.
  destruct (detectAnomalies (H := Sample.runtime) 7 login (busy_world 25 false))
    as [[r|e] w1] eqn:E; [|vm_compute in E; discriminate].
  destruct (@suspicious_login_raises_an_alert Sample.runtime no_text no_text (fun _ _ => "")
              false 7 login (at_the_door 25 false) r w1 E) as (d & s' & Hrun & Hres & _).
  exists d, s', r. split; [exact Hrun|]. split; [exact Hres|].
  vm_compute in E. injection E as <- _. reflexivity.
Defined.

End RouteFacts.

(** ** The answers of the resolve route *)

Module ResolveRouteFacts.
Import Notify SecurityRoutes AlertSpec NotifyFacts AlertFacts NotifyScenario.
Local Open Scope js_scope.

Section Answers.
Context `{rt : Runtime}.

(** What the validators let through is a valid request, and the notes
    the handler reads are the trimmed ones. *)
Lemma sanitize_notes_passed (alertId : Z) (notes notes' : option string) :
  (1 <=? alertId) = true -> sanitize_notes notes = Some notes' ->
  valid_request alertId notes /\ notes' = stored_notes notes.
Proof.
  intros E1 E2. apply Z.leb_le in E1. unfold sanitize_notes in E2.
  destruct notes as [text|].
  - destruct (validator_isLength_max 1000 (validator_trim text)) eqn:E3; [|discriminate].
    injection E2 as <-. split; [|reflexivity].
    split; [exact E1|]. intros text' [= <-]. exact E3.
  - injection E2 as <-. split; [|reflexivity]. split; [exact E1 | discriminate].
Qed.

(** X26. The answers of the resolve route. A request the validators
    reject (an id below 1, or notes of more than 1000 characters once
    trimmed) is answered 400; a valid one 500 when the alert cannot be
    read, 404 when there is no such alert, 400 when the alert is
    resolved already, 500 when the update fails and 200 otherwise. Only
    the answer 200 changes anything: the row of that one alert, open
    before, now has the resolved flag, the administrator as resolver,
    the current time as time of resolution and the trimmed notes of the
    request; the alert itself and its time of creation are as before. *)
Theorem resolve_route_answers (alertId : Z) (notes : option string) (resolvedBy : Z)
    (w : World) :
  exists status w',
    resolve_route alertId notes resolvedBy w = (Ok (Json status), w')
    /\ (status <> 200 -> w' = w)
    /\ (status = 200 ->
        exists row row',
          security_alerts w !! alertId = Some row /\ is_resolved row = false
          /\ security_alerts w' = <[alertId := row']> (security_alerts w)
          /\ w' = set_security_alerts (security_alerts w') w
          /\ is_resolved row' = true
          /\ resolved_by row' = Some resolvedBy
          /\ resolved_at row' = Some (now w)
          /\ resolution_notes row' = stored_notes notes
          /\ row_alert row' = row_alert row
          /\ created_at row' = created_at row)
    /\ (~ valid_request alertId notes -> status = 400)
    /\ (valid_request alertId notes ->
        status
        = if query_fails w SelectAlert then 500
          else match security_alerts w !! alertId with
               | None => 404
               | Some row =>
                   if is_resolved row then 400
                   else if query_fails w UpdateResolved then 500 else 200
               end).
Proof.
  unfold resolve_route.
  destruct (1 <=? alertId) eqn:E1; cbn [negb].
  2:{ exists 400, w. split; [reflexivity|]. split; [reflexivity|]. split; [discriminate|].
      split; [reflexivity|]. intros Hv.
      destruct (sanitize_notes_valid alertId notes Hv) as [H1 _]. congruence. }
  destruct (sanitize_notes notes) as [notes'|] eqn:E2.
  2:{ exists 400, w. split; [reflexivity|]. split; [reflexivity|]. split; [discriminate|].
      split; [reflexivity|]. intros Hv.
      destruct (sanitize_notes_valid alertId notes Hv) as [_ H2]. congruence. }
  destruct (sanitize_notes_passed alertId notes notes' E1 E2) as [Hv ->].
  unfold try_catch. unfold bind at 1. unfold query at 1.
  destruct (query_fails w SelectAlert).
  { exists 500, w. split; [reflexivity|]. split; [reflexivity|]. split; [discriminate|].
    split; [contradiction | reflexivity]. }
  destruct (security_alerts w !! alertId) as [row|] eqn:Hrow.
  - destruct (is_resolved row) eqn:Hres.
    { exists 400, w. split; [reflexivity|]. split; [reflexivity|]. split; [discriminate|].
      split; reflexivity. }
    unfold bind. rewrite resolveAlert_spec.
    destruct (query_fails w UpdateResolved).
    { exists 500, w. split; [reflexivity|]. split; [reflexivity|]. split; [discriminate|].
      split; [contradiction | reflexivity]. }
    eexists 200, _. split; [reflexivity|]. split; [intros H; exfalso; apply H; reflexivity|].
    split; [|split; [contradiction | reflexivity]].
    intros _. exists row, (resolved_row (now w) resolvedBy (stored_notes notes) row).
    split; [reflexivity|]. split; [exact Hres|]. cbn [security_alerts set_security_alerts].
    split.
    + apply map_eq. intros i. rewrite lookup_insert.
      destruct (decide (alertId = i)) as [<-|Hne].
      * rewrite lookup_alter_eq, Hrow. reflexivity.
      * rewrite lookup_alter_ne by exact Hne. reflexivity.
    + split; [reflexivity|]. cbn. auto 10.
  - exists 404, w. split; [reflexivity|]. split; [reflexivity|]. split; [discriminate|].
    split; [contradiction | reflexivity].
Qed.

End Answers.

Lemma resolve_route_answers_witness :
  exists status w' row',
    resolve_route (H := Sample.runtime) 1 (Some "  seen by the night shift ") 42 (office false)
    = (Ok (Json status), w')
    /\ status = 200
    /\ security_alerts w' !! 1 = Some row'
    /\ resolution_notes row' = Some "seen by the night shift".
Proof.
  destruct (@resolve_route_answers Sample.runtime 1 (Some "  seen by the night shift ") 42
              (office false))
    as (status & w' & Hrun & _ & Hdone & _ & Hstatus).
  assert (status = 200) as Hs.
  { rewrite Hstatus; [vm_compute; reflexivity|]. split; [lia|].
    intros text [= <-]. vm_compute. reflexivity. }
  destruct (Hdone Hs) as (row & row' & _ & _ & Hrows & _ & _ & _ & _ & Hnotes & _).
  exists status, w', row'. split; [exact Hrun|]. split; [exact Hs|].
  split; [rewrite Hrows; apply lookup_insert_eq | exact Hnotes].
Defined.

End ResolveRouteFacts.
